(** * webgpu-engine: resource registry and geometry batcher

    A shallow embedding of
    - the [WebGPU] class (label-keyed registry of GPU buffers and textures),
    - [TrianglePass.createMeshBuffer] (the geometry batcher) and
      [TrianglePass.render],
    together with the properties of the specification that concern them.

    JavaScript objects that are mutated in place (descriptor objects, GPU
    objects, the registry maps) live in an explicit [State]; methods are
    computations in a state-and-exception monad. *)

From stdpp Require Import gmap strings list.

Open Scope Z_scope.

(** ** JavaScript completions *)

(** The exceptions the modelled code can raise: [new Error(msg)] thrown by
    the registry getters, the [RangeError] of [TypedArray.prototype.set], and
    the [TypeError] of a property access on something that is not an object. *)
Inductive JsError : Type :=
  | Error (message : string)
  | RangeError
  | TypeError.

Inductive Completion (A : Type) : Type :=
  | Normal (a : A)
  | Throw (e : JsError).
Arguments Normal {A} a.
Arguments Throw {A} e.

(** ** GPU objects and the JavaScript heap *)

(** [GPUBufferDescriptor]: a mutable JavaScript object. *)
Record GPUBufferDescriptor : Type := mkBufferDescriptor {
  bd_size : Z;
  bd_usage : Z;
  bd_label : option string
}.

(** [GPUTextureDescriptor]; [size: {width, height}] is flattened. *)
Record GPUTextureDescriptor : Type := mkTextureDescriptor {
  td_width : Z;
  td_height : Z;
  td_format : string;
  td_usage : Z;
  td_sampleCount : option Z;
  td_label : option string
}.

(** A [GPUBuffer] as the device holds it: the descriptor values it was
    created from, whether [destroy()] was called on it, and the 32-bit words
    uploaded to it from offset 0 (all uploads of this program are arrays of
    4-byte elements written at offset 0). *)
Record GPUBuffer : Type := mkBuffer {
  buf_size : Z;
  buf_usage : Z;
  buf_label : option string;
  buf_destroyed : bool;
  buf_data : list Z
}.

Record GPUTexture : Type := mkTexture {
  tex_descriptor : GPUTextureDescriptor;
  tex_destroyed : bool
}.

(** One [renderPass.drawIndexed] call; an argument read past the end of the
    draw-parameter array is [undefined], here [None]. *)
Record DrawCall : Type := mkDraw {
  dc_indexCount : option Z;
  dc_instanceCount : option Z;
  dc_firstIndex : option Z;
  dc_baseVertex : option Z;
  dc_firstInstance : option Z
}.

(** The mutable state the modelled methods act on.  Object references are
    positions in the stores: a descriptor reference points into
    [bufferDescriptors] / [textureDescriptors], a [GPUBuffer] / [GPUTexture]
    handle into [gpuBuffers] / [gpuTextures] (the objects of the one
    [GPUDevice]).  [sharedBuffers] and [sharedTextures] are the two maps of
    the [WebGPU] instance, [drawParameters] the field of the [TrianglePass],
    [submitted] the command buffers handed to [device.queue.submit]. *)
Record State : Type := mkState {
  bufferDescriptors : list GPUBufferDescriptor;
  textureDescriptors : list GPUTextureDescriptor;
  gpuBuffers : list GPUBuffer;
  gpuTextures : list GPUTexture;
  sharedBuffers : gmap string nat;
  sharedTextures : gmap string nat;
  drawParameters : list Z;
  submitted : list (list DrawCall)
}.

(** The state right after [WebGPU.init]: both maps empty, nothing created. *)
Definition initial : State :=
  mkState [] [] [] [] ∅ ∅ [] [].

Definition with_bufferDescriptors (v : list GPUBufferDescriptor) (s : State) : State :=
  mkState v (textureDescriptors s) (gpuBuffers s) (gpuTextures s)
          (sharedBuffers s) (sharedTextures s) (drawParameters s) (submitted s).

Definition with_textureDescriptors (v : list GPUTextureDescriptor) (s : State) : State :=
  mkState (bufferDescriptors s) v (gpuBuffers s) (gpuTextures s)
          (sharedBuffers s) (sharedTextures s) (drawParameters s) (submitted s).

Definition with_gpuBuffers (v : list GPUBuffer) (s : State) : State :=
  mkState (bufferDescriptors s) (textureDescriptors s) v (gpuTextures s)
          (sharedBuffers s) (sharedTextures s) (drawParameters s) (submitted s).

Definition with_gpuTextures (v : list GPUTexture) (s : State) : State :=
  mkState (bufferDescriptors s) (textureDescriptors s) (gpuBuffers s) v
          (sharedBuffers s) (sharedTextures s) (drawParameters s) (submitted s).

Definition with_sharedBuffers (v : gmap string nat) (s : State) : State :=
  mkState (bufferDescriptors s) (textureDescriptors s) (gpuBuffers s) (gpuTextures s)
          v (sharedTextures s) (drawParameters s) (submitted s).

Definition with_sharedTextures (v : gmap string nat) (s : State) : State :=
  mkState (bufferDescriptors s) (textureDescriptors s) (gpuBuffers s) (gpuTextures s)
          (sharedBuffers s) v (drawParameters s) (submitted s).

Definition with_drawParameters (v : list Z) (s : State) : State :=
  mkState (bufferDescriptors s) (textureDescriptors s) (gpuBuffers s) (gpuTextures s)
          (sharedBuffers s) (sharedTextures s) v (submitted s).

Definition with_submitted (v : list (list DrawCall)) (s : State) : State :=
  mkState (bufferDescriptors s) (textureDescriptors s) (gpuBuffers s) (gpuTextures s)
          (sharedBuffers s) (sharedTextures s) (drawParameters s) v.

(** ** The state-and-exception monad *)

Definition M (A : Type) : Type := State → Completion (A * State).

Definition ret {A} (a : A) : M A := λ s, Normal (a, s).

Definition bind {A B} (m : M A) (k : A → M B) : M B :=
  λ s, match m s with
       | Normal (a, s') => k a s'
       | Throw e => Throw e
       end.

Definition throw {A} (e : JsError) : M A := λ _, Throw e.

Definition gets {A} (f : State → A) : M A := λ s, Normal (f s, s).

Definition modify (f : State → State) : M unit := λ s, Normal (tt, f s).

Notation "'let!' x := m 'in' k" := (bind m (λ x, k))
  (at level 10, x binder, k at level 200).
Notation "m ;;; k" := (bind m (λ _, k))
  (at level 100, right associativity).

(** ** Operations of the GPU device *)

(** [device.createBuffer(descriptor)]: reads the descriptor object and
    returns a fresh live buffer. *)
Definition device_createBuffer (descriptor : nat) : M nat :=
  let! d := gets (λ s, bufferDescriptors s !! descriptor) in
  match d with
  | None => throw TypeError
  | Some d =>
      let! handle := gets (λ s, length (gpuBuffers s)) in
      modify (λ s, with_gpuBuffers
        (gpuBuffers s ++ [mkBuffer (bd_size d) (bd_usage d) (bd_label d) false []]) s) ;;;
      ret handle
  end.

(** [device.createTexture(descriptor)]. *)
Definition device_createTexture (descriptor : nat) : M nat :=
  let! d := gets (λ s, textureDescriptors s !! descriptor) in
  match d with
  | None => throw TypeError
  | Some d =>
      let! handle := gets (λ s, length (gpuTextures s)) in
      modify (λ s, with_gpuTextures (gpuTextures s ++ [mkTexture d false]) s) ;;;
      ret handle
  end.

Definition destroy_buffer (b : GPUBuffer) : GPUBuffer :=
  mkBuffer (buf_size b) (buf_usage b) (buf_label b) true (buf_data b).

Definition destroy_texture (t : GPUTexture) : GPUTexture :=
  mkTexture (tex_descriptor t) true.

(** [buffer.destroy()]. *)
Definition GPUBuffer_destroy (buffer : nat) : M unit :=
  modify (λ s, with_gpuBuffers (alter destroy_buffer buffer (gpuBuffers s)) s).

(** [texture.destroy()]. *)
Definition GPUTexture_destroy (texture : nat) : M unit :=
  modify (λ s, with_gpuTextures (alter destroy_texture texture (gpuTextures s)) s).

(** [device.queue.writeBuffer(buffer, 0, data)]: the words of [data]
    replace the first words of the buffer. *)
Definition write_words (data : list Z) (b : GPUBuffer) : GPUBuffer :=
  mkBuffer (buf_size b) (buf_usage b) (buf_label b) (buf_destroyed b)
           (data ++ drop (length data) (buf_data b)).

Definition queue_writeBuffer (buffer : nat) (data : list Z) : M unit :=
  modify (λ s, with_gpuBuffers (alter (write_words data) buffer (gpuBuffers s)) s).

(** ** The [WebGPU] class: the resource registry *)

(** An object literal [{ size, usage }] evaluated by a caller: a fresh
    descriptor object on the heap. *)
Definition new_bufferDescriptor (d : GPUBufferDescriptor) : M nat :=
  let! r := gets (λ s, length (bufferDescriptors s)) in
  modify (λ s, with_bufferDescriptors (bufferDescriptors s ++ [d]) s) ;;;
  ret r.

Definition new_textureDescriptor (d : GPUTextureDescriptor) : M nat :=
  let! r := gets (λ s, length (textureDescriptors s)) in
  modify (λ s, with_textureDescriptors (textureDescriptors s ++ [d]) s) ;;;
  ret r.

Definition set_bd_label (label : string) (d : GPUBufferDescriptor) : GPUBufferDescriptor :=
  mkBufferDescriptor (bd_size d) (bd_usage d) (Some label).

Definition set_td_label (label : string) (d : GPUTextureDescriptor) : GPUTextureDescriptor :=
  mkTextureDescriptor (td_width d) (td_height d) (td_format d) (td_usage d)
                      (td_sampleCount d) (Some label).

(** [descriptor.label = label] on a buffer descriptor. *)
Definition assign_bufferDescriptor_label (descriptor : nat) (label : string) : M unit :=
  let! d := gets (λ s, bufferDescriptors s !! descriptor) in
  match d with
  | None => throw TypeError
  | Some _ =>
      modify (λ s, with_bufferDescriptors
        (alter (set_bd_label label) descriptor (bufferDescriptors s)) s)
  end.

(** [descriptor.label = label] on a texture descriptor. *)
Definition assign_textureDescriptor_label (descriptor : nat) (label : string) : M unit :=
  let! d := gets (λ s, textureDescriptors s !! descriptor) in
  match d with
  | None => throw TypeError
  | Some _ =>
      modify (λ s, with_textureDescriptors
        (alter (set_td_label label) descriptor (textureDescriptors s)) s)
  end.

(** [WebGPU.createBuffer(descriptor, label)]. *)
Definition createBuffer (descriptor : nat) (label : string) : M nat :=
  assign_bufferDescriptor_label descriptor label ;;;
  let! buffer := device_createBuffer descriptor in
  let! old := gets (λ s, sharedBuffers s !! label) in
  match old with
  | Some b => GPUBuffer_destroy b
  | None => ret tt
  end ;;;
  modify (λ s, with_sharedBuffers (<[label := buffer]> (sharedBuffers s)) s) ;;;
  ret buffer.

(** [WebGPU.destroyBuffer(label)].  The first statement,
    [this.sharedBuffers.get(label)?.destroy;], reads the [destroy] property
    and does not call it: it has no effect. *)
Definition destroyBuffer (label : string) : M unit :=
  let! old := gets (λ s, sharedBuffers s !! label) in
  match old with
  | Some _ => ret tt
  | None => ret tt
  end ;;;
  modify (λ s, with_sharedBuffers (delete label (sharedBuffers s)) s).

(** [WebGPU.getBuffer(label)]. *)
Definition getBuffer (label : string) : M nat :=
  let! buffer := gets (λ s, sharedBuffers s !! label) in
  match buffer with
  | Some b => ret b
  | None => throw (Error ("There is no buffer with the label: " +:+ label))
  end.

(** [WebGPU.createTexture(descriptor, label)]. *)
Definition createTexture (descriptor : nat) (label : string) : M nat :=
  assign_textureDescriptor_label descriptor label ;;;
  let! texture := device_createTexture descriptor in
  let! old := gets (λ s, sharedTextures s !! label) in
  match old with
  | Some t => GPUTexture_destroy t
  | None => ret tt
  end ;;;
  modify (λ s, with_sharedTextures (<[label := texture]> (sharedTextures s)) s) ;;;
  ret texture.

(** [WebGPU.destroyTexture(label)]. *)
Definition destroyTexture (label : string) : M unit :=
  let! old := gets (λ s, sharedTextures s !! label) in
  match old with
  | Some t => GPUTexture_destroy t
  | None => ret tt
  end ;;;
  modify (λ s, with_sharedTextures (delete label (sharedTextures s)) s).

(** [WebGPU.getTexture(label)]. *)
Definition getTexture (label : string) : M nat :=
  let! texture := gets (λ s, sharedTextures s !! label) in
  match texture with
  | Some t => ret t
  | None => throw (Error ("There is no texture with the label: " +:+ label))
  end.

(** ** Typed arrays *)

(** Exceptions without state, for the array computations of the batcher. *)
Definition cbind {A B} (c : Completion A) (k : A → Completion B) : Completion B :=
  match c with
  | Normal a => k a
  | Throw e => Throw e
  end.

Notation "'let?' x := c 'in' k" := (cbind c (λ x, k))
  (at level 10, x binder, k at level 200).

Definition lift {A} (c : Completion A) : M A :=
  λ s, match c with
       | Normal a => Normal (a, s)
       | Throw e => Throw e
       end.

(** A [Float32Array] or [Uint32Array] is the list of its elements, each a
    32-bit word: an unsigned integer for [Uint32Array], the binary32 bit
    pattern for [Float32Array] (the batcher copies floats and never computes
    with them; the mesh arrays and world transforms are taken as
    [Float32Array]s, so that copying them keeps every word). *)
Definition to_uint32 (x : Z) : Z := x mod 2 ^ 32.

(** [new Float32Array(n)], [new Uint32Array(n)]: [n] zero elements. *)
Definition new_array (n : Z) : list Z := replicate (Z.to_nat n) 0.

Definition byteLength (a : list Z) : Z := 4 * Z.of_nat (length a).

(** [target.set(source, offset)]: a [RangeError] when the source does not
    fit at [offset], otherwise the elements of the source overwrite
    [target[offset ..]]. *)
Definition typed_set (target source : list Z) (offset : Z) : Completion (list Z) :=
  if bool_decide (offset < 0 ∨ Z.of_nat (length target) < offset + Z.of_nat (length source))
  then Throw RangeError
  else Normal (take (Z.to_nat offset) target ++ source
               ++ drop (Z.to_nat offset + length source) target).

(** [set] on a [Uint32Array]: every stored number goes through ToUint32. *)
Definition uint32_set (target source : list Z) (offset : Z) : Completion (list Z) :=
  typed_set target (to_uint32 <$> source) offset.

(** ** Scene, entities, meshes *)

(** A [TriangleMesh] object.  The batcher keys a JavaScript [Map] by the
    mesh object, that is by object identity: [mesh_ref] is that identity. *)
Record TriangleMesh : Type := mkMesh {
  mesh_ref : nat;
  vertexBuffer : list Z;
  elementBuffer : list Z
}.

(** A scene entity: a [MeshInstance] (with [object.mesh] and the result of
    [object.getWorldTransform()]) or any other entity. *)
Inductive Entity : Type :=
  | MeshInstance (id : Z) (mesh : TriangleMesh) (worldTransform : list Z)
  | OtherEntity (id : Z).

(** Modelled from the spec: [Scene.getId] is not part of the sources at
    hand; the entity collaborator contract gives every entity "a
    scene-unique non-negative integer id stable for the duration of the
    frame", which the entity carries here. *)
Definition getId (object : Entity) : Z :=
  match object with
  | MeshInstance id _ _ => id
  | OtherEntity id => id
  end.

(** [Scene.entities : Map<String, Entity>], in insertion order. *)
Record Scene : Type := mkScene {
  entities : list (string * Entity)
}.

Record Viewport : Type := mkViewport {
  scene : Scene;
  width : Z;
  height : Z
}.

(** ** Instance groups: [Map<TriangleMesh, { count, ids }>] *)

Record InstanceGroup : Type := mkGroup {
  count : Z;
  ids : list Z
}.

(** The map keeps insertion order, which [forEach] follows. *)
Definition Instances : Type := list (TriangleMesh * InstanceGroup).

Fixpoint instances_get (mesh : TriangleMesh) (m : Instances) : option InstanceGroup :=
  match m with
  | [] => None
  | (k, v) :: m' =>
      if bool_decide (mesh_ref k = mesh_ref mesh) then Some v else instances_get mesh m'
  end.

Fixpoint instances_set (mesh : TriangleMesh) (value : InstanceGroup) (m : Instances) : Instances :=
  match m with
  | [] => [(mesh, value)]
  | (k, v) :: m' =>
      if bool_decide (mesh_ref k = mesh_ref mesh) then (k, value) :: m'
      else (k, v) :: instances_set mesh value m'
  end.

(** [count.count++] on the object stored under [mesh]: the object is shared
    with the map, so the map entry changes. *)
Fixpoint instances_increment (mesh : TriangleMesh) (m : Instances) : Instances :=
  match m with
  | [] => []
  | (k, v) :: m' =>
      if bool_decide (mesh_ref k = mesh_ref mesh)
      then (k, mkGroup (count v + 1) (ids v)) :: m'
      else (k, v) :: instances_increment mesh m'
  end.

(** [forEach] with a callback that may throw. *)
Fixpoint forEach {A S} (f : S → A → Completion S) (l : list A) (acc : S) : Completion S :=
  match l with
  | [] => Normal acc
  | x :: l' => let? acc' := f acc x in forEach f l' acc'
  end.

(** ** [TrianglePass.createMeshBuffer]: the geometry batcher *)

(** The variables the first loop updates. *)
Record Scan : Type := mkScan {
  vertexSize : Z;
  indexSize : Z;
  transformArray : list Z;
  instances : Instances
}.

(** The callback of [scene.entities.forEach]. *)
Definition scan_entity (acc : Scan) (entry : string * Entity) : Completion Scan :=
  match entry.2 with
  | OtherEntity _ => Normal acc
  | MeshInstance id mesh worldTransform =>
      let count := instances_get mesh (instances acc) in
      let? transformArray' := typed_set (transformArray acc) worldTransform id in
      match count with
      | None =>
          Normal (mkScan (vertexSize acc + Z.of_nat (length (vertexBuffer mesh)))
                         (indexSize acc + Z.of_nat (length (elementBuffer mesh)))
                         transformArray'
                         (instances_set mesh (mkGroup 1 [id]) (instances acc)))
      | Some _ =>
          Normal (mkScan (vertexSize acc) (indexSize acc) transformArray'
                         (instances_increment mesh (instances acc)))
      end
  end.

(** The variables the second loop updates. *)
Record Fill : Type := mkFill {
  vertexArray : list Z;
  indexArray : list Z;
  idArray : list Z;
  drawTable : list Z;
  vertexOffset : Z;
  indexOffset : Z;
  objectOffset : Z
}.

(** The callback of [instances.forEach]. *)
Definition fill_group (acc : Fill) (entry : TriangleMesh * InstanceGroup) : Completion Fill :=
  let '(mesh, value) := entry in
  let? vertexArray' := typed_set (vertexArray acc) (vertexBuffer mesh) (vertexOffset acc) in
  let? indexArray' := uint32_set (indexArray acc) (elementBuffer mesh) (indexOffset acc) in
  let? idArray' := uint32_set (idArray acc) (ids value) (objectOffset acc) in
  let? drawTable' := uint32_set (drawTable acc)
      [ Z.of_nat (length (vertexBuffer mesh));
        count value;
        indexOffset acc;
        0;
        objectOffset acc ] 0 in
  Normal (mkFill vertexArray' indexArray' idArray' drawTable'
                 (vertexOffset acc + Z.of_nat (length (vertexBuffer mesh)))
                 (indexOffset acc + Z.of_nat (length (elementBuffer mesh)))
                 (objectOffset acc + count value)).

(** The arrays of one frame. *)
Record Batch : Type := mkBatch {
  batch_vertexArray : list Z;
  batch_indexArray : list Z;
  batch_transformArray : list Z;
  batch_idArray : list Z;
  batch_drawParameters : list Z
}.

(** Lines 109-166 of [createMeshBuffer]: everything before the buffers are
    created. *)
Definition build_arrays (scene : Scene) : Completion Batch :=
  let size := Z.of_nat (length (entities scene)) in
  let? scan := forEach scan_entity (entities scene)
                 (mkScan 0 0 (new_array (size * 16)) []) in
  let? fill := forEach fill_group (instances scan)
                 (mkFill (new_array (vertexSize scan))
                         (new_array (indexSize scan))
                         (new_array size)
                         (new_array (Z.of_nat (length (instances scan)) * 5))
                         0 0 0) in
  Normal (mkBatch (vertexArray fill) (indexArray fill) (transformArray scan)
                  (idArray fill) (drawTable fill)).

(** [GPUBufferUsage] and [GPUTextureUsage] flags. *)
Definition COPY_DST : Z := 8.
Definition INDEX : Z := 16.
Definition VERTEX : Z := 32.
Definition STORAGE : Z := 128.
Definition RENDER_ATTACHMENT : Z := 16.

Section Pass.

(** [WebGPU.minBuffersize], the configured minimum allocation; the
    constant is not among the sources at hand. *)
Variable minBuffersize : Z.

(** Modelled from the spec: the [Renderer] base class is not part of the
    sources at hand; it "exclusively owns its Resource Registry", so
    [this.renderer.createBuffer], [getBuffer] and [getTexture] are the
    registry operations above. *)
Definition renderer_createBuffer (d : GPUBufferDescriptor) (label : string) : M nat :=
  let! descriptor := new_bufferDescriptor d in
  createBuffer descriptor label.

Definition createMeshBuffer (viewport : Viewport) : M unit :=
  let! batch := lift (build_arrays (scene viewport)) in
  let min := minBuffersize in
  let! vertexBuffer := renderer_createBuffer
    (mkBufferDescriptor (Z.max (byteLength (batch_vertexArray batch)) min)
                        (Z.lor COPY_DST VERTEX) None) "vertex" in
  let! indexBuffer := renderer_createBuffer
    (mkBufferDescriptor (Z.max (byteLength (batch_indexArray batch)) min)
                        (Z.lor COPY_DST INDEX) None) "index" in
  let! transformBuffer := renderer_createBuffer
    (mkBufferDescriptor (Z.max (byteLength (batch_transformArray batch)) min)
                        (Z.lor COPY_DST STORAGE) None) "transform" in
  let! objectIndexBuffer := renderer_createBuffer
    (mkBufferDescriptor (Z.max (byteLength (batch_idArray batch)) min)
                        (Z.lor COPY_DST STORAGE) None) "object-index" in
  queue_writeBuffer vertexBuffer (batch_vertexArray batch) ;;;
  queue_writeBuffer indexBuffer (batch_indexArray batch) ;;;
  queue_writeBuffer transformBuffer (batch_drawParameters batch) ;;;
  queue_writeBuffer objectIndexBuffer (batch_idArray batch) ;;;
  modify (with_drawParameters (batch_drawParameters batch)).

(** The draw loop of [render]:
    [for (let i = 0; i < this.drawParameters.length; i += 5)]; at most
    [length table] iterations are needed, [fuel] counts them. *)
Fixpoint draw_loop (fuel : nat) (i : nat) (table : list Z) : list DrawCall :=
  match fuel with
  | O => []
  | S fuel' =>
      if bool_decide (i < length table)%nat
      then mkDraw (table !! i) (table !! (i + 1)%nat) (table !! (i + 2)%nat)
                  (table !! (i + 3)%nat) (table !! (i + 4)%nat)
           :: draw_loop fuel' (i + 5) table
      else []
  end.

Definition multisampled (viewport : Viewport) (format label : string) : GPUTextureDescriptor :=
  mkTextureDescriptor (width viewport) (height viewport) format RENDER_ATTACHMENT
                      (Some 4) (Some label).

(** [TrianglePass.render].  The bind group, the render-pass descriptor, the
    shader module and the pipeline are built from the handles fetched
    here and are not kept after the frame; of the command encoder the
    model keeps the draw calls it records. *)
Definition render (viewport : Viewport) : M unit :=
  createMeshBuffer viewport ;;;
  let! colorTexture := getTexture "color" in
  let! depthTexture := getTexture "depth" in
  let! objectIndexTexture := getTexture "object-index" in
  let! normalTexture := getTexture "normal" in
  let! objectIndexBuffer := getBuffer "object-index" in
  let! cameraUniformBuffer := getBuffer "camera" in
  let! vertexBuffer := getBuffer "vertex" in
  let! indexBuffer := getBuffer "index" in
  let! transformBuffer := getBuffer "transform" in
  let! d1 := new_textureDescriptor (multisampled viewport "rgba8unorm" "multisample-color") in
  let! multisampledColorTexture := device_createTexture d1 in
  let! d2 := new_textureDescriptor (multisampled viewport "depth24plus-stencil8" "multisample-depth") in
  let! multisampledDepthTexture := device_createTexture d2 in
  let! d3 := new_textureDescriptor (multisampled viewport "rgba8unorm" "multisample-normal") in
  let! multisampledNormalTexture := device_createTexture d3 in
  let! table := gets drawParameters in
  modify (λ s, with_submitted (submitted s ++ [draw_loop (length table) 0 table]) s) ;;;
  GPUTexture_destroy multisampledColorTexture ;;;
  GPUTexture_destroy multisampledDepthTexture ;;;
  GPUTexture_destroy multisampledNormalTexture.

End Pass.

(** ** Sequences of registry calls *)

(** A call a client makes on the registry.  A [Create*] call stands for the
    usual call with an object literal as descriptor. *)
Inductive RegistryCall : Type :=
  | CreateBuffer (d : GPUBufferDescriptor) (label : string)
  | CreateTexture (d : GPUTextureDescriptor) (label : string)
  | DestroyBuffer (label : string)
  | DestroyTexture (label : string).

Definition perform (c : RegistryCall) : M unit :=
  match c with
  | CreateBuffer d label =>
      let! descriptor := new_bufferDescriptor d in
      createBuffer descriptor label ;;; ret tt
  | CreateTexture d label =>
      let! descriptor := new_textureDescriptor d in
      createTexture descriptor label ;;; ret tt
  | DestroyBuffer label => destroyBuffer label
  | DestroyTexture label => destroyTexture label
  end.

Fixpoint perform_all (calls : list RegistryCall) : M unit :=
  match calls with
  | [] => ret tt
  | c :: calls' => perform c ;;; perform_all calls'
  end.

Definition is_create (c : RegistryCall) : bool :=
  match c with
  | CreateBuffer _ _ | CreateTexture _ _ => true
  | DestroyBuffer _ | DestroyTexture _ => false
  end.

(** The labels of the buffers (textures) created by a call sequence, in
    creation order: the [n]-th one is the label of the device object with
    handle [n] when the sequence starts from [initial]. *)
Definition buffer_labels (calls : list RegistryCall) : list string :=
  omap (λ c, match c with CreateBuffer _ l => Some l | _ => None end) calls.

Definition texture_labels (calls : list RegistryCall) : list string :=
  omap (λ c, match c with CreateTexture _ l => Some l | _ => None end) calls.

(** [h] is the position of the last occurrence of [label]: the most recent
    creation under that label. *)
Definition most_recent (labels : list string) (label : string) (h : nat) : Prop :=
  labels !! h = Some label ∧ ∀ j, (h < j)%nat → labels !! j ≠ Some label.

(** Whether a buffer (texture) entry for [label] is expected after the
    calls: the last call on that label and kind was a creation. *)
Fixpoint buffer_expected (label : string) (calls : list RegistryCall) (before : bool) : bool :=
  match calls with
  | [] => before
  | CreateBuffer _ l :: calls' =>
      buffer_expected label calls' (if bool_decide (l = label) then true else before)
  | DestroyBuffer l :: calls' =>
      buffer_expected label calls' (if bool_decide (l = label) then false else before)
  | _ :: calls' => buffer_expected label calls' before
  end.

Fixpoint texture_expected (label : string) (calls : list RegistryCall) (before : bool) : bool :=
  match calls with
  | [] => before
  | CreateTexture _ l :: calls' =>
      texture_expected label calls' (if bool_decide (l = label) then true else before)
  | DestroyTexture l :: calls' =>
      texture_expected label calls' (if bool_decide (l = label) then false else before)
  | _ :: calls' => texture_expected label calls' before
  end.

(** Live device objects carrying a label. *)
Definition live_buffer (s : State) (label : string) (h : nat) : Prop :=
  ∃ b, gpuBuffers s !! h = Some b ∧ buf_label b = Some label ∧ buf_destroyed b = false.

Definition live_texture (s : State) (label : string) (h : nat) : Prop :=
  ∃ t, gpuTextures s !! h = Some t ∧ td_label (tex_descriptor t) = Some label
       ∧ tex_destroyed t = false.

(** Every registered buffer handle denotes a buffer of the device, and no
    two labels share a buffer. *)
Definition buffer_handles_ok (s : State) : Prop :=
  (∀ label h, sharedBuffers s !! label = Some h → (h < length (gpuBuffers s))%nat) ∧
  (∀ l1 l2 h, sharedBuffers s !! l1 = Some h → sharedBuffers s !! l2 = Some h → l1 = l2).

(** The device objects after the old entry of a label, if any, has been
    destroyed. *)
Definition destroy_old {A} (destroy : A → A) (old : option nat) (l : list A) : list A :=
  match old with
  | Some h => alter destroy h l
  | None => l
  end.

(** A map [m] from labels to handles and the device objects [objs] follow
    the creations [labels]: object [h] carries the [h]-th label, a label is
    mapped to its most recent creation, and exactly the mapped objects are
    not destroyed. *)
Definition tracks {A} (label : A → option string) (destroyed : A → bool)
    (labels : list string) (objs : list A) (m : gmap string nat) : Prop :=
  label <$> objs = Some <$> labels ∧
  (∀ L h, m !! L = Some h ↔ most_recent labels L h) ∧
  (∀ h a, objs !! h = Some a → (destroyed a = false ↔ ∃ L, m !! L = Some h)).

(** ** Concrete inputs *)

(** A label replaced twice, with a texture created in between. *)
Definition resize_twice : list RegistryCall :=
  [ CreateBuffer (mkBufferDescriptor 32 (Z.lor COPY_DST VERTEX) None) "vertex";
    CreateBuffer (mkBufferDescriptor 64 (Z.lor COPY_DST VERTEX) None) "vertex";
    CreateTexture (mkTextureDescriptor 4 4 "rgba8unorm" RENDER_ATTACHMENT None None) "color";
    CreateBuffer (mkBufferDescriptor 128 (Z.lor COPY_DST VERTEX) None) "vertex" ].

(** A buffer and a texture created, then destroyed through the registry. *)
Definition create_destroy_buffer : list RegistryCall :=
  [ CreateBuffer (mkBufferDescriptor 32 (Z.lor COPY_DST VERTEX) None) "vertex";
    DestroyBuffer "vertex" ].

Definition create_destroy_texture : list RegistryCall :=
  [ CreateTexture (mkTextureDescriptor 4 4 "rgba8unorm" RENDER_ATTACHMENT None None) "color";
    DestroyTexture "color" ].


(** The buffer registered under a label, if any. *)
Definition registered_buffer (s : State) (label : string) : option GPUBuffer :=
  match sharedBuffers s !! label with
  | Some h => gpuBuffers s !! h
  | None => None
  end.

(** Bit patterns of the binary32 numbers 1, 2 and 3. *)
Definition f32_1 : Z := 1065353216.
Definition f32_2 : Z := 1073741824.
Definition f32_3 : Z := 1077936128.

(** Column-major translation by [x] along the first axis. *)
Definition translation (x : Z) : list Z :=
  [ f32_1; 0; 0; 0;
    0; f32_1; 0; 0;
    0; 0; f32_1; 0;
    x; 0; 0; f32_1 ].

(** Mesh A: 4 vertices (8 floats each: position, normal, uv), 6 indices.
    Mesh B: 3 vertices, 3 indices. *)
Definition mesh_A : TriangleMesh :=
  mkMesh 0 (replicate 32 f32_1) [0; 1; 2; 0; 2; 3].

Definition mesh_B : TriangleMesh :=
  mkMesh 1 (replicate 24 f32_2) [0; 1; 2].

(** The scenario of the specification: two instances of A, then one of B,
    with ids 0, 1, 2. *)
Definition scene_AAB : Scene :=
  mkScene [ ("a1"%string, MeshInstance 0 mesh_A (translation f32_1));
            ("a2"%string, MeshInstance 1 mesh_A (translation f32_2));
            ("b"%string, MeshInstance 2 mesh_B (translation f32_3)) ].

(** An entity that is no mesh instance (id 0), then one instance of A. *)
Definition scene_light_A : Scene :=
  mkScene [ ("light"%string, OtherEntity 0);
            ("a"%string, MeshInstance 1 mesh_A (translation f32_2)) ].

(** The rows of a draw-parameter table, read as [render] reads them. *)
Definition table_rows (table : list Z) : list DrawCall :=
  draw_loop (length table) 0 table.

Definition instance_count_sum (rows : list DrawCall) : Z :=
  foldr (λ r acc, default 0 (dc_instanceCount r) + acc) 0 rows.

(** The mesh-instance entities of a scene. *)
Definition is_mesh_instance (e : Entity) : bool :=
  match e with
  | MeshInstance _ _ _ => true
  | OtherEntity _ => false
  end.

Definition mesh_instance_count (scene : Scene) : Z :=
  Z.of_nat (length (filter (λ e, is_mesh_instance e.2 = true) (entities scene))).

(** The state at the start of a pass on an otherwise unused registry: the
    renderer has created the four shared textures and the camera buffer. *)
Definition frame_start : State :=
  mkState [] []
    [mkBuffer 144 72 (Some "camera"%string) false []]
    [ mkTexture (mkTextureDescriptor 4 4 "rgba8unorm" 16 None (Some "color"%string)) false;
      mkTexture (mkTextureDescriptor 4 4 "depth24plus-stencil8" 16 None (Some "depth"%string)) false;
      mkTexture (mkTextureDescriptor 4 4 "r32uint" 16 None (Some "object-index"%string)) false;
      mkTexture (mkTextureDescriptor 4 4 "rgba8unorm" 16 None (Some "normal"%string)) false ]
    {[ "camera"%string := 0%nat ]}
    (<["color"%string := 0%nat]> (<["depth"%string := 1%nat]>
       (<["object-index"%string := 2%nat]> {[ "normal"%string := 3%nat ]})))
    [] [].

Definition empty_viewport : Viewport := mkViewport (mkScene []) 4 4.

Definition batch_labels : list string :=
  ["vertex"; "index"; "transform"; "object-index"]%string.

(** ** Measures of a scene and of an instance map *)

(** The identities of the meshes the mesh instances of a scene use, one per
    instance, in scan order. *)
Definition mesh_refs (scene : Scene) : list nat :=
  omap (λ e, match e.2 with
             | MeshInstance _ mesh _ => Some (mesh_ref mesh)
             | OtherEntity _ => None
             end) (entities scene).

(** The number of distinct meshes a scene references. *)
Definition distinct_mesh_count (scene : Scene) : nat :=
  length (remove_dups (mesh_refs scene)).

Definition group_keys (m : Instances) : list nat := (λ g, mesh_ref g.1) <$> m.

Definition count_total (m : Instances) : Z :=
  foldr (λ g acc, count g.2 + acc) 0 m.

Definition vertex_total (m : Instances) : Z :=
  foldr (λ g acc, Z.of_nat (length (vertexBuffer g.1)) + acc) 0 m.

Definition index_total (m : Instances) : Z :=
  foldr (λ g acc, Z.of_nat (length (elementBuffer g.1)) + acc) 0 m.

(** A mesh instance whose id addresses a slot of the per-entity arrays and
    whose world transform is a 4x4 matrix. *)
Definition entity_in_range (size : nat) (e : Entity) : Prop :=
  match e with
  | MeshInstance id _ worldTransform =>
      0 ≤ id < Z.of_nat size ∧ length worldTransform = 16%nat
  | OtherEntity _ => True
  end.

(** What the first loop maintains: one group per mesh, the two size
    counters are the totals over the groups, and every group has a positive
    count and an id list of one element (the id of its first instance). *)
Definition groups_ok (m : Instances) : Prop :=
  Forall (λ g, length (ids g.2) = 1%nat ∧ 1 ≤ count g.2) m.

Definition scan_ok (acc : Scan) : Prop :=
  NoDup (group_keys (instances acc))
  ∧ vertexSize acc = vertex_total (instances acc)
  ∧ indexSize acc = index_total (instances acc)
  ∧ groups_ok (instances acc).

(** ** Well-formed registries *)

(** The texture registered under a label, if any. *)
Definition registered_texture (s : State) (label : string) : option GPUTexture :=
  match sharedTextures s !! label with
  | Some h => gpuTextures s !! h
  | None => None
  end.

(** Every handle the map holds denotes an object that carries the label it
    is filed under and has not been destroyed. *)
Definition sound_map {A} (label : A → option string) (destroyed : A → bool)
    (objs : list A) (m : gmap string nat) : Prop :=
  ∀ L h, m !! L = Some h →
    ∃ a, objs !! h = Some a ∧ label a = Some L ∧ destroyed a = false.

(** Every object carries a label, and one that has not been destroyed is
    the object the map holds for its label. *)
Definition accounted {A} (label : A → option string) (destroyed : A → bool)
    (objs : list A) (m : gmap string nat) : Prop :=
  ∀ h a, objs !! h = Some a →
    ∃ L, label a = Some L ∧ (destroyed a = false → m !! L = Some h).

Definition registry_sound (s : State) : Prop :=
  sound_map buf_label buf_destroyed (gpuBuffers s) (sharedBuffers s)
  ∧ sound_map (λ t, td_label (tex_descriptor t)) tex_destroyed
              (gpuTextures s) (sharedTextures s).

Definition textures_accounted (s : State) : Prop :=
  accounted (λ t, td_label (tex_descriptor t)) tex_destroyed
            (gpuTextures s) (sharedTextures s).

(** The state a call sequence leaves, started on a fresh registry. *)
Definition state_after (calls : list RegistryCall) : State :=
  match perform_all calls initial with
  | Normal (_, s) => s
  | Throw _ => initial
  end.

(** What a renderer sets up before its passes run: the camera buffer and
    the four shared textures. *)
Definition frame_calls : list RegistryCall :=
  [ CreateBuffer (mkBufferDescriptor 144 72 None) "camera";
    CreateTexture (mkTextureDescriptor 4 4 "rgba8unorm" 29 None None) "color";
    CreateTexture (mkTextureDescriptor 4 4 "depth24plus-stencil8" 20 None None) "depth";
    CreateTexture (mkTextureDescriptor 4 4 "r32uint" 28 None None) "object-index";
    CreateTexture (mkTextureDescriptor 4 4 "rgba8unorm" 28 None None) "normal" ].

(** One entity, a mesh instance whose id (5) is not below the entity
    count. *)
Definition scene_sparse_id : Scene :=
  mkScene [ ("a"%string, MeshInstance 5 mesh_A (translation f32_1)) ].

(** ** Rows of the draw-parameter table *)

Definition row_entries (r : Z * Z * Z * Z * Z) : list Z :=
  let '(a, b, c, d, e) := r in [a; b; c; d; e].

Definition row_draw (r : Z * Z * Z * Z * Z) : DrawCall :=
  let '(a, b, c, d, e) := r in mkDraw (Some a) (Some b) (Some c) (Some d) (Some e).

(** ** The batcher, described by the scene *)

(** The distinct meshes of an entity list in first-encounter order; [seen]
    holds the identities of meshes met before. *)
Fixpoint first_meshes (seen : list nat) (l : list (string * Entity)) : list TriangleMesh :=
  match l with
  | [] => []
  | e :: l' =>
      match e.2 with
      | MeshInstance _ mesh _ =>
          if bool_decide (mesh_ref mesh ∈ seen) then first_meshes seen l'
          else mesh :: first_meshes (seen ++ [mesh_ref mesh]) l'
      | OtherEntity _ => first_meshes seen l'
      end
  end.

Definition distinct_meshes (scene : Scene) : list TriangleMesh :=
  first_meshes [] (entities scene).

(** Whether an entity is an instance of (the mesh object of) [mesh]. *)
Definition uses (mesh : TriangleMesh) (e : string * Entity) : bool :=
  match e.2 with
  | MeshInstance _ m _ => bool_decide (mesh_ref m = mesh_ref mesh)
  | OtherEntity _ => false
  end.

(** The number of instances of a mesh, and the id of the first one (a list
    of one id, empty when the mesh has no instance). *)
Definition instances_of (mesh : TriangleMesh) (l : list (string * Entity)) : Z :=
  Z.of_nat (length (filter (λ e, uses mesh e = true) l)).

Definition first_id (mesh : TriangleMesh) (l : list (string * Entity)) : list Z :=
  match filter (λ e, uses mesh e = true) l with
  | e :: _ => [getId e.2]
  | [] => []
  end.

(** The group the first loop builds for a mesh. *)
Definition group_of (l : list (string * Entity)) (mesh : TriangleMesh) : InstanceGroup :=
  mkGroup (instances_of mesh l) (first_id mesh l).

(** The first loop of [createMeshBuffer] (lines 115-137) on its own. *)
Definition scan_scene (scene : Scene) : Completion Scan :=
  forEach scan_entity (entities scene)
    (mkScan 0 0 (new_array (Z.of_nat (length (entities scene)) * 16)) []).

(** The slots the second loop gives a group in the object-index array: the
    ids it holds, then the slots it skips. *)
Definition id_slots (ids : list Z) (count : Z) : list Z :=
  (to_uint32 <$> ids) ++ replicate (Z.to_nat count - length ids) 0.

(** The number of instances of the meshes of a list, added up. *)
Definition instances_of_all (l : list (string * Entity)) (meshes : list TriangleMesh) : Z :=
  foldr (λ mesh acc, instances_of mesh l + acc) 0 meshes.

(** ** What a pass leaves behind *)

Definition buffer_destroyed (s : State) (h : nat) : Prop :=
  ∃ b, gpuBuffers s !! h = Some b ∧ buf_destroyed b = true.

Definition texture_destroyed (s : State) (h : nat) : Prop :=
  ∃ t, gpuTextures s !! h = Some t ∧ tex_destroyed t = true.

(** A step of the batcher touches buffers only, and never revives one. *)
Definition buffers_step (s s' : State) : Prop :=
  gpuTextures s' = gpuTextures s
  ∧ sharedTextures s' = sharedTextures s
  ∧ submitted s' = submitted s
  ∧ (∀ h, buffer_destroyed s h → buffer_destroyed s' h).

(** ** [BasicRenderer.render]: the shared textures of a frame *)

Definition COPY_SRC : Z := 1.
Definition TEXTURE_BINDING : Z := 4.
Definition STORAGE_BINDING : Z := 8.

(** [this.createTexture({...}, label)] with an object literal (see
    [renderer_createBuffer] for the renderer's methods). *)
Definition renderer_createTexture (d : GPUTextureDescriptor) (label : string) : M nat :=
  let! descriptor := new_textureDescriptor d in
  createTexture descriptor label.

(** Lines 34-58 of [BasicRenderer.render]: the four [createTexture] calls
    that open a frame, before the camera data is updated and the passes
    run. *)
Definition BasicRenderer_render_textures (viewport : Viewport) : M unit :=
  renderer_createTexture
    (mkTextureDescriptor (width viewport) (height viewport) "rgba8unorm"
       (Z.lor (Z.lor (Z.lor RENDER_ATTACHMENT STORAGE_BINDING) TEXTURE_BINDING) COPY_SRC)
       None None) "color" ;;;
  renderer_createTexture
    (mkTextureDescriptor (width viewport) (height viewport) "depth24plus-stencil8"
       (Z.lor RENDER_ATTACHMENT TEXTURE_BINDING) None None) "depth" ;;;
  renderer_createTexture
    (mkTextureDescriptor (width viewport) (height viewport) "r32uint"
       (Z.lor (Z.lor RENDER_ATTACHMENT STORAGE_BINDING) TEXTURE_BINDING)
       None None) "object-index" ;;;
  renderer_createTexture
    (mkTextureDescriptor (width viewport) (height viewport) "rgba8unorm"
       (Z.lor (Z.lor RENDER_ATTACHMENT STORAGE_BINDING) TEXTURE_BINDING)
       None None) "normal" ;;;
  ret tt.

Definition shared_texture_labels : list string :=
  ["color"; "depth"; "object-index"; "normal"]%string.

(** A step that touches textures only, and never revives one. *)
Definition textures_step (s s' : State) : Prop :=
  gpuBuffers s' = gpuBuffers s
  ∧ sharedBuffers s' = sharedBuffers s
  ∧ drawParameters s' = drawParameters s
  ∧ submitted s' = submitted s
  ∧ (∀ h, texture_destroyed s h → texture_destroyed s' h).

(** ** [WebGPU.init] *)

(** What [init] finds in the browser: whether [navigator.gpu] is defined,
    and what awaiting [navigator.gpu.requestAdapter()] and
    [adapter.requestDevice()] gives, a value ([None] for [null]) or a
    rejection.  [init] awaits the two promises one after the other, so its
    outcome is a function of these. *)
Record Navigator : Type := mkNavigator {
  nav_gpu : bool;
  nav_requestAdapter : Completion (option nat);
  nav_requestDevice : Completion (option nat)
}.

(** The fields of the [WebGPU] instance after [init], and what was written
    to [console.error]. *)
Record Instance : Type := mkInstance {
  inst_adapter : option nat;
  inst_device : option nat;
  inst_sharedBuffers : gmap string nat;
  inst_sharedTextures : gmap string nat;
  inst_console : list JsError
}.

(** The [try] block of [init]: the adapter and device it has assigned when
    it ends, and the error it ends with, if any. *)
Definition init_try (nav : Navigator) : option nat * option nat * option JsError :=
  match nav_requestAdapter nav with
  | Throw e => (None, None, Some e)
  | Normal None => (None, None, Some (Error "No appropriate GPUAdapter found."))
  | Normal (Some adapter) =>
      match nav_requestDevice nav with
      | Throw e => (Some adapter, None, Some e)
      | Normal None =>
          (Some adapter, None, Some (Error "No appropriate GPUDevice found."))
      | Normal (Some device) => (Some adapter, Some device, None)
      end
  end.

(** [WebGPU.init()]. *)
Definition init (nav : Navigator) : Completion Instance :=
  if negb (nav_gpu nav)
  then Throw (Error "WebGPU not supported on this browser.")
  else
    let '(adapter, device, error) := init_try nav in
    Normal (mkInstance adapter device ∅ ∅
              (match error with Some e => [e] | None => [] end)).

(** [WebGPU.getDevice()]. *)
Definition getDevice (i : Instance) : option nat := inst_device i.

(** [WebGPU.getAdapter()]. *)
Definition getAdapter (i : Instance) : option nat := inst_adapter i.

(** ** One label, several live resources *)

(** [createBuffer] in two parts: its first two statements, after which the
    new GPU buffer exists and nothing else has happened yet (lines 180-181),
    and the rest (lines 182-184). *)
Definition createBuffer_until_created (descriptor : nat) (label : string) : M nat :=
  assign_bufferDescriptor_label descriptor label ;;;
  device_createBuffer descriptor.

Definition createBuffer_from_created (label : string) (buffer : nat) : M nat :=
  let! old := gets (λ s, sharedBuffers s !! label) in
  match old with
  | Some b => GPUBuffer_destroy b
  | None => ret tt
  end ;;;
  modify (λ s, with_sharedBuffers (<[label := buffer]> (sharedBuffers s)) s) ;;;
  ret buffer.

(** The number of live GPU resources, buffers and textures together, that
    carry a label. *)
Definition live_count (s : State) (label : string) : nat :=
  (length (filter (λ b, buf_label b = Some label ∧ buf_destroyed b = false)
                  (gpuBuffers s))
   + length (filter (λ t, td_label (tex_descriptor t) = Some label
                          ∧ tex_destroyed t = false)
                    (gpuTextures s)))%nat.

(** What every frame does: the geometry pass creates the buffer
    "object-index" and the renderer the texture "object-index". *)
Definition share_object_index : list RegistryCall :=
  [ CreateBuffer (mkBufferDescriptor 32 (Z.lor COPY_DST STORAGE) None) "object-index";
    CreateTexture (mkTextureDescriptor 4 4 "r32uint" 28 None None) "object-index" ].

(** A buffer is created under "vertex"; a second [createBuffer] under
    "vertex" has run up to the creation of its GPU buffer. *)
Definition replace_vertex_midway : M nat :=
  perform (CreateBuffer (mkBufferDescriptor 32 (Z.lor COPY_DST VERTEX) None) "vertex") ;;;
  let! descriptor :=
    new_bufferDescriptor (mkBufferDescriptor 64 (Z.lor COPY_DST VERTEX) None) in
  createBuffer_until_created descriptor "vertex".
(** * Properties *)

(** ** What one registry operation does *)

Lemma createBuffer_eq s descriptor d label :
  bufferDescriptors s !! descriptor = Some d →
  createBuffer descriptor label s =
    Normal (length (gpuBuffers s),
      mkState (alter (set_bd_label label) descriptor (bufferDescriptors s))
              (textureDescriptors s)
              (destroy_old destroy_buffer (sharedBuffers s !! label)
                 (gpuBuffers s ++ [mkBuffer (bd_size d) (bd_usage d) (Some label) false []]))
              (gpuTextures s)
              (<[label := length (gpuBuffers s)]> (sharedBuffers s))
              (sharedTextures s) (drawParameters s) (submitted s)).
Proof.
  intros Hd.
  unfold createBuffer, assign_bufferDescriptor_label, device_createBuffer, bind, gets.
  rewrite Hd. cbn.
  rewrite list_lookup_alter_eq, Hd. cbn.
  destruct (sharedBuffers s !! label); reflexivity.
Qed.

Lemma createTexture_eq s descriptor d label :
  textureDescriptors s !! descriptor = Some d →
  createTexture descriptor label s =
    Normal (length (gpuTextures s),
      mkState (bufferDescriptors s)
              (alter (set_td_label label) descriptor (textureDescriptors s))
              (gpuBuffers s)
              (destroy_old destroy_texture (sharedTextures s !! label)
                 (gpuTextures s ++ [mkTexture (set_td_label label d) false]))
              (sharedBuffers s)
              (<[label := length (gpuTextures s)]> (sharedTextures s))
              (drawParameters s) (submitted s)).
Proof.
  intros Hd.
  unfold createTexture, assign_textureDescriptor_label, device_createTexture, bind, gets.
  rewrite Hd. cbn.
  rewrite list_lookup_alter_eq, Hd. cbn.
  destruct (sharedTextures s !! label); reflexivity.
Qed.

Lemma perform_CreateBuffer_eq s d label :
  perform (CreateBuffer d label) s =
    Normal (tt,
      mkState (bufferDescriptors s ++ [set_bd_label label d])
              (textureDescriptors s)
              (destroy_old destroy_buffer (sharedBuffers s !! label)
                 (gpuBuffers s ++ [mkBuffer (bd_size d) (bd_usage d) (Some label) false []]))
              (gpuTextures s)
              (<[label := length (gpuBuffers s)]> (sharedBuffers s))
              (sharedTextures s) (drawParameters s) (submitted s)).
Proof.
  unfold perform, new_bufferDescriptor, bind. cbn.
  rewrite (createBuffer_eq _ _ d) by (cbn; apply list_lookup_middle; reflexivity).
  cbn. do 3 f_equal.
  rewrite alter_app_r_alt by reflexivity. rewrite Nat.sub_diag. reflexivity.
Qed.

Lemma perform_CreateTexture_eq s d label :
  perform (CreateTexture d label) s =
    Normal (tt,
      mkState (bufferDescriptors s)
              (textureDescriptors s ++ [set_td_label label d])
              (gpuBuffers s)
              (destroy_old destroy_texture (sharedTextures s !! label)
                 (gpuTextures s ++ [mkTexture (set_td_label label d) false]))
              (sharedBuffers s)
              (<[label := length (gpuTextures s)]> (sharedTextures s))
              (drawParameters s) (submitted s)).
Proof.
  unfold perform, new_textureDescriptor, bind. cbn.
  rewrite (createTexture_eq _ _ d) by (cbn; apply list_lookup_middle; reflexivity).
  cbn. do 3 f_equal.
  rewrite alter_app_r_alt by reflexivity. rewrite Nat.sub_diag. reflexivity.
Qed.

Lemma destroyBuffer_eq s label :
  destroyBuffer label s =
    Normal (tt, with_sharedBuffers (delete label (sharedBuffers s)) s).
Proof.
  unfold destroyBuffer, bind, gets. cbn.
  destruct (sharedBuffers s !! label); reflexivity.
Qed.

Lemma destroyTexture_eq s label :
  destroyTexture label s =
    Normal (tt,
      mkState (bufferDescriptors s) (textureDescriptors s) (gpuBuffers s)
              (destroy_old destroy_texture (sharedTextures s !! label) (gpuTextures s))
              (sharedBuffers s) (delete label (sharedTextures s))
              (drawParameters s) (submitted s)).
Proof.
  unfold destroyTexture, bind, gets. cbn.
  destruct (sharedTextures s !! label); destruct s; reflexivity.
Qed.

Lemma perform_all_app calls1 calls2 s :
  perform_all (calls1 ++ calls2) s = (perform_all calls1 ;;; perform_all calls2) s.
Proof.
  revert s. induction calls1 as [|c calls1 IH]; intros s.
  - cbn. unfold bind, ret. reflexivity.
  - cbn. unfold bind in *. destruct (perform c s) as [[[] s1]|e]; [apply IH | reflexivity].
Qed.

(** ** The most recent creation under a label *)

Lemma most_recent_lt labels label h :
  most_recent labels label h → (h < length labels)%nat.
Proof. intros [Hh _]. by eapply lookup_lt_Some. Qed.

Lemma most_recent_inj labels label h1 h2 :
  most_recent labels label h1 → most_recent labels label h2 → h1 = h2.
Proof.
  intros [H1 N1] [H2 N2].
  destruct (Nat.lt_trichotomy h1 h2) as [Hlt|[Heq|Hlt]]; [|assumption|].
  - destruct (N1 h2 Hlt H2).
  - destruct (N2 h1 Hlt H1).
Qed.

Lemma most_recent_label labels l1 l2 h :
  most_recent labels l1 h → most_recent labels l2 h → l1 = l2.
Proof. intros [H1 _] [H2 _]. congruence. Qed.

Lemma most_recent_snoc_same labels label h :
  most_recent (labels ++ [label]) label h ↔ h = length labels.
Proof.
  split.
  - intros [Hh Hn].
    destruct (Nat.lt_trichotomy h (length labels)) as [Hlt|[Heq|Hgt]]; [|assumption|].
    + destruct (Hn (length labels) Hlt). by apply list_lookup_middle.
    + apply lookup_lt_Some in Hh. rewrite length_app in Hh. cbn in Hh. lia.
  - intros ->. split; [by apply list_lookup_middle|].
    intros j Hj Hl. apply lookup_lt_Some in Hl. rewrite length_app in Hl. cbn in Hl. lia.
Qed.

Lemma most_recent_snoc_other labels l label h :
  l ≠ label →
  most_recent (labels ++ [l]) label h ↔ most_recent labels label h.
Proof.
  intros Hne. split.
  - intros [Hh Hn]. split.
    + apply lookup_app_Some in Hh as [Hh|[Hlen Hh]]; [assumption|].
      apply list_lookup_singleton_Some in Hh as [_ ?]. congruence.
    + intros j Hj Hl. apply (Hn j Hj). by apply lookup_app_l_Some.
  - intros [Hh Hn]. split; [by apply lookup_app_l_Some|].
    intros j Hj Hl.
    apply lookup_app_Some in Hl as [Hl|[Hlen Hl]]; [by apply (Hn j Hj)|].
    apply list_lookup_singleton_Some in Hl as [_ ?]. congruence.
Qed.

(** ** A registry map follows its creations *)

Section Tracking.

Context {A : Type} (label : A → option string) (destroyed : A → bool)
        (destroy : A → A).
Hypothesis label_destroy : ∀ a, label (destroy a) = label a.
Hypothesis destroyed_destroy : ∀ a, destroyed (destroy a) = true.

Lemma tracks_initial : tracks label destroyed [] [] ∅.
Proof.
  split; [reflexivity|]. split.
  - intros L h. rewrite lookup_empty. split; [discriminate|].
    intros [Hh _]. discriminate.
  - intros h a Hh. discriminate.
Qed.

Lemma tracks_length labels objs m :
  tracks label destroyed labels objs m → length objs = length labels.
Proof.
  intros [Hl _]. apply (f_equal length) in Hl.
  by rewrite !length_fmap in Hl.
Qed.

Lemma tracks_label labels objs m h a :
  tracks label destroyed labels objs m →
  objs !! h = Some a → labels !! h = label a.
Proof.
  intros [Hl _] Ha.
  assert (H : (label <$> objs) !! h = (Some <$> labels) !! h) by by rewrite Hl.
  rewrite !list_lookup_fmap, Ha in H. cbn in H.
  destruct (labels !! h); cbn in H; congruence.
Qed.

Lemma fmap_label_destroy_old old objs :
  label <$> destroy_old destroy old objs = label <$> objs.
Proof.
  destruct old as [h|]; [|reflexivity]. cbn.
  apply list_eq. intros i. rewrite !list_lookup_fmap.
  destruct (decide (h = i)) as [->|Hne].
  - rewrite list_lookup_alter_eq. destruct (objs !! i); cbn; [|reflexivity].
    by rewrite label_destroy.
  - by rewrite list_lookup_alter_ne.
Qed.

(** A creation under [L]: the new object is appended, the object the map
    held for [L] is destroyed, and [L] is mapped to the new object. *)
Lemma tracks_create labels objs m new L :
  tracks label destroyed labels objs m →
  label new = Some L → destroyed new = false →
  tracks label destroyed (labels ++ [L])
         (destroy_old destroy (m !! L) (objs ++ [new]))
         (<[L := length objs]> m).
Proof.
  intros Ht Hlab Hlive.
  pose proof (tracks_length _ _ _ Ht) as Hlen.
  destruct Ht as (Hl & Hm & Hd).
  split; [|split].
  - rewrite fmap_label_destroy_old, !fmap_app, Hl. cbn. by rewrite Hlab.
  - intros L' h. destruct (decide (L = L')) as [<-|Hne].
    + rewrite lookup_insert_eq, most_recent_snoc_same, Hlen.
      split; [by intros [= <-]|by intros ->].
    + rewrite lookup_insert_ne by assumption.
      rewrite most_recent_snoc_other by assumption. apply Hm.
  - intros h a Ha.
    assert (Hold : ∀ o, m !! L = Some o → (o < length objs)%nat).
    { intros o Ho. rewrite Hlen. eapply most_recent_lt. by apply Hm. }
    destruct (decide (h = length objs)) as [->|Hh].
    + (* the new object *)
      assert (a = new) as ->.
      { destruct (m !! L) as [o|] eqn:Ho; cbn in Ha.
        - specialize (Hold o eq_refl).
          rewrite list_lookup_alter_ne in Ha by lia.
          rewrite list_lookup_middle in Ha by reflexivity. congruence.
        - rewrite list_lookup_middle in Ha by reflexivity. congruence. }
      split; [|done]. intros _. exists L. by rewrite lookup_insert_eq.
    + destruct (m !! L) as [o|] eqn:Ho; cbn in Ha.
      * destruct (decide (o = h)) as [->|Hoh].
        -- (* the object the map held for [L] *)
           rewrite list_lookup_alter_eq in Ha.
           destruct ((objs ++ [new]) !! h) as [a0|] eqn:Ha0; [|discriminate].
           cbn in Ha. injection Ha as <-. rewrite destroyed_destroy.
           split; [discriminate|]. intros [L' HL'].
           destruct (decide (L = L')) as [<-|Hne].
           ++ rewrite lookup_insert_eq in HL'. congruence.
           ++ rewrite lookup_insert_ne in HL' by assumption.
              apply Hm in HL'. apply Hm in Ho.
              destruct Hne. by eapply most_recent_label.
        -- rewrite list_lookup_alter_ne in Ha by assumption.
           assert (Ha' : objs !! h = Some a).
           { apply lookup_app_Some in Ha as [Ha|[Hge Ha]]; [assumption|].
             apply list_lookup_singleton_Some in Ha as [? _]. lia. }
           rewrite (Hd h a Ha'). split; intros [L' HL'].
           ++ exists L'. rewrite lookup_insert_ne; [assumption|]. congruence.
           ++ destruct (decide (L = L')) as [<-|Hne].
              ** rewrite lookup_insert_eq in HL'. congruence.
              ** exists L'. by rewrite lookup_insert_ne in HL'.
      * assert (Ha' : objs !! h = Some a).
        { apply lookup_app_Some in Ha as [Ha|[Hge Ha]]; [assumption|].
          apply list_lookup_singleton_Some in Ha as [? _]. lia. }
        rewrite (Hd h a Ha'). split; intros [L' HL'].
        -- exists L'. rewrite lookup_insert_ne; [assumption|]. congruence.
        -- destruct (decide (L = L')) as [<-|Hne].
           ++ rewrite lookup_insert_eq in HL'. congruence.
           ++ exists L'. by rewrite lookup_insert_ne in HL'.
Qed.

(** Under [tracks], the live objects with label [L] are exactly the most
    recent creation under [L]. *)
Lemma tracks_live labels objs m L h :
  tracks label destroyed labels objs m →
  (∃ a, objs !! h = Some a ∧ label a = Some L ∧ destroyed a = false)
  ↔ most_recent labels L h.
Proof.
  intros Ht. pose proof Ht as (Hl & Hm & Hd). split.
  - intros (a & Ha & Hlab & Hlive).
    apply (Hd h a Ha) in Hlive as [L' HL'].
    pose proof (tracks_label _ _ _ _ _ Ht Ha) as Hlh.
    apply Hm in HL'. destruct HL' as [Hh Hn].
    assert (L' = L) as -> by congruence. by split.
  - intros Hr. pose proof (most_recent_lt _ _ _ Hr) as Hlt.
    rewrite <- (tracks_length _ _ _ Ht) in Hlt.
    apply lookup_lt_is_Some in Hlt as [a Ha].
    exists a. split; [assumption|]. split.
    + rewrite <- (tracks_label _ _ _ _ _ Ht Ha). by destruct Hr.
    + apply (Hd h a Ha). exists L. by apply Hm.
Qed.

End Tracking.

(** ** Creation sequences *)

Lemma getBuffer_Normal s label h s' :
  getBuffer label s = Normal (h, s') ↔ sharedBuffers s !! label = Some h ∧ s' = s.
Proof.
  unfold getBuffer, bind, gets, ret, throw.
  destruct (sharedBuffers s !! label); split; try intros [[=] ?]; try intros [=];
    subst; auto.
Qed.

Lemma getTexture_Normal s label h s' :
  getTexture label s = Normal (h, s') ↔ sharedTextures s !! label = Some h ∧ s' = s.
Proof.
  unfold getTexture, bind, gets, ret, throw.
  destruct (sharedTextures s !! label); split; try intros [[=] ?]; try intros [=];
    subst; auto.
Qed.

Lemma creates_track calls :
  forallb is_create calls = true →
  ∃ s, perform_all calls initial = Normal (tt, s)
       ∧ tracks buf_label buf_destroyed
                (buffer_labels calls) (gpuBuffers s) (sharedBuffers s)
       ∧ tracks (λ t, td_label (tex_descriptor t)) tex_destroyed
                (texture_labels calls) (gpuTextures s) (sharedTextures s).
Proof.
  induction calls as [|c calls IH] using rev_ind; intros Hc.
  - exists initial. split; [reflexivity|]. split; apply tracks_initial.
  - rewrite forallb_app in Hc. apply andb_true_iff in Hc as [Hcalls Hcreate].
    destruct (IH Hcalls) as (s & Hrun & Hb & Ht).
    rewrite perform_all_app. unfold bind at 1. rewrite Hrun. cbn.
    unfold buffer_labels, texture_labels. rewrite !omap_app.
    destruct c as [d label|d label|label|label]; cbn in Hcreate; try discriminate.
    + unfold bind, ret. rewrite perform_CreateBuffer_eq. eexists. split; [reflexivity|].
      cbn. split.
      * apply (tracks_create _ _ destroy_buffer); auto.
      * by rewrite app_nil_r.
    + unfold bind, ret. rewrite perform_CreateTexture_eq. eexists. split; [reflexivity|].
      cbn. split.
      * by rewrite app_nil_r.
      * apply (tracks_create _ _ destroy_texture); auto.
Qed.

(** C7, as amended.  The registry keeps buffers and textures in separate
    maps, so uniqueness holds per kind.  After any sequence of registry
    create calls (buffers and textures, any labels, any number of
    replacements), hence after each call of it: the device holds every
    object created, under its label; of the buffers carrying a label exactly
    the most recently created one is live and every earlier one has been
    destroyed; [getBuffer] returns that most recent one; and the same holds
    of textures and [getTexture]. *)
Theorem one_live_resource_per_label_and_kind calls :
  forallb is_create calls = true →
  ∃ s, perform_all calls initial = Normal (tt, s)
    ∧ buf_label <$> gpuBuffers s = Some <$> buffer_labels calls
    ∧ (∀ label h, live_buffer s label h ↔ most_recent (buffer_labels calls) label h)
    ∧ (∀ label h b, gpuBuffers s !! h = Some b → buf_label b = Some label →
         ¬ most_recent (buffer_labels calls) label h → buf_destroyed b = true)
    ∧ (∀ label h, getBuffer label s = Normal (h, s)
                  ↔ most_recent (buffer_labels calls) label h)
    ∧ (∀ label h1 h2, live_buffer s label h1 → live_buffer s label h2 → h1 = h2)
    ∧ (λ t, td_label (tex_descriptor t)) <$> gpuTextures s = Some <$> texture_labels calls
    ∧ (∀ label h, live_texture s label h ↔ most_recent (texture_labels calls) label h)
    ∧ (∀ label h t, gpuTextures s !! h = Some t →
         td_label (tex_descriptor t) = Some label →
         ¬ most_recent (texture_labels calls) label h → tex_destroyed t = true)
    ∧ (∀ label h, getTexture label s = Normal (h, s)
                  ↔ most_recent (texture_labels calls) label h)
    ∧ (∀ label h1 h2, live_texture s label h1 → live_texture s label h2 → h1 = h2).
Proof.
  intros Hc. destruct (creates_track calls Hc) as (s & Hrun & Hb & Ht).
  exists s. split; [assumption|].
  assert (Lb : ∀ label h,
             live_buffer s label h ↔ most_recent (buffer_labels calls) label h).
  { intros label h. apply (tracks_live buf_label buf_destroyed _ _ _ _ _ Hb). }
  assert (Lt : ∀ label h,
             live_texture s label h ↔ most_recent (texture_labels calls) label h).
  { intros label h.
    apply (tracks_live (λ t, td_label (tex_descriptor t)) tex_destroyed _ _ _ _ _ Ht). }
  destruct Hb as (Hlb & Hb & _). destruct Ht as (Hlt & Ht & _).
  split_and!; [exact Hlb|exact Lb| | | |exact Hlt|exact Lt| | | ].
  - intros label h b Hh Hl Hn.
    destruct (buf_destroyed b) eqn:Hd; [reflexivity|].
    destruct Hn. apply Lb. by exists b.
  - intros label h. rewrite getBuffer_Normal, <- Hb. split; [by intros [? _] | by intros ?].
  - intros label h1 h2 H1 H2. apply Lb in H1, H2. by eapply most_recent_inj.
  - intros label h t Hh Hl Hn.
    destruct (tex_destroyed t) eqn:Hd; [reflexivity|].
    destruct Hn. apply Lt. by exists t.
  - intros label h. rewrite getTexture_Normal, <- Ht. split; [by intros [? _] | by intros ?].
  - intros label h1 h2 H1 H2. apply Lt in H1, H2. by eapply most_recent_inj.
Qed.

Lemma one_live_resource_per_label_and_kind_witness :
  forallb is_create resize_twice = true
  ∧ ∃ s, perform_all resize_twice initial = Normal (tt, s)
    ∧ buf_label <$> gpuBuffers s = Some <$> buffer_labels resize_twice
    ∧ (∀ label h, live_buffer s label h ↔ most_recent (buffer_labels resize_twice) label h)
    ∧ (∀ label h b, gpuBuffers s !! h = Some b → buf_label b = Some label →
         ¬ most_recent (buffer_labels resize_twice) label h → buf_destroyed b = true)
    ∧ (∀ label h, getBuffer label s = Normal (h, s)
                  ↔ most_recent (buffer_labels resize_twice) label h)
    ∧ (∀ label h1 h2, live_buffer s label h1 → live_buffer s label h2 → h1 = h2)
    ∧ (λ t, td_label (tex_descriptor t)) <$> gpuTextures s
      = Some <$> texture_labels resize_twice
    ∧ (∀ label h, live_texture s label h ↔ most_recent (texture_labels resize_twice) label h)
    ∧ (∀ label h t, gpuTextures s !! h = Some t →
         td_label (tex_descriptor t) = Some label →
         ¬ most_recent (texture_labels resize_twice) label h → tex_destroyed t = true)
    ∧ (∀ label h, getTexture label s = Normal (h, s)
                  ↔ most_recent (texture_labels resize_twice) label h)
    ∧ (∀ label h1 h2, live_texture s label h1 → live_texture s label h2 → h1 = h2).
Proof.
  split; [reflexivity
         | apply (one_live_resource_per_label_and_kind resize_twice); reflexivity].
Defined.

Lemma createBuffer_split descriptor label s :
  createBuffer descriptor label s
  = (let! buffer := createBuffer_until_created descriptor label in
     createBuffer_from_created label buffer) s.
Proof.
  unfold createBuffer, createBuffer_until_created, createBuffer_from_created, bind.
  destruct (assign_bufferDescriptor_label descriptor label s) as [[[] s1]|e];
    reflexivity.
Qed.

(** C7, as it was worded, fails.  Over all live resources of a label, buffers
    and textures together, "at most one" is false: the buffer and the
    texture that every frame creates under "object-index" are both live.
    And "at any time" is false inside a [createBuffer] call: once the new
    GPU buffer is created, the buffer it replaces is still live. *)
Lemma two_live_resources_under_one_label :
  (forallb is_create share_object_index = true
   ∧ ∃ s, perform_all share_object_index initial = Normal (tt, s)
       ∧ live_buffer s "object-index" 0
       ∧ live_texture s "object-index" 0
       ∧ live_count s "object-index" = 2%nat)
  ∧ ¬ (∀ calls s label,
         forallb is_create calls = true →
         perform_all calls initial = Normal (tt, s) →
         (live_count s label ≤ 1)%nat)
  ∧ (∃ s h, replace_vertex_midway initial = Normal (h, s)
       ∧ h ≠ 0%nat
       ∧ live_buffer s "vertex" 0
       ∧ live_buffer s "vertex" h
       ∧ live_count s "vertex" = 2%nat).
Proof.
  split; [|split].
  - split; [reflexivity|].
    eexists. split; [vm_compute; reflexivity|].
    split; [eexists; split_and!; reflexivity|].
    split; [eexists; split_and!; reflexivity|].
    reflexivity.
  - intros H.
    specialize (H share_object_index (state_after share_object_index)
                  "object-index"%string eq_refl eq_refl).
    vm_compute in H. lia.
  - eexists _, _. split; [vm_compute; reflexivity|].
    split; [discriminate|].
    split; [eexists; split_and!; reflexivity|].
    split; [eexists; split_and!; reflexivity|].
    reflexivity.
Qed.

(** ** Which labels are registered after a call sequence *)

Lemma is_Some_insert_bool (m : gmap string nat) l label h :
  bool_decide (is_Some (<[l := h]> m !! label))
  = if bool_decide (l = label) then true else bool_decide (is_Some (m !! label)).
Proof.
  destruct (decide (l = label)) as [->|Hl].
  - rewrite lookup_insert_eq, (bool_decide_eq_true_2 (label = label)) by reflexivity.
    by apply bool_decide_eq_true.
  - rewrite lookup_insert_ne, (bool_decide_eq_false_2 (l = label)) by assumption.
    reflexivity.
Qed.

Lemma is_Some_delete_bool (m : gmap string nat) l label :
  bool_decide (is_Some (delete l m !! label))
  = if bool_decide (l = label) then false else bool_decide (is_Some (m !! label)).
Proof.
  destruct (decide (l = label)) as [->|Hl].
  - rewrite lookup_delete_eq, (bool_decide_eq_true_2 (label = label)) by reflexivity.
    apply bool_decide_eq_false. by intros [? ?].
  - rewrite lookup_delete_ne, (bool_decide_eq_false_2 (l = label)) by assumption.
    reflexivity.
Qed.

Lemma perform_all_expected calls s :
  ∃ s', perform_all calls s = Normal (tt, s')
    ∧ (∀ label, is_Some (sharedBuffers s' !! label)
         ↔ buffer_expected label calls (bool_decide (is_Some (sharedBuffers s !! label))) = true)
    ∧ (∀ label, is_Some (sharedTextures s' !! label)
         ↔ texture_expected label calls (bool_decide (is_Some (sharedTextures s !! label))) = true).
Proof.
  revert s. induction calls as [|c calls IH]; intros s.
  - exists s. split; [reflexivity|].
    split; intros label; cbn; by rewrite bool_decide_eq_true.
  - cbn [perform_all]. unfold bind.
    destruct c as [d l|d l|l|l].
    + rewrite perform_CreateBuffer_eq.
      edestruct IH as (s' & -> & Hb & Ht). exists s'. split; [reflexivity|].
      split; intros label; [rewrite Hb|rewrite Ht]; cbn; [|reflexivity].
      by rewrite is_Some_insert_bool.
    + rewrite perform_CreateTexture_eq.
      edestruct IH as (s' & -> & Hb & Ht). exists s'. split; [reflexivity|].
      split; intros label; [rewrite Hb|rewrite Ht]; cbn; [reflexivity|].
      by rewrite is_Some_insert_bool.
    + cbn [perform]. rewrite destroyBuffer_eq.
      edestruct IH as (s' & -> & Hb & Ht). exists s'. split; [reflexivity|].
      split; intros label; [rewrite Hb|rewrite Ht]; cbn; [|reflexivity].
      by rewrite is_Some_delete_bool.
    + cbn [perform]. rewrite destroyTexture_eq.
      edestruct IH as (s' & -> & Hb & Ht). exists s'. split; [reflexivity|].
      split; intros label; [rewrite Hb|rewrite Ht]; cbn; [reflexivity|].
      by rewrite is_Some_delete_bool.
Qed.

(** C8. After any sequence of registry calls, [getBuffer(L)] returns a
    handle exactly when the last call on the buffer label [L] was a
    creation; when no buffer was created under [L], or its entry was
    removed, it throws the error "There is no buffer with the label: L".
    The same holds of [getTexture].  No default value is ever returned. *)
Theorem get_absent_label_throws calls label :
  ∃ s, perform_all calls initial = Normal (tt, s)
    ∧ (if buffer_expected label calls false
       then ∃ h, getBuffer label s = Normal (h, s)
       else getBuffer label s
            = Throw (Error ("There is no buffer with the label: " +:+ label)))
    ∧ (if texture_expected label calls false
       then ∃ h, getTexture label s = Normal (h, s)
       else getTexture label s
            = Throw (Error ("There is no texture with the label: " +:+ label))).
Proof.
  destruct (perform_all_expected calls initial) as (s & Hrun & Hb & Ht).
  exists s. split; [assumption|].
  specialize (Hb label). specialize (Ht label).
  assert (Hempty : bool_decide (is_Some ((∅ : gmap string nat) !! label)) = false).
  { apply bool_decide_eq_false. rewrite lookup_empty. by intros [? ?]. }
  cbn in Hb, Ht. rewrite Hempty in Hb, Ht. split.
  - destruct (buffer_expected label calls false).
    + destruct (proj2 Hb eq_refl) as [h Hh]. exists h.
      apply getBuffer_Normal. by split.
    + unfold getBuffer, bind, gets, throw.
      destruct (sharedBuffers s !! label) as [h|]; [|reflexivity].
      assert (false = true) by (apply Hb; eauto). discriminate.
  - destruct (texture_expected label calls false).
    + destruct (proj2 Ht eq_refl) as [h Hh]. exists h.
      apply getTexture_Normal. by split.
    + unfold getTexture, bind, gets, throw.
      destruct (sharedTextures s !! label) as [h|]; [|reflexivity].
      assert (false = true) by (apply Ht; eauto). discriminate.
Qed.

(** C9, at the input [createBuffer({size: 32, ...}, "vertex")] followed by
    [destroyBuffer("vertex")]: the entry is removed, so that
    [getBuffer("vertex")] throws, but the GPU buffer is never released: it
    is still live on the device.  The same two calls on a texture do
    release it. *)
Theorem destroyBuffer_leaves_buffer_live :
  (∃ s, perform_all create_destroy_buffer initial = Normal (tt, s)
     ∧ getBuffer "vertex" s = Throw (Error "There is no buffer with the label: vertex")
     ∧ gpuBuffers s = [mkBuffer 32 40 (Some "vertex"%string) false []])
  ∧ (∃ s, perform_all create_destroy_texture initial = Normal (tt, s)
     ∧ getTexture "color" s = Throw (Error "There is no texture with the label: color")
     ∧ gpuTextures s
       = [mkTexture (mkTextureDescriptor 4 4 "rgba8unorm" 16 None (Some "color"%string)) true]).
Proof.
  split.
  - unfold create_destroy_buffer. cbn [perform_all]. unfold bind.
    rewrite perform_CreateBuffer_eq. cbn [perform]. rewrite destroyBuffer_eq.
    eexists. split; [reflexivity|]. split.
    + unfold getBuffer, bind, gets, throw. cbn. by rewrite lookup_delete_eq.
    + reflexivity.
  - unfold create_destroy_texture. cbn [perform_all]. unfold bind.
    rewrite perform_CreateTexture_eq. cbn [perform]. rewrite destroyTexture_eq.
    eexists. split; [reflexivity|]. split.
    + unfold getTexture, bind, gets, throw. cbn. by rewrite lookup_delete_eq.
    + cbn. rewrite lookup_insert_eq. reflexivity.
Qed.



(** ** The geometry batcher on the scenario of the specification *)

(** C1, at the scene with two instances of mesh A (4 vertices, 6 indices)
    and one of mesh B (3 vertices, 3 indices): the batcher writes every
    tuple at row 1 of the table, so the tuple of A is overwritten by the one
    of B and row 2 stays zero; and [indexCount] is the length of the vertex
    array of the mesh (24 floats for B), not of its index array. *)
Theorem draw_table_AAB :
  ∃ batch, build_arrays scene_AAB = Normal batch
    ∧ batch_drawParameters batch = [24; 1; 6; 0; 2; 0; 0; 0; 0; 0]
    ∧ batch_drawParameters batch ≠ [6; 2; 0; 0; 0; 3; 1; 6; 0; 2].
Proof.
  eexists. split; [vm_compute; reflexivity|]. split; [reflexivity|discriminate].
Qed.

(** C2, at the same scene (k = 2 distinct meshes, n = 3 mesh instances):
    the table has 2 rows, but the instance counts of its rows add up to 1,
    and row 1 has firstIndex + indexCount = 6 + 24 = 30, beyond the 9
    entries of the index array. *)
Theorem draw_table_bounds_AAB :
  ∃ batch, build_arrays scene_AAB = Normal batch
    ∧ distinct_mesh_count scene_AAB = 2%nat
    ∧ length (table_rows (batch_drawParameters batch)) = 2%nat
    ∧ mesh_instance_count scene_AAB = 3
    ∧ instance_count_sum (table_rows (batch_drawParameters batch)) = 1
    ∧ length (batch_indexArray batch) = 9%nat
    ∧ table_rows (batch_drawParameters batch) !! 0%nat
      = Some (mkDraw (Some 24) (Some 1) (Some 6) (Some 0) (Some 2)).
Proof.
  eexists. split; [vm_compute; reflexivity|]. repeat split.
Qed.

(** C3, at the same scene: a second instance of a mesh only increments the
    count of its group and its id is never added to the group's id list, so
    the object-index array is [0; 0; 2] where the instance ids are 0, 1, 2:
    the slot of the second A instance keeps its initial zero. *)
Theorem id_array_AAB :
  ∃ batch, build_arrays scene_AAB = Normal batch
    ∧ batch_idArray batch = [0; 0; 2]
    ∧ batch_idArray batch ≠ [0; 1; 2].
Proof.
  eexists. split; [vm_compute; reflexivity|]. split; [reflexivity|discriminate].
Qed.

(** C4: the world transform of an entity is written at offset [id], not
    [16 * id].  At the scenario scene the 16 floats at offset 16 are not the
    transform of the entity with id 1; at a scene with a non-mesh entity
    (id 0) followed by a mesh instance (id 1), the 16 floats of id 0 are not
    all zero.  In both the array has 16 floats per entity. *)
Theorem transform_array_offsets :
  (∃ batch, build_arrays scene_AAB = Normal batch
     ∧ length (batch_transformArray batch) = (16 * 3)%nat
     ∧ take 17 (batch_transformArray batch) = f32_1 :: f32_1 :: take 15 (translation f32_3)
     ∧ take 16 (drop 16 (batch_transformArray batch)) = 0 :: f32_1 :: replicate 14 0
     ∧ take 16 (drop 16 (batch_transformArray batch)) ≠ translation f32_2)
  ∧ (∃ batch, build_arrays scene_light_A = Normal batch
     ∧ length (batch_transformArray batch) = (16 * 2)%nat
     ∧ take 16 (batch_transformArray batch) = 0 :: take 15 (translation f32_2)
     ∧ take 16 (batch_transformArray batch) ≠ replicate 16 0).
Proof.
  split; eexists; (split; [vm_compute; reflexivity|]);
    split_and!; first [reflexivity | discriminate].
Qed.

(** C5, at the scenario scene, from the initial registry and with a minimum
    allocation of 32 bytes: the four buffers are created through the
    registry with size max(byte length, minimum); the vertex, index and id
    arrays are uploaded to their buffers, but the transform buffer receives
    the draw-parameter table and the transform array is uploaded nowhere. *)
Theorem transform_buffer_receives_draw_table :
  ∃ batch s, build_arrays scene_AAB = Normal batch
    ∧ createMeshBuffer 32 (mkViewport scene_AAB 4 4) initial = Normal (tt, s)
    ∧ registered_buffer s "vertex"
      = Some (mkBuffer (Z.max (byteLength (batch_vertexArray batch)) 32)
                       (Z.lor COPY_DST VERTEX) (Some "vertex"%string) false
                       (batch_vertexArray batch))
    ∧ registered_buffer s "index"
      = Some (mkBuffer (Z.max (byteLength (batch_indexArray batch)) 32)
                       (Z.lor COPY_DST INDEX) (Some "index"%string) false
                       (batch_indexArray batch))
    ∧ registered_buffer s "object-index"
      = Some (mkBuffer (Z.max (byteLength (batch_idArray batch)) 32)
                       (Z.lor COPY_DST STORAGE) (Some "object-index"%string) false
                       (batch_idArray batch))
    ∧ registered_buffer s "transform"
      = Some (mkBuffer (Z.max (byteLength (batch_transformArray batch)) 32)
                       (Z.lor COPY_DST STORAGE) (Some "transform"%string) false
                       (batch_drawParameters batch))
    ∧ batch_drawParameters batch ≠ batch_transformArray batch
    ∧ length (gpuBuffers s) = 4%nat.
Proof.
  eexists _, _. split; [vm_compute; reflexivity|].
  split; [vm_compute; reflexivity|].
  split_and!; first [reflexivity | discriminate].
Qed.

(** ** Running a pass *)

Lemma bind_Normal {A B} (m : M A) (k : A → M B) s a s1 :
  m s = Normal (a, s1) → bind m k s = k a s1.
Proof. intros H. unfold bind. by rewrite H. Qed.

Lemma renderer_createBuffer_eq s d label :
  renderer_createBuffer d label s =
    Normal (length (gpuBuffers s),
      mkState (bufferDescriptors s ++ [set_bd_label label d])
              (textureDescriptors s)
              (destroy_old destroy_buffer (sharedBuffers s !! label)
                 (gpuBuffers s ++ [mkBuffer (bd_size d) (bd_usage d) (Some label) false []]))
              (gpuTextures s)
              (<[label := length (gpuBuffers s)]> (sharedBuffers s))
              (sharedTextures s) (drawParameters s) (submitted s)).
Proof.
  unfold renderer_createBuffer, new_bufferDescriptor, bind. cbn.
  rewrite (createBuffer_eq _ _ d) by (cbn; apply list_lookup_middle; reflexivity).
  cbn. do 3 f_equal.
  rewrite alter_app_r_alt by reflexivity. rewrite Nat.sub_diag. reflexivity.
Qed.

(** Creating a buffer through the renderer keeps the registry well formed,
    registers the new buffer, and leaves the buffers of other labels
    alone. *)
Lemma renderer_createBuffer_spec s d label :
  buffer_handles_ok s →
  ∃ s', renderer_createBuffer d label s = Normal (length (gpuBuffers s), s')
    ∧ buffer_handles_ok s'
    ∧ sharedBuffers s' = <[label := length (gpuBuffers s)]> (sharedBuffers s)
    ∧ registered_buffer s' label
      = Some (mkBuffer (bd_size d) (bd_usage d) (Some label) false [])
    ∧ (∀ l, l ≠ label → registered_buffer s' l = registered_buffer s l)
    ∧ textureDescriptors s' = textureDescriptors s
    ∧ gpuTextures s' = gpuTextures s
    ∧ sharedTextures s' = sharedTextures s
    ∧ drawParameters s' = drawParameters s
    ∧ submitted s' = submitted s.
Proof.
  intros [Hvalid Hinj]. rewrite renderer_createBuffer_eq.
  eexists. split; [reflexivity|]. cbn.
  set (new := mkBuffer (bd_size d) (bd_usage d) (Some label) false []).
  assert (Hlen : length (destroy_old destroy_buffer (sharedBuffers s !! label)
                           (gpuBuffers s ++ [new])) = S (length (gpuBuffers s))).
  { destruct (sharedBuffers s !! label); cbn; rewrite ?length_alter, length_app;
      cbn; lia. }
  split_and!; try reflexivity.
  - split; cbn.
    + intros l h Hl. rewrite Hlen.
      destruct (decide (label = l)) as [<-|Hne].
      * rewrite lookup_insert_eq in Hl. injection Hl as <-. lia.
      * rewrite lookup_insert_ne in Hl by assumption. apply Hvalid in Hl. lia.
    + intros l1 l2 h H1 H2.
      destruct (decide (label = l1)) as [<-|Hne1];
        destruct (decide (label = l2)) as [<-|Hne2]; [reflexivity| | |].
      * rewrite lookup_insert_eq in H1. rewrite lookup_insert_ne in H2 by assumption.
        injection H1 as <-. apply Hvalid in H2. lia.
      * rewrite lookup_insert_eq in H2. rewrite lookup_insert_ne in H1 by assumption.
        injection H2 as <-. apply Hvalid in H1. lia.
      * rewrite lookup_insert_ne in H1, H2 by assumption. by eapply Hinj.
  - unfold registered_buffer. cbn. rewrite lookup_insert_eq.
    destruct (sharedBuffers s !! label) as [o|] eqn:Ho; cbn.
    + apply Hvalid in Ho. rewrite list_lookup_alter_ne by lia.
      by apply list_lookup_middle.
    + by apply list_lookup_middle.
  - intros l Hl. unfold registered_buffer. cbn.
    rewrite lookup_insert_ne by congruence.
    destruct (sharedBuffers s !! l) as [h|] eqn:Hh; [|reflexivity].
    pose proof (Hvalid _ _ Hh) as Hlt.
    destruct (sharedBuffers s !! label) as [o|] eqn:Ho; cbn.
    + rewrite list_lookup_alter_ne.
      * by apply lookup_app_l.
      * intros ->. destruct Hl. by eapply Hinj.
    + by apply lookup_app_l.
Qed.

Lemma queue_writeBuffer_nil buffer s :
  queue_writeBuffer buffer [] s = Normal (tt, s).
Proof.
  unfold queue_writeBuffer, modify. do 2 f_equal.
  rewrite list_alter_id; [by destruct s|].
  intros b. by destruct b.
Qed.

Lemma build_arrays_empty scene :
  entities scene = [] → build_arrays scene = Normal (mkBatch [] [] [] [] []).
Proof. intros H. unfold build_arrays. rewrite H. reflexivity. Qed.

(** The batcher on a scene without entities. *)
Lemma createMeshBuffer_empty min viewport s :
  entities (scene viewport) = [] → 0 < min → buffer_handles_ok s →
  ∃ s', createMeshBuffer min viewport s = Normal (tt, s')
    ∧ (∀ label, label ∈ batch_labels →
         registered_buffer s' label
         = Some (mkBuffer min (if bool_decide (label = "vertex"%string) then Z.lor COPY_DST VERTEX
                               else if bool_decide (label = "index"%string) then Z.lor COPY_DST INDEX
                               else Z.lor COPY_DST STORAGE)
                          (Some label) false []))
    ∧ (∀ label, label ∉ batch_labels →
         sharedBuffers s' !! label = sharedBuffers s !! label)
    ∧ (∀ label, label ∈ batch_labels → is_Some (sharedBuffers s' !! label))
    ∧ textureDescriptors s' = textureDescriptors s
    ∧ gpuTextures s' = gpuTextures s
    ∧ sharedTextures s' = sharedTextures s
    ∧ drawParameters s' = []
    ∧ submitted s' = submitted s.
Proof.
  intros Hempty Hmin Hok.
  unfold createMeshBuffer.
  rewrite (build_arrays_empty _ Hempty). unfold lift. unfold bind at 1. cbn [batch_vertexArray
    batch_indexArray batch_transformArray batch_idArray batch_drawParameters].
  replace (Z.max (byteLength []) min) with min by (unfold byteLength; cbn; lia).
  destruct (renderer_createBuffer_spec s
              (mkBufferDescriptor min (Z.lor COPY_DST VERTEX) None) "vertex" Hok)
    as (s1 & E1 & Hok1 & M1 & R1 & O1 & TD1 & GT1 & ST1 & DP1 & SB1).
  rewrite (bind_Normal _ _ _ _ _ E1).
  destruct (renderer_createBuffer_spec s1
              (mkBufferDescriptor min (Z.lor COPY_DST INDEX) None) "index" Hok1)
    as (s2 & E2 & Hok2 & M2 & R2 & O2 & TD2 & GT2 & ST2 & DP2 & SB2).
  rewrite (bind_Normal _ _ _ _ _ E2).
  destruct (renderer_createBuffer_spec s2
              (mkBufferDescriptor min (Z.lor COPY_DST STORAGE) None) "transform" Hok2)
    as (s3 & E3 & Hok3 & M3 & R3 & O3 & TD3 & GT3 & ST3 & DP3 & SB3).
  rewrite (bind_Normal _ _ _ _ _ E3).
  destruct (renderer_createBuffer_spec s3
              (mkBufferDescriptor min (Z.lor COPY_DST STORAGE) None) "object-index" Hok3)
    as (s4 & E4 & Hok4 & M4 & R4 & O4 & TD4 & GT4 & ST4 & DP4 & SB4).
  rewrite (bind_Normal _ _ _ _ _ E4).
  rewrite !(bind_Normal _ _ _ _ _ (queue_writeBuffer_nil _ _)).
  eexists. split; [reflexivity|].
  change (registered_buffer (with_drawParameters [] s4)) with (registered_buffer s4).
  cbn [with_drawParameters sharedBuffers textureDescriptors gpuTextures sharedTextures
       drawParameters submitted bd_size bd_usage] in *.
  split_and!; try congruence.
  - intros label Hl. unfold batch_labels in Hl.
    rewrite !elem_of_cons, elem_of_nil in Hl.
    destruct Hl as [->|[->|[->|[->|[]]]]]; cbn.
    + rewrite O4, O3, O2 by discriminate. exact R1.
    + rewrite O4, O3 by discriminate. exact R2.
    + rewrite O4 by discriminate. exact R3.
    + exact R4.
  - intros label Hl. unfold batch_labels in Hl.
    rewrite !not_elem_of_cons in Hl. destruct Hl as (? & ? & ? & ? & _).
    rewrite M4, M3, M2, M1. by rewrite !lookup_insert_ne.
  - intros label Hl. unfold batch_labels in Hl.
    rewrite !elem_of_cons, elem_of_nil in Hl.
    rewrite M4, M3, M2, M1.
    destruct Hl as [->|[->|[->|[->|[]]]]];
      repeat first [ rewrite lookup_insert_eq; eauto; fail
                   | rewrite lookup_insert_ne by discriminate ].
Qed.

Lemma new_texture_eq {B} d (k : nat → M B) s :
  (let! r := new_textureDescriptor d in
   let! t := device_createTexture r in k t) s
  = k (length (gpuTextures s))
      (mkState (bufferDescriptors s) (textureDescriptors s ++ [d])
               (gpuBuffers s) (gpuTextures s ++ [mkTexture d false])
               (sharedBuffers s) (sharedTextures s) (drawParameters s) (submitted s)).
Proof.
  unfold new_textureDescriptor, device_createTexture, bind, gets, modify, ret. cbn.
  rewrite list_lookup_middle by reflexivity. reflexivity.
Qed.

Lemma getTexture_registered s label h :
  sharedTextures s !! label = Some h → getTexture label s = Normal (h, s).
Proof. intros H. by apply getTexture_Normal. Qed.

Lemma getBuffer_registered s label h :
  sharedBuffers s !! label = Some h → getBuffer label s = Normal (h, s).
Proof. intros H. by apply getBuffer_Normal. Qed.

(** C6. A scene with zero entities: with a positive minimum allocation, on
    a well-formed registry that holds the four shared textures and the
    camera buffer the renderer creates before the pass, [render] ends
    without an exception; the four batch buffers are registered, live, and of
    exactly the minimum allocation size; the draw-parameter table is empty;
    and the one command buffer submitted holds no draw call. *)
Theorem empty_scene_renders min viewport s color depth object_index normal camera :
  entities (scene viewport) = [] →
  0 < min →
  buffer_handles_ok s →
  sharedTextures s !! "color"%string = Some color →
  sharedTextures s !! "depth"%string = Some depth →
  sharedTextures s !! "object-index"%string = Some object_index →
  sharedTextures s !! "normal"%string = Some normal →
  sharedBuffers s !! "camera"%string = Some camera →
  ∃ s', render min viewport s = Normal (tt, s')
    ∧ (∀ label, label ∈ batch_labels →
         ∃ b, registered_buffer s' label = Some b
              ∧ buf_size b = min ∧ 0 < buf_size b
              ∧ buf_destroyed b = false ∧ buf_label b = Some label)
    ∧ drawParameters s' = []
    ∧ table_rows (drawParameters s') = []
    ∧ submitted s' = submitted s ++ [[]].
Proof.
  intros Hempty Hmin Hok Hcolor Hdepth Hindex Hnormal Hcamera.
  destruct (createMeshBuffer_empty min viewport s Hempty Hmin Hok)
    as (s1 & E1 & Hreg & Hother & Hsome & _ & _ & ST & DP & SB).
  unfold render. rewrite (bind_Normal _ _ _ _ _ E1).
  rewrite <- ST in Hcolor, Hdepth, Hindex, Hnormal.
  rewrite (bind_Normal _ _ _ _ _ (getTexture_registered s1 _ _ Hcolor)).
  rewrite (bind_Normal _ _ _ _ _ (getTexture_registered s1 _ _ Hdepth)).
  rewrite (bind_Normal _ _ _ _ _ (getTexture_registered s1 _ _ Hindex)).
  rewrite (bind_Normal _ _ _ _ _ (getTexture_registered s1 _ _ Hnormal)).
  destruct (Hsome "object-index"%string) as [ho Ho]; [unfold batch_labels; set_solver|].
  destruct (Hsome "vertex"%string) as [hv Hv]; [unfold batch_labels; set_solver|].
  destruct (Hsome "index"%string) as [hi Hi]; [unfold batch_labels; set_solver|].
  destruct (Hsome "transform"%string) as [ht Ht]; [unfold batch_labels; set_solver|].
  assert (Hc : sharedBuffers s1 !! "camera"%string = Some camera).
  { rewrite Hother; [assumption|]. unfold batch_labels.
    rewrite !not_elem_of_cons. split_and!; try discriminate. apply not_elem_of_nil. }
  rewrite (bind_Normal _ _ _ _ _ (getBuffer_registered s1 _ _ Ho)).
  rewrite (bind_Normal _ _ _ _ _ (getBuffer_registered s1 _ _ Hc)).
  rewrite (bind_Normal _ _ _ _ _ (getBuffer_registered s1 _ _ Hv)).
  rewrite (bind_Normal _ _ _ _ _ (getBuffer_registered s1 _ _ Hi)).
  rewrite (bind_Normal _ _ _ _ _ (getBuffer_registered s1 _ _ Ht)).
  rewrite !new_texture_eq.
  unfold bind, gets, modify, GPUTexture_destroy. cbn. rewrite DP, SB. cbn.
  eexists. split; [reflexivity|]. cbn.
  split_and!; try reflexivity.
  intros label Hl. specialize (Hreg label Hl).
  eexists. split; [exact Hreg|]. cbn. auto.
Qed.

Lemma frame_start_ok : buffer_handles_ok frame_start.
Proof.
  split; cbn.
  - intros label h H. apply lookup_singleton_Some in H as [_ <-]. lia.
  - intros l1 l2 h H1 H2.
    apply lookup_singleton_Some in H1 as [<- _].
    apply lookup_singleton_Some in H2 as [<- _]. reflexivity.
Qed.

Lemma empty_scene_renders_witness :
  entities (scene empty_viewport) = []
  ∧ 0 < 32
  ∧ buffer_handles_ok frame_start
  ∧ sharedTextures frame_start !! "color"%string = Some 0%nat
  ∧ sharedTextures frame_start !! "depth"%string = Some 1%nat
  ∧ sharedTextures frame_start !! "object-index"%string = Some 2%nat
  ∧ sharedTextures frame_start !! "normal"%string = Some 3%nat
  ∧ sharedBuffers frame_start !! "camera"%string = Some 0%nat
  ∧ ∃ s', render 32 empty_viewport frame_start = Normal (tt, s')
      ∧ (∀ label, label ∈ batch_labels →
           ∃ b, registered_buffer s' label = Some b
                ∧ buf_size b = 32 ∧ 0 < buf_size b
                ∧ buf_destroyed b = false ∧ buf_label b = Some label)
      ∧ drawParameters s' = []
      ∧ table_rows (drawParameters s') = []
      ∧ submitted s' = submitted frame_start ++ [[]].
Proof.
  split; [reflexivity|]. split; [lia|]. split; [exact frame_start_ok|].
  do 5 (split; [reflexivity|]).
  apply (empty_scene_renders 32 empty_viewport frame_start 0 1 2 3 0);
    first [reflexivity | lia | exact frame_start_ok].
Defined.

(** ** General facts about the batcher *)

Lemma draw_loop_fuel fuel extra i table :
  (length table ≤ i + fuel)%nat →
  draw_loop (fuel + extra) i table = draw_loop fuel i table.
Proof.
  revert i. induction fuel as [|fuel IH]; intros i Hlen; cbn.
  - destruct extra; cbn; [reflexivity|].
    rewrite bool_decide_eq_false_2 by lia. reflexivity.
  - case_bool_decide; [|reflexivity]. f_equal. apply IH. lia.
Qed.

Lemma typed_set_Normal target source offset r :
  typed_set target source offset = Normal r →
  0 ≤ offset
  ∧ offset + Z.of_nat (length source) ≤ Z.of_nat (length target)
  ∧ r = take (Z.to_nat offset) target ++ source
        ++ drop (Z.to_nat offset + length source) target.
Proof.
  unfold typed_set. case_bool_decide as H; [discriminate|].
  intros [= <-]. split_and!; [lia|lia|reflexivity].
Qed.

Lemma typed_set_fits target source offset :
  0 ≤ offset →
  offset + Z.of_nat (length source) ≤ Z.of_nat (length target) →
  typed_set target source offset
  = Normal (take (Z.to_nat offset) target ++ source
            ++ drop (Z.to_nat offset + length source) target).
Proof.
  intros H0 H1. unfold typed_set. rewrite bool_decide_eq_false_2; [reflexivity|lia].
Qed.

Lemma typed_set_length target source offset r :
  typed_set target source offset = Normal r → length r = length target.
Proof.
  intros H. apply typed_set_Normal in H as (H0 & H1 & ->).
  rewrite !length_app, length_take, length_drop. lia.
Qed.

Lemma uint32_set_length target source offset r :
  uint32_set target source offset = Normal r → length r = length target.
Proof. apply typed_set_length. Qed.

Lemma length_new_array n : 0 ≤ n → Z.of_nat (length (new_array n)) = n.
Proof. intros H. unfold new_array. rewrite length_replicate. lia. Qed.

(** An invariant of the loop state holds after [forEach] if every call of
    the callback keeps it. *)
Lemma forEach_invariant {A S} (P : S → Prop) (f : S → A → Completion S) l acc r :
  (∀ acc x acc', P acc → f acc x = Normal acc' → P acc') →
  P acc → forEach f l acc = Normal r → P r.
Proof.
  intros Hstep. revert acc. induction l as [|x l IH]; intros acc HP Hrun; cbn in Hrun.
  - by injection Hrun as <-.
  - destruct (f acc x) as [acc'|e] eqn:Hf; cbn in Hrun; [|discriminate].
    eapply IH; [|exact Hrun]. by eapply Hstep.
Qed.

Lemma instances_get_None mesh m :
  instances_get mesh m = None ↔ mesh_ref mesh ∉ group_keys m.
Proof.
  induction m as [|[k v] m IH]; cbn.
  - split; [intros _; apply not_elem_of_nil|reflexivity].
  - rewrite not_elem_of_cons. case_bool_decide as Hk; cbn.
    + split; [discriminate|]. intros [Hne _]. congruence.
    + rewrite IH. split; [intros ?; split; [congruence|assumption]|by intros [_ ?]].
Qed.

Lemma instances_set_new mesh value m :
  instances_get mesh m = None → instances_set mesh value m = m ++ [(mesh, value)].
Proof.
  induction m as [|[k v] m IH]; cbn; [reflexivity|].
  case_bool_decide; [discriminate|]. intros Hm. by rewrite IH.
Qed.

Lemma group_keys_increment mesh m :
  group_keys (instances_increment mesh m) = group_keys m.
Proof.
  unfold group_keys. induction m as [|[k v] m IH]; cbn; [reflexivity|].
  case_bool_decide; cbn; [reflexivity|]. f_equal. exact IH.
Qed.

Lemma vertex_total_increment mesh m :
  vertex_total (instances_increment mesh m) = vertex_total m.
Proof.
  induction m as [|[k v] m IH]; cbn; [reflexivity|].
  case_bool_decide; cbn; [reflexivity|]. f_equal. exact IH.
Qed.

Lemma index_total_increment mesh m :
  index_total (instances_increment mesh m) = index_total m.
Proof.
  induction m as [|[k v] m IH]; cbn; [reflexivity|].
  case_bool_decide; cbn; [reflexivity|]. f_equal. exact IH.
Qed.

Lemma count_total_increment mesh m :
  is_Some (instances_get mesh m) →
  count_total (instances_increment mesh m) = count_total m + 1.
Proof.
  unfold count_total. induction m as [|[k v] m IH]; cbn.
  - by intros [? ?].
  - case_bool_decide; cbn; [lia|]. intros Hm. rewrite IH by assumption. lia.
Qed.

Lemma groups_ok_increment mesh m :
  groups_ok m → groups_ok (instances_increment mesh m).
Proof.
  unfold groups_ok. induction m as [|[k v] m IH]; cbn; [done|].
  intros H. apply Forall_cons in H as [[Hv1 Hv2] Hm]. cbn in *.
  case_bool_decide; apply Forall_cons; cbn; auto with lia.
Qed.

Lemma vertex_total_app m1 m2 : vertex_total (m1 ++ m2) = vertex_total m1 + vertex_total m2.
Proof.
  unfold vertex_total. induction m1 as [|g m1 IH]; cbn; [reflexivity|]. rewrite IH. lia.
Qed.

Lemma index_total_app m1 m2 : index_total (m1 ++ m2) = index_total m1 + index_total m2.
Proof.
  unfold index_total. induction m1 as [|g m1 IH]; cbn; [reflexivity|]. rewrite IH. lia.
Qed.

Lemma count_total_app m1 m2 : count_total (m1 ++ m2) = count_total m1 + count_total m2.
Proof.
  unfold count_total. induction m1 as [|g m1 IH]; cbn; [reflexivity|]. rewrite IH. lia.
Qed.

(** One call of the first loop's callback. *)
Lemma scan_entity_step acc entry acc' :
  scan_entity acc entry = Normal acc' → scan_ok acc →
  scan_ok acc'
  ∧ length (transformArray acc') = length (transformArray acc)
  ∧ count_total (instances acc')
    = count_total (instances acc) + (if is_mesh_instance entry.2 then 1 else 0)
  ∧ (∀ ref, ref ∈ group_keys (instances acc')
       ↔ ref ∈ group_keys (instances acc) ∨ ref ∈ mesh_refs (mkScene [entry])).
Proof.
  unfold scan_entity, mesh_refs. destruct entry as [name [id mesh wt|id]]; cbn.
  - destruct (typed_set (transformArray acc) wt id) as [ta|e] eqn:Hset; cbn; [|discriminate].
    apply typed_set_length in Hset.
    intros Hacc' (Hnd & Hv & Hi & Hg).
    destruct (instances_get mesh (instances acc)) as [g|] eqn:Hget;
      injection Hacc' as <-; cbn.
    + assert (Hin : mesh_ref mesh ∈ group_keys (instances acc)).
      { destruct (decide (mesh_ref mesh ∈ group_keys (instances acc))); [assumption|].
        apply instances_get_None in n. congruence. }
      split_and!.
      * split_and!; cbn.
        -- by rewrite group_keys_increment.
        -- by rewrite vertex_total_increment.
        -- by rewrite index_total_increment.
        -- by apply groups_ok_increment.
      * assumption.
      * apply count_total_increment. rewrite Hget. eauto.
      * intros ref. rewrite group_keys_increment. set_solver.
    + rewrite (instances_set_new _ _ _ Hget).
      apply instances_get_None in Hget.
      split_and!.
      * split_and!; cbn.
        -- unfold group_keys. rewrite fmap_app. cbn.
           apply NoDup_app. split_and!; [assumption| |apply NoDup_singleton].
           intros x Hx. rewrite list_elem_of_singleton. intros ->. contradiction.
        -- rewrite vertex_total_app. cbn. lia.
        -- rewrite index_total_app. cbn. lia.
        -- apply Forall_app. split; [assumption|].
           apply Forall_singleton. cbn. split; [reflexivity|lia].
      * assumption.
      * rewrite count_total_app. cbn. lia.
      * intros ref. unfold group_keys. rewrite fmap_app. cbn. set_solver.
  - intros [= <-] Hok. split_and!; [assumption|reflexivity|lia|]. set_solver.
Qed.

(** The first loop as a whole. *)
Lemma scan_entities_spec l acc r :
  forEach scan_entity l acc = Normal r → scan_ok acc →
  scan_ok r
  ∧ length (transformArray r) = length (transformArray acc)
  ∧ count_total (instances r)
    = count_total (instances acc) + mesh_instance_count (mkScene l)
  ∧ (∀ ref, ref ∈ group_keys (instances r)
       ↔ ref ∈ group_keys (instances acc) ∨ ref ∈ mesh_refs (mkScene l)).
Proof.
  revert acc. induction l as [|entry l IH]; intros acc Hrun Hok; cbn in Hrun.
  - injection Hrun as <-. split_and!; [assumption|reflexivity| |].
    + unfold mesh_instance_count. cbn. lia.
    + intros ref. unfold mesh_refs. cbn. set_solver.
  - destruct (scan_entity acc entry) as [acc1|e] eqn:Hstep; cbn in Hrun; [|discriminate].
    destruct (scan_entity_step _ _ _ Hstep Hok) as (Hok1 & Hlen1 & Hcount1 & Hkeys1).
    destruct (IH _ Hrun Hok1) as (Hokr & Hlenr & Hcountr & Hkeysr).
    split_and!; [assumption|congruence| |].
    + rewrite Hcountr, Hcount1. unfold mesh_instance_count. cbn [entities].
      rewrite filter_cons. destruct (is_mesh_instance entry.2).
      * rewrite decide_True by reflexivity. rewrite length_cons. lia.
      * rewrite decide_False by discriminate. lia.
    + intros ref. rewrite Hkeysr, Hkeys1. unfold mesh_refs. cbn.
      destruct entry as [name [id mesh wt|id]]; cbn; set_solver.
Qed.

(** The first loop does not throw when every mesh instance has its id in
    range (the offset it writes at is the id itself). *)
Lemma scan_entities_total size l acc :
  Forall (λ e, entity_in_range size e.2) l →
  length (transformArray acc) = (16 * size)%nat →
  ∃ r, forEach scan_entity l acc = Normal r.
Proof.
  revert acc. induction l as [|[name e] l IH]; intros acc Hl Hlen; cbn.
  - eauto.
  - apply Forall_cons in Hl as [He Hl]. cbn in He.
    assert (Hstep : ∃ acc', scan_entity acc (name, e) = Normal acc'
                            ∧ length (transformArray acc') = (16 * size)%nat).
    { unfold scan_entity. destruct e as [id mesh wt|id]; cbn; [|eauto].
      destruct He as [Hid Hwt].
      rewrite typed_set_fits by lia. cbn.
      destruct (instances_get mesh (instances acc)); eexists; (split; [reflexivity|]);
        cbn; rewrite !length_app, length_take, length_drop; lia. }
    destruct Hstep as (acc' & -> & Hlen'). cbn. by apply IH.
Qed.

Lemma vertex_total_nonneg m : 0 ≤ vertex_total m.
Proof. unfold vertex_total. induction m; cbn; lia. Qed.

Lemma index_total_nonneg m : 0 ≤ index_total m.
Proof. unfold index_total. induction m; cbn; lia. Qed.

Lemma count_total_nonneg m : groups_ok m → 0 ≤ count_total m.
Proof.
  unfold count_total. induction 1 as [|g m [_ ?] _ IHm]; cbn; lia.
Qed.

(** The second loop: it does not throw when the arrays have room for what
    the groups hold, and it keeps the lengths of the four arrays. *)
Lemma fill_groups_spec m acc :
  groups_ok m →
  0 ≤ vertexOffset acc →
  vertexOffset acc + vertex_total m ≤ Z.of_nat (length (vertexArray acc)) →
  0 ≤ indexOffset acc →
  indexOffset acc + index_total m ≤ Z.of_nat (length (indexArray acc)) →
  0 ≤ objectOffset acc →
  objectOffset acc + count_total m ≤ Z.of_nat (length (idArray acc)) →
  (m ≠ [] → (5 ≤ length (drawTable acc))%nat) →
  ∃ r, forEach fill_group m acc = Normal r
    ∧ length (vertexArray r) = length (vertexArray acc)
    ∧ length (indexArray r) = length (indexArray acc)
    ∧ length (idArray r) = length (idArray acc)
    ∧ length (drawTable r) = length (drawTable acc).
Proof.
  revert acc. induction m as [|[mesh value] m IH]; intros acc Hg Hv0 Hv Hi0 Hi Ho0 Ho Ht.
  - cbn. exists acc. split_and!; reflexivity.
  - apply Forall_cons in Hg as [[Hids Hcount] Hg]. cbn in Hids, Hcount.
    unfold vertex_total, index_total, count_total in Hv, Hi, Ho. cbn in Hv, Hi, Ho.
    fold (vertex_total m) in Hv. fold (index_total m) in Hi. fold (count_total m) in Ho.
    pose proof (vertex_total_nonneg m).
    pose proof (index_total_nonneg m).
    pose proof (count_total_nonneg m Hg).
    specialize (Ht ltac:(discriminate)).
    cbn [forEach]. unfold fill_group, uint32_set.
    rewrite (typed_set_fits (vertexArray acc)) by lia. cbn [cbind].
    rewrite (typed_set_fits (indexArray acc)) by (rewrite ?length_fmap; lia). cbn [cbind].
    rewrite (typed_set_fits (idArray acc)) by (rewrite ?length_fmap; lia). cbn [cbind].
    rewrite (typed_set_fits (drawTable acc)) by (rewrite ?length_fmap; cbn [length]; lia).
    cbn [cbind].
    edestruct IH as (r & -> & L1 & L2 & L3 & L4); [exact Hg| | | | | | | |].
    all: cbn [vertexOffset indexOffset objectOffset vertexArray indexArray idArray drawTable].
    all: rewrite ?length_app, ?length_take, ?length_drop, ?length_fmap.
    all: try lia.
    exists r. split; [reflexivity|].
    cbn [vertexArray indexArray idArray drawTable] in *.
    rewrite ?length_app, ?length_take, ?length_drop, ?length_fmap in *.
    cbn in *. split_and!; lia.
Qed.

Lemma length_draw_loop fuel i k table :
  length table = (i + 5 * k)%nat → (k ≤ fuel)%nat →
  length (draw_loop fuel i table) = k.
Proof.
  revert i k. induction fuel as [|fuel IH]; intros i k Hlen Hk; cbn.
  - lia.
  - case_bool_decide as Hi.
    + destruct k as [|k]; [lia|]. cbn. f_equal. apply IH; lia.
    + cbn. lia.
Qed.

Lemma length_table_rows k table :
  length table = (5 * k)%nat → length (table_rows table) = k.
Proof.
  intros H. unfold table_rows. apply length_draw_loop; lia.
Qed.

(** On a scene whose mesh instances have ids in range the batcher returns;
    the transform array has 16 floats per entity, the object-index array one
    slot per entity, and the table one row per distinct mesh. *)
Lemma build_arrays_lengths scene :
  Forall (λ e, entity_in_range (length (entities scene)) e.2) (entities scene) →
  ∃ batch, build_arrays scene = Normal batch
    ∧ length (batch_transformArray batch) = (16 * length (entities scene))%nat
    ∧ length (batch_idArray batch) = length (entities scene)
    ∧ length (batch_drawParameters batch) = (5 * distinct_mesh_count scene)%nat
    ∧ length (table_rows (batch_drawParameters batch)) = distinct_mesh_count scene.
Proof.
  intros Hrange. unfold build_arrays.
  set (size := Z.of_nat (length (entities scene))).
  set (start := mkScan 0 0 (new_array (size * 16)) []).
  assert (Hstart : length (transformArray start) = (16 * length (entities scene))%nat).
  { cbn. unfold new_array. rewrite length_replicate. lia. }
  assert (Hok : scan_ok start).
  { split_and!; cbn; try reflexivity; [apply NoDup_nil_2|apply Forall_nil_2]. }
  destruct (scan_entities_total _ _ start Hrange Hstart) as (scan & Hscan).
  rewrite Hscan. cbn [cbind].
  destruct (scan_entities_spec _ _ _ Hscan Hok) as ((Hnd & Hvs & His & Hg) & Hlen & Hcount & Hkeys).
  assert (Hk : length (instances scan) = distinct_mesh_count scene).
  { unfold distinct_mesh_count.
    rewrite <- (length_fmap (λ g, mesh_ref g.1) (instances scan)).
    apply Permutation_length, NoDup_Permutation;
      [exact Hnd|apply NoDup_remove_dups|].
    intros ref. rewrite elem_of_remove_dups.
    fold (group_keys (instances scan)). rewrite Hkeys. cbn.
    destruct scene. set_solver. }
  assert (Hn : count_total (instances scan) ≤ size).
  { rewrite Hcount. cbn. unfold mesh_instance_count, size. destruct scene as [l]. cbn.
    pose proof (length_filter (λ e : string * Entity, is_mesh_instance e.2 = true) l). lia. }
  pose proof (vertex_total_nonneg (instances scan)).
  pose proof (index_total_nonneg (instances scan)).
  edestruct (fill_groups_spec (instances scan)) as (fill & -> & L1 & L2 & L3 & L4);
    [exact Hg|..]; cbn [vertexOffset indexOffset objectOffset vertexArray indexArray
                        idArray drawTable].
  all: try (unfold new_array; rewrite length_replicate; lia).
  all: try lia.
  - intros Hne. unfold new_array. rewrite length_replicate.
    destruct (instances scan); [done|]. cbn. lia.
  - eexists. split; [reflexivity|]. cbn in *.
    assert (Ht : length (drawTable fill) = (5 * distinct_mesh_count scene)%nat).
    { rewrite L4. unfold new_array. rewrite length_replicate. lia. }
    split_and!.
    + congruence.
    + rewrite L3. unfold new_array. rewrite length_replicate. lia.
    + exact Ht.
    + by apply length_table_rows.
Qed.

(** ** Well-formed registries under every operation *)

Section Soundness.

Context {A : Type} (label : A → option string) (destroyed : A → bool)
        (destroy : A → A).
Hypothesis label_destroy : ∀ a, label (destroy a) = label a.
Hypothesis destroyed_destroy : ∀ a, destroyed (destroy a) = true.

Lemma sound_map_lt objs m L h :
  sound_map label destroyed objs m → m !! L = Some h → (h < length objs)%nat.
Proof. intros Hs Hm. destruct (Hs _ _ Hm) as (a & Ha & _). by eapply lookup_lt_Some. Qed.

Lemma sound_map_inj objs m L1 L2 h :
  sound_map label destroyed objs m → m !! L1 = Some h → m !! L2 = Some h → L1 = L2.
Proof.
  intros Hs H1 H2.
  destruct (Hs _ _ H1) as (a1 & Ha1 & Hl1 & _).
  destruct (Hs _ _ H2) as (a2 & Ha2 & Hl2 & _). congruence.
Qed.

Lemma sound_map_empty : sound_map label destroyed [] ∅.
Proof. intros L h H. by rewrite lookup_empty in H. Qed.

(** The object list after a creation: what is at the new handle, and what
    is at a handle the map held for another label. *)
Lemma lookup_created objs m new L :
  sound_map label destroyed objs m →
  destroy_old destroy (m !! L) (objs ++ [new]) !! length objs = Some new.
Proof.
  intros Hs. destruct (m !! L) as [o|] eqn:Ho; cbn.
  - pose proof (sound_map_lt _ _ _ _ Hs Ho).
    rewrite list_lookup_alter_ne by lia. by apply list_lookup_middle.
  - by apply list_lookup_middle.
Qed.

Lemma lookup_other_label objs objs' m L L' h :
  sound_map label destroyed objs m →
  L' ≠ L → m !! L' = Some h →
  destroy_old destroy (m !! L) (objs ++ objs') !! h = objs !! h.
Proof.
  intros Hs Hne Hh. pose proof (sound_map_lt _ _ _ _ Hs Hh) as Hlt.
  destruct (m !! L) as [o|] eqn:Ho; cbn.
  - rewrite list_lookup_alter_ne.
    + by apply lookup_app_l.
    + intros ->. destruct Hne. by eapply sound_map_inj.
  - by apply lookup_app_l.
Qed.

Lemma sound_map_create objs m new L :
  sound_map label destroyed objs m →
  label new = Some L → destroyed new = false →
  sound_map label destroyed
            (destroy_old destroy (m !! L) (objs ++ [new])) (<[L := length objs]> m).
Proof.
  intros Hs Hlab Hlive L' h Hh.
  destruct (decide (L = L')) as [<-|Hne].
  - rewrite lookup_insert_eq in Hh. injection Hh as <-.
    exists new. split; [by apply lookup_created|]. by split.
  - rewrite lookup_insert_ne in Hh by assumption.
    destruct (Hs _ _ Hh) as (a & Ha & Hl & Hd).
    exists a. split; [|by split].
    rewrite (lookup_other_label objs [new] m L L' h) by auto. exact Ha.
Qed.

Lemma sound_map_delete objs m L :
  sound_map label destroyed objs m → sound_map label destroyed objs (delete L m).
Proof.
  intros Hs L' h Hh. apply lookup_delete_Some in Hh as [_ Hh]. by apply Hs.
Qed.

Lemma sound_map_destroy_delete objs m L :
  sound_map label destroyed objs m →
  sound_map label destroyed (destroy_old destroy (m !! L) objs) (delete L m).
Proof.
  intros Hs L' h Hh. apply lookup_delete_Some in Hh as [Hne Hh].
  destruct (Hs _ _ Hh) as (a & Ha & Hl & Hd).
  exists a. split; [|by split].
  rewrite <- (app_nil_r objs) at 1.
  rewrite (lookup_other_label objs [] m L L' h) by auto. exact Ha.
Qed.

Lemma accounted_empty : accounted label destroyed [] ∅.
Proof. intros h a H. discriminate. Qed.

Lemma accounted_create objs m new L :
  sound_map label destroyed objs m → accounted label destroyed objs m →
  label new = Some L →
  accounted label destroyed
            (destroy_old destroy (m !! L) (objs ++ [new])) (<[L := length objs]> m).
Proof.
  intros Hs Hacc Hlab h a Ha.
  destruct (decide (h = length objs)) as [->|Hh].
  - rewrite lookup_created in Ha by assumption. injection Ha as <-.
    exists L. split; [assumption|]. intros _. by rewrite lookup_insert_eq.
  - assert (Hlt : (h < length objs)%nat).
    { apply lookup_lt_Some in Ha.
      destruct (m !! L); cbn in Ha; rewrite ?length_alter, length_app in Ha;
        cbn in Ha; lia. }
    destruct (m !! L) as [o|] eqn:Ho; cbn in Ha.
    + destruct (decide (o = h)) as [->|Hoh].
      * rewrite list_lookup_alter_eq, lookup_app_l in Ha by assumption.
        destruct (objs !! h) as [a0|] eqn:Ha0; [|discriminate].
        injection Ha as <-. destruct (Hacc _ _ Ha0) as (L0 & HL0 & _).
        exists L0. rewrite label_destroy, destroyed_destroy. split; [assumption|discriminate].
      * rewrite list_lookup_alter_ne, lookup_app_l in Ha by assumption.
        destruct (Hacc _ _ Ha) as (L0 & HL0 & Hreg).
        exists L0. split; [assumption|]. intros Hd. specialize (Hreg Hd).
        rewrite lookup_insert_ne; [assumption|]. congruence.
    + rewrite lookup_app_l in Ha by assumption.
      destruct (Hacc _ _ Ha) as (L0 & HL0 & Hreg).
      exists L0. split; [assumption|]. intros Hd. specialize (Hreg Hd).
      rewrite lookup_insert_ne; [assumption|]. congruence.
Qed.

Lemma accounted_destroy_delete objs m L :
  accounted label destroyed objs m →
  accounted label destroyed (destroy_old destroy (m !! L) objs) (delete L m).
Proof.
  intros Hacc h a Ha.
  destruct (m !! L) as [o|] eqn:Ho; cbn in Ha.
  - destruct (decide (o = h)) as [->|Hoh].
    + rewrite list_lookup_alter_eq in Ha.
      destruct (objs !! h) as [a0|] eqn:Ha0; [|discriminate].
      injection Ha as <-. destruct (Hacc _ _ Ha0) as (L0 & HL0 & _).
      exists L0. rewrite label_destroy, destroyed_destroy. split; [assumption|discriminate].
    + rewrite list_lookup_alter_ne in Ha by assumption.
      destruct (Hacc _ _ Ha) as (L0 & HL0 & Hreg).
      exists L0. split; [assumption|]. intros Hd. specialize (Hreg Hd).
      rewrite lookup_delete_ne; [assumption|]. congruence.
  - destruct (Hacc _ _ Ha) as (L0 & HL0 & Hreg).
    exists L0. split; [assumption|]. intros Hd. specialize (Hreg Hd).
    rewrite lookup_delete_ne; [assumption|]. congruence.
Qed.

End Soundness.

Lemma registry_sound_handles_ok s : registry_sound s → buffer_handles_ok s.
Proof.
  intros [Hb _]. split.
  - intros L h. by apply (sound_map_lt buf_label buf_destroyed).
  - intros L1 L2 h. by apply (sound_map_inj buf_label buf_destroyed (gpuBuffers s)).
Qed.

Lemma perform_sound c s :
  registry_sound s → textures_accounted s →
  ∃ s', perform c s = Normal (tt, s') ∧ registry_sound s' ∧ textures_accounted s'.
Proof.
  intros [Hb Ht] Hacc. destruct c as [d L|d L|L|L].
  - rewrite perform_CreateBuffer_eq. eexists. split; [reflexivity|].
    split; [split|]; cbn; try assumption.
    by apply (sound_map_create _ _ destroy_buffer).
  - rewrite perform_CreateTexture_eq. eexists. split; [reflexivity|].
    split; [split|]; cbn; try assumption.
    + by apply (sound_map_create _ _ destroy_texture).
    + by apply (accounted_create _ _ destroy_texture).
  - cbn [perform]. rewrite destroyBuffer_eq. eexists. split; [reflexivity|].
    split; [split|]; cbn; try assumption.
    by apply sound_map_delete.
  - cbn [perform]. rewrite destroyTexture_eq. eexists. split; [reflexivity|].
    split; [split|]; cbn; try assumption.
    + by apply sound_map_destroy_delete.
    + by apply (accounted_destroy_delete _ _ destroy_texture).
Qed.

Lemma perform_all_sound calls s :
  registry_sound s → textures_accounted s →
  ∃ s', perform_all calls s = Normal (tt, s') ∧ registry_sound s' ∧ textures_accounted s'.
Proof.
  revert s. induction calls as [|c calls IH]; intros s Hs Hacc.
  - exists s. by split.
  - destruct (perform_sound c s Hs Hacc) as (s1 & E1 & Hs1 & Hacc1).
    cbn [perform_all]. rewrite (bind_Normal _ _ _ _ _ E1). by apply IH.
Qed.

Lemma initial_sound : registry_sound initial ∧ textures_accounted initial.
Proof.
  split; [split|]; cbn; first [apply sound_map_empty | apply accounted_empty].
Qed.

Lemma state_after_sound calls :
  registry_sound (state_after calls) ∧ textures_accounted (state_after calls).
Proof.
  destruct initial_sound as [Hs Hacc].
  destruct (perform_all_sound calls initial Hs Hacc) as (s & E & Hs' & Hacc').
  unfold state_after. rewrite E. by split.
Qed.

(** X1. After any sequence of registry calls, creations and destructions
    alike, [getBuffer] and [getTexture] leave the state as it is, and a
    handle they return denotes a device object that carries the label asked
    for and has not been destroyed. *)
Theorem get_returns_live_resource calls :
  ∃ s, perform_all calls initial = Normal (tt, s)
    ∧ (∀ label h s', getBuffer label s = Normal (h, s') →
         s' = s ∧ live_buffer s label h)
    ∧ (∀ label h s', getTexture label s = Normal (h, s') →
         s' = s ∧ live_texture s label h).
Proof.
  destruct initial_sound as [Hs Hacc].
  destruct (perform_all_sound calls initial Hs Hacc) as (s & E & [Hb Ht] & _).
  exists s. split; [assumption|]. split.
  - intros label h s' Hg. apply getBuffer_Normal in Hg as [Hg ->].
    split; [reflexivity|]. by apply Hb.
  - intros label h s' Hg. apply getTexture_Normal in Hg as [Hg ->].
    split; [reflexivity|]. by apply Ht.
Qed.

(** X2. Textures never leak: after any sequence of registry calls, the
    textures of the device that have not been destroyed are exactly the ones
    the registry holds, each under its own label. *)
Theorem textures_never_leak calls :
  ∃ s, perform_all calls initial = Normal (tt, s)
    ∧ ∀ label h, live_texture s label h ↔ sharedTextures s !! label = Some h.
Proof.
  destruct initial_sound as [Hs Hacc].
  destruct (perform_all_sound calls initial Hs Hacc) as (s & E & [_ Ht] & Hacc').
  exists s. split; [assumption|]. intros label h. split.
  - intros (t & Hh & Hl & Hd).
    destruct (Hacc' _ _ Hh) as (L & HL & Hreg). cbn in HL.
    assert (L = label) as -> by congruence. by apply Hreg.
  - apply Ht.
Qed.

(** X3. [destroyBuffer] only forgets the entry.  On a well-formed registry
    that holds a buffer under a label, destroying the label and creating a
    buffer under it again leaves both buffers live on the device, both
    carrying the label; [getBuffer] returns the new one. *)
Theorem destroyBuffer_then_create_keeps_both s label h descriptor d :
  registry_sound s →
  sharedBuffers s !! label = Some h →
  bufferDescriptors s !! descriptor = Some d →
  ∃ n s', (destroyBuffer label ;;; createBuffer descriptor label) s = Normal (n, s')
    ∧ n ≠ h
    ∧ live_buffer s' label h
    ∧ live_buffer s' label n
    ∧ getBuffer label s' = Normal (n, s').
Proof.
  intros [Hb _] Hh Hd.
  rewrite (bind_Normal _ _ _ _ _ (destroyBuffer_eq s label)).
  rewrite (createBuffer_eq _ _ d) by exact Hd. cbn.
  rewrite lookup_delete_eq. cbn.
  destruct (Hb _ _ Hh) as (b & Hlook & Hlab & Hlive).
  pose proof (lookup_lt_Some _ _ _ Hlook) as Hlt.
  eexists _, _. split; [reflexivity|]. split_and!.
  - lia.
  - exists b. cbn. split; [|by split]. by rewrite lookup_app_l.
  - eexists. cbn. split; [by apply list_lookup_middle|]. by split.
  - apply getBuffer_Normal. cbn. by rewrite lookup_insert_eq.
Qed.

Lemma destroyBuffer_then_create_keeps_both_witness :
  registry_sound (state_after frame_calls)
  ∧ sharedBuffers (state_after frame_calls) !! "camera"%string = Some 0%nat
  ∧ bufferDescriptors (state_after frame_calls) !! 0%nat
    = Some (mkBufferDescriptor 144 72 (Some "camera"%string))
  ∧ ∃ n s', (destroyBuffer "camera" ;;; createBuffer 0 "camera") (state_after frame_calls)
            = Normal (n, s')
    ∧ n ≠ 0%nat
    ∧ live_buffer s' "camera" 0
    ∧ live_buffer s' "camera" n
    ∧ getBuffer "camera" s' = Normal (n, s').
Proof.
  split; [apply state_after_sound|]. split; [reflexivity|]. split; [reflexivity|].
  apply (destroyBuffer_then_create_keeps_both (state_after frame_calls) "camera" 0 0
           (mkBufferDescriptor 144 72 (Some "camera"%string)));
    first [reflexivity | apply state_after_sound].
Defined.

(** X4. Destroying a label the registry does not hold changes nothing, for
    buffers and for textures, and raises no error. *)
Theorem destroy_absent_label_changes_nothing s buffer_label texture_label :
  sharedBuffers s !! buffer_label = None →
  sharedTextures s !! texture_label = None →
  destroyBuffer buffer_label s = Normal (tt, s)
  ∧ destroyTexture texture_label s = Normal (tt, s).
Proof.
  intros Hb Ht. split.
  - rewrite destroyBuffer_eq. rewrite delete_id by assumption. by destruct s.
  - rewrite destroyTexture_eq. rewrite Ht, delete_id by assumption. by destruct s.
Qed.

Lemma destroy_absent_label_changes_nothing_witness :
  sharedBuffers (state_after frame_calls) !! "vertex"%string = None
  ∧ sharedTextures (state_after frame_calls) !! "vertex"%string = None
  ∧ destroyBuffer "vertex" (state_after frame_calls) = Normal (tt, state_after frame_calls)
  ∧ destroyTexture "vertex" (state_after frame_calls) = Normal (tt, state_after frame_calls).
Proof.
  split; [reflexivity|]. split; [reflexivity|].
  apply (destroy_absent_label_changes_nothing (state_after frame_calls) "vertex" "vertex");
    reflexivity.
Defined.

(** X5. [destroyTexture] on a well-formed registry that holds a texture
    under the label: the texture is destroyed on the device, [getTexture]
    of the label throws afterwards, the textures of all other labels and all
    buffers are as before, and the registry is still well formed. *)
Theorem destroyTexture_releases s label h :
  registry_sound s →
  sharedTextures s !! label = Some h →
  ∃ s' t, destroyTexture label s = Normal (tt, s')
    ∧ gpuTextures s' !! h = Some t ∧ tex_destroyed t = true
    ∧ getTexture label s'
      = Throw (Error ("There is no texture with the label: " +:+ label))
    ∧ (∀ other, other ≠ label → registered_texture s' other = registered_texture s other)
    ∧ gpuBuffers s' = gpuBuffers s
    ∧ sharedBuffers s' = sharedBuffers s
    ∧ registry_sound s'.
Proof.
  intros [Hb Ht] Hh. rewrite destroyTexture_eq.
  destruct (Ht _ _ Hh) as (t & Hlook & Hlab & Hlive).
  eexists _, (destroy_texture t). split; [reflexivity|]. cbn.
  split_and!; try reflexivity.
  - rewrite Hh. cbn. by rewrite list_lookup_alter_eq, Hlook.
  - unfold getTexture, bind, gets, throw. cbn. by rewrite lookup_delete_eq.
  - intros other Hne. unfold registered_texture. cbn.
    rewrite lookup_delete_ne by congruence.
    destruct (sharedTextures s !! other) as [h'|] eqn:Ho; [|reflexivity].
    rewrite <- (app_nil_r (gpuTextures s)) at 1.
    by rewrite (lookup_other_label (λ t, td_label (tex_descriptor t)) tex_destroyed
                  destroy_texture _ [] _ label other h').
  - split; cbn; [assumption|]. by apply sound_map_destroy_delete.
Qed.

Lemma destroyTexture_releases_witness :
  registry_sound (state_after frame_calls)
  ∧ sharedTextures (state_after frame_calls) !! "depth"%string = Some 1%nat
  ∧ ∃ s' t, destroyTexture "depth" (state_after frame_calls) = Normal (tt, s')
    ∧ gpuTextures s' !! 1%nat = Some t ∧ tex_destroyed t = true
    ∧ getTexture "depth" s'
      = Throw (Error ("There is no texture with the label: " +:+ "depth"))
    ∧ (∀ other, other ≠ "depth"%string →
         registered_texture s' other = registered_texture (state_after frame_calls) other)
    ∧ gpuBuffers s' = gpuBuffers (state_after frame_calls)
    ∧ sharedBuffers s' = sharedBuffers (state_after frame_calls)
    ∧ registry_sound s'.
Proof.
  split; [apply state_after_sound|]. split; [reflexivity|].
  apply (destroyTexture_releases (state_after frame_calls) "depth" 1);
    first [reflexivity | apply state_after_sound].
Defined.

(** X6. [createBuffer] on a well-formed registry: the new buffer is live,
    built from the descriptor, and is what [getBuffer] of the label returns
    from then on; a buffer the label held before is destroyed; the buffers of
    all other labels and all textures are as before; and the registry is
    still well formed. *)
Theorem createBuffer_replaces_only_its_label s descriptor d label :
  registry_sound s →
  bufferDescriptors s !! descriptor = Some d →
  ∃ h s', createBuffer descriptor label s = Normal (h, s')
    ∧ getBuffer label s' = Normal (h, s')
    ∧ registered_buffer s' label
      = Some (mkBuffer (bd_size d) (bd_usage d) (Some label) false [])
    ∧ (∀ old, sharedBuffers s !! label = Some old →
         old ≠ h ∧ ∃ b, gpuBuffers s' !! old = Some b ∧ buf_destroyed b = true)
    ∧ (∀ other, other ≠ label → registered_buffer s' other = registered_buffer s other)
    ∧ (∀ other, registered_texture s' other = registered_texture s other)
    ∧ registry_sound s'.
Proof.
  intros [Hb Ht] Hd. rewrite (createBuffer_eq _ _ d) by exact Hd.
  eexists _, _. split; [reflexivity|].
  set (new := mkBuffer (bd_size d) (bd_usage d) (Some label) false []).
  split_and!.
  - apply getBuffer_Normal. cbn. by rewrite lookup_insert_eq.
  - unfold registered_buffer. cbn. rewrite lookup_insert_eq.
    by apply (lookup_created buf_label buf_destroyed).
  - intros old Hold. destruct (Hb _ _ Hold) as (b & Hlook & _).
    pose proof (lookup_lt_Some _ _ _ Hlook) as Hlt.
    split; [lia|]. exists (destroy_buffer b). cbn. rewrite Hold. cbn.
    rewrite list_lookup_alter_eq, lookup_app_l, Hlook by assumption. by split.
  - intros other Hne. unfold registered_buffer. cbn.
    rewrite lookup_insert_ne by congruence.
    destruct (sharedBuffers s !! other) as [h'|] eqn:Ho; [|reflexivity].
    by apply (lookup_other_label buf_label buf_destroyed destroy_buffer _ _ _ label other h').
  - reflexivity.
  - split; cbn; [|assumption].
    by apply (sound_map_create _ _ destroy_buffer).
Qed.

Lemma createBuffer_replaces_only_its_label_witness :
  registry_sound (state_after frame_calls)
  ∧ bufferDescriptors (state_after frame_calls) !! 0%nat
    = Some (mkBufferDescriptor 144 72 (Some "camera"%string))
  ∧ ∃ h s', createBuffer 0 "camera" (state_after frame_calls) = Normal (h, s')
    ∧ getBuffer "camera" s' = Normal (h, s')
    ∧ registered_buffer s' "camera"
      = Some (mkBuffer 144 72 (Some "camera"%string) false [])
    ∧ (∀ old, sharedBuffers (state_after frame_calls) !! "camera"%string = Some old →
         old ≠ h ∧ ∃ b, gpuBuffers s' !! old = Some b ∧ buf_destroyed b = true)
    ∧ (∀ other, other ≠ "camera"%string →
         registered_buffer s' other = registered_buffer (state_after frame_calls) other)
    ∧ (∀ other, registered_texture s' other
                = registered_texture (state_after frame_calls) other)
    ∧ registry_sound s'.
Proof.
  split; [apply state_after_sound|]. split; [reflexivity|].
  apply (createBuffer_replaces_only_its_label (state_after frame_calls) 0
           (mkBufferDescriptor 144 72 (Some "camera"%string)) "camera");
    first [reflexivity | apply state_after_sound].
Defined.

(** X7. [createTexture] on a well-formed registry: the new texture is live,
    built from the descriptor with the label written into it, and is what
    [getTexture] of the label returns from then on; a texture the label held
    before is destroyed; the textures of all other labels and all buffers
    are as before; and the registry is still well formed. *)
Theorem createTexture_replaces_only_its_label s descriptor d label :
  registry_sound s →
  textureDescriptors s !! descriptor = Some d →
  ∃ h s', createTexture descriptor label s = Normal (h, s')
    ∧ getTexture label s' = Normal (h, s')
    ∧ registered_texture s' label = Some (mkTexture (set_td_label label d) false)
    ∧ (∀ old, sharedTextures s !! label = Some old →
         old ≠ h ∧ ∃ t, gpuTextures s' !! old = Some t ∧ tex_destroyed t = true)
    ∧ (∀ other, other ≠ label → registered_texture s' other = registered_texture s other)
    ∧ (∀ other, registered_buffer s' other = registered_buffer s other)
    ∧ registry_sound s'.
Proof.
  intros [Hb Ht] Hd. rewrite (createTexture_eq _ _ d) by exact Hd.
  eexists _, _. split; [reflexivity|].
  set (new := mkTexture (set_td_label label d) false).
  split_and!.
  - apply getTexture_Normal. cbn. by rewrite lookup_insert_eq.
  - unfold registered_texture. cbn. rewrite lookup_insert_eq.
    by apply (lookup_created (λ t, td_label (tex_descriptor t)) tex_destroyed).
  - intros old Hold. destruct (Ht _ _ Hold) as (t & Hlook & _).
    pose proof (lookup_lt_Some _ _ _ Hlook) as Hlt.
    split; [lia|]. exists (destroy_texture t). cbn. rewrite Hold. cbn.
    rewrite list_lookup_alter_eq, lookup_app_l, Hlook by assumption. by split.
  - intros other Hne. unfold registered_texture. cbn.
    rewrite lookup_insert_ne by congruence.
    destruct (sharedTextures s !! other) as [h'|] eqn:Ho; [|reflexivity].
    by apply (lookup_other_label (λ t, td_label (tex_descriptor t)) tex_destroyed
                destroy_texture _ _ _ label other h').
  - reflexivity.
  - split; cbn; [assumption|].
    by apply (sound_map_create _ _ destroy_texture).
Qed.

Lemma createTexture_replaces_only_its_label_witness :
  registry_sound (state_after frame_calls)
  ∧ textureDescriptors (state_after frame_calls) !! 0%nat
    = Some (mkTextureDescriptor 4 4 "rgba8unorm" 29 None (Some "color"%string))
  ∧ ∃ h s', createTexture 0 "color" (state_after frame_calls) = Normal (h, s')
    ∧ getTexture "color" s' = Normal (h, s')
    ∧ registered_texture s' "color"
      = Some (mkTexture (set_td_label "color"
                (mkTextureDescriptor 4 4 "rgba8unorm" 29 None (Some "color"%string))) false)
    ∧ (∀ old, sharedTextures (state_after frame_calls) !! "color"%string = Some old →
         old ≠ h ∧ ∃ t, gpuTextures s' !! old = Some t ∧ tex_destroyed t = true)
    ∧ (∀ other, other ≠ "color"%string →
         registered_texture s' other = registered_texture (state_after frame_calls) other)
    ∧ (∀ other, registered_buffer s' other
                = registered_buffer (state_after frame_calls) other)
    ∧ registry_sound s'.
Proof.
  split; [apply state_after_sound|]. split; [reflexivity|].
  apply (createTexture_replaces_only_its_label (state_after frame_calls) 0
           (mkTextureDescriptor 4 4 "rgba8unorm" 29 None (Some "color"%string)) "color");
    first [reflexivity | apply state_after_sound].
Defined.

(** ** The batcher on arbitrary scenes *)

(** X8. On a scene in which every mesh instance has an id from 0 up to the
    number of entities (excluded) and a 16-float world transform, the array
    phase of the batcher returns; the transform array has 16 floats per
    entity, the object-index array one slot per entity, and the table five
    entries, hence one row, per distinct mesh. *)
Theorem batcher_returns_on_ids_in_range scene :
  Forall (λ e, entity_in_range (length (entities scene)) e.2) (entities scene) →
  ∃ batch, build_arrays scene = Normal batch
    ∧ length (batch_transformArray batch) = (16 * length (entities scene))%nat
    ∧ length (batch_idArray batch) = length (entities scene)
    ∧ length (batch_drawParameters batch) = (5 * distinct_mesh_count scene)%nat
    ∧ length (table_rows (batch_drawParameters batch)) = distinct_mesh_count scene.
Proof. apply build_arrays_lengths. Qed.

Lemma scene_AAB_in_range :
  Forall (λ e, entity_in_range (length (entities scene_AAB)) e.2) (entities scene_AAB).
Proof.
  unfold scene_AAB. cbn [entities].
  repeat (apply Forall_cons; split; [cbn; split; [lia|reflexivity]|]).
  apply Forall_nil_2.
Qed.

Lemma batcher_returns_on_ids_in_range_witness :
  Forall (λ e, entity_in_range (length (entities scene_AAB)) e.2) (entities scene_AAB)
  ∧ ∃ batch, build_arrays scene_AAB = Normal batch
    ∧ length (batch_transformArray batch) = (16 * length (entities scene_AAB))%nat
    ∧ length (batch_idArray batch) = length (entities scene_AAB)
    ∧ length (batch_drawParameters batch) = (5 * distinct_mesh_count scene_AAB)%nat
    ∧ length (table_rows (batch_drawParameters batch)) = distinct_mesh_count scene_AAB.
Proof.
  split; [exact scene_AAB_in_range|].
  apply (batcher_returns_on_ids_in_range scene_AAB). exact scene_AAB_in_range.
Defined.

Lemma scan_entity_throws acc entry e :
  scan_entity acc entry = Throw e → e = RangeError.
Proof.
  unfold scan_entity. destruct entry as [name [id mesh wt|id]]; cbn; [|discriminate].
  unfold typed_set. case_bool_decide; cbn.
  - by intros [= <-].
  - destruct (instances_get mesh (instances acc)); discriminate.
Qed.

Lemma scan_entity_out_of_range acc name id mesh wt :
  id < 0 ∨ Z.of_nat (length (transformArray acc)) < id + Z.of_nat (length wt) →
  scan_entity acc (name, MeshInstance id mesh wt) = Throw RangeError.
Proof.
  intros H. unfold scan_entity, typed_set. cbn.
  by rewrite bool_decide_eq_true_2.
Qed.

Lemma scan_entities_out_of_range l acc name id mesh wt :
  (name, MeshInstance id mesh wt) ∈ l →
  id < 0 ∨ Z.of_nat (length (transformArray acc)) < id + Z.of_nat (length wt) →
  forEach scan_entity l acc = Throw RangeError.
Proof.
  revert acc. induction l as [|x l IH]; intros acc Hin Hbad.
  - by apply elem_of_nil in Hin.
  - cbn. destruct (scan_entity acc x) as [acc'|e] eqn:Hx; cbn.
    + apply elem_of_cons in Hin as [<-|Hin].
      * rewrite scan_entity_out_of_range in Hx by assumption. discriminate.
      * apply IH; [assumption|].
        assert (Hlen : length (transformArray acc') = length (transformArray acc)).
        { unfold scan_entity in Hx. destruct x as [n [i m w|i]]; cbn in Hx.
          - destruct (typed_set (transformArray acc) w i) as [ta|] eqn:Hset;
              cbn in Hx; [|discriminate].
            apply typed_set_length in Hset.
            destruct (instances_get m (instances acc)); injection Hx as <-; exact Hset.
          - by injection Hx as <-. }
        by rewrite Hlen.
    + by rewrite (scan_entity_throws _ _ _ Hx).
Qed.

(** X9. A mesh instance whose id is negative, or so large that its world
    transform written at offset id runs past the end of the transform array
    (16 floats per entity), makes the batcher raise [RangeError]: the array
    phase ends with that exception, and so do [createMeshBuffer] and
    [render]. *)
Theorem id_out_of_range_raises min viewport s name id mesh worldTransform :
  (name, MeshInstance id mesh worldTransform) ∈ entities (scene viewport) →
  id < 0 ∨ 16 * Z.of_nat (length (entities (scene viewport)))
           < id + Z.of_nat (length worldTransform) →
  build_arrays (scene viewport) = Throw RangeError
  ∧ createMeshBuffer min viewport s = Throw RangeError
  ∧ render min viewport s = Throw RangeError.
Proof.
  intros Hin Hbad.
  assert (Hb : build_arrays (scene viewport) = Throw RangeError).
  { unfold build_arrays.
    rewrite (scan_entities_out_of_range _ _ name id mesh worldTransform); [reflexivity|assumption|].
    cbn. unfold new_array. rewrite length_replicate. lia. }
  split; [assumption|].
  assert (Hc : createMeshBuffer min viewport s = Throw RangeError).
  { unfold createMeshBuffer, bind, lift. by rewrite Hb. }
  split; [assumption|]. unfold render, bind. by rewrite Hc.
Qed.

Lemma id_out_of_range_raises_witness :
  ("a"%string, MeshInstance 5 mesh_A (translation f32_1))
    ∈ entities (scene (mkViewport scene_sparse_id 4 4))
  ∧ (5 < 0 ∨ 16 * Z.of_nat (length (entities (scene (mkViewport scene_sparse_id 4 4))))
             < 5 + Z.of_nat (length (translation f32_1)))
  ∧ build_arrays (scene (mkViewport scene_sparse_id 4 4)) = Throw RangeError
  ∧ createMeshBuffer 32 (mkViewport scene_sparse_id 4 4) initial = Throw RangeError
  ∧ render 32 (mkViewport scene_sparse_id 4 4) initial = Throw RangeError.
Proof.
  assert (Hin : ("a"%string, MeshInstance 5 mesh_A (translation f32_1))
                  ∈ entities (scene (mkViewport scene_sparse_id 4 4))).
  { cbn. apply list_elem_of_singleton. reflexivity. }
  assert (Hbad : 5 < 0 ∨ 16 * Z.of_nat (length (entities (scene (mkViewport scene_sparse_id 4 4))))
                          < 5 + Z.of_nat (length (translation f32_1))).
  { right. cbn. lia. }
  split; [exact Hin|]. split; [exact Hbad|].
  exact (id_out_of_range_raises 32 (mkViewport scene_sparse_id 4 4) initial
           "a" 5 mesh_A (translation f32_1) Hin Hbad).
Defined.

(** ** The draw loop *)

Lemma lookup_app_plus {A} (pre l : list A) j :
  (pre ++ l) !! (length pre + j)%nat = l !! j.
Proof. rewrite lookup_app_r by lia. f_equal. lia. Qed.

Lemma length_rows_entries rows :
  length (mjoin (row_entries <$> rows)) = (5 * length rows)%nat.
Proof.
  induction rows as [|r rows IH]; [reflexivity|].
  change (mjoin (row_entries <$> r :: rows))
    with (row_entries r ++ mjoin (row_entries <$> rows)).
  rewrite length_app, IH. destruct r as [[[[a b] c] d] e]. cbn. lia.
Qed.

Lemma draw_loop_rows rows pre fuel :
  (length rows ≤ fuel)%nat →
  draw_loop fuel (length pre) (pre ++ mjoin (row_entries <$> rows)) = row_draw <$> rows.
Proof.
  revert pre fuel. induction rows as [|[[[[a b] c] d] e] rows IH]; intros pre fuel Hfuel.
  - cbn. rewrite app_nil_r. destruct fuel; cbn; [reflexivity|].
    rewrite bool_decide_eq_false_2 by lia. reflexivity.
  - destruct fuel as [|fuel]; cbn in Hfuel; [lia|].
    cbn [draw_loop]. rewrite bool_decide_eq_true_2.
    2:{ rewrite length_app. cbn. lia. }
    cbn [fmap list_fmap mjoin list_join row_entries row_draw].
    f_equal.
    + rewrite (lookup_app_plus pre _ 1), (lookup_app_plus pre _ 2),
        (lookup_app_plus pre _ 3), (lookup_app_plus pre _ 4).
      rewrite <- (Nat.add_0_r (length pre)) at 1. rewrite lookup_app_plus.
      reflexivity.
    + specialize (IH (pre ++ [a; b; c; d; e]) fuel ltac:(lia)).
      rewrite length_app in IH. cbn [length] in IH.
      rewrite <- app_assoc in IH. exact IH.
Qed.

(** X10. The draw loop of [render] reads a table made of five-entry rows
    back row by row: it issues exactly one [drawIndexed] call per row, in
    table order, and every argument of every call is defined. *)
Theorem table_rows_of_rows rows :
  table_rows (mjoin (row_entries <$> rows)) = row_draw <$> rows.
Proof.
  unfold table_rows. apply (draw_loop_rows rows []).
  rewrite length_rows_entries. lia.
Qed.

(** ** The first loop, described by the scene *)

Lemma instances_get_ref mesh1 mesh2 m :
  mesh_ref mesh1 = mesh_ref mesh2 → instances_get mesh1 m = instances_get mesh2 m.
Proof.
  intros Href. induction m as [|[k v] m IH]; cbn; [reflexivity|].
  rewrite Href, IH. reflexivity.
Qed.

Lemma instances_get_snoc mesh m k v :
  instances_get mesh (m ++ [(k, v)])
  = match instances_get mesh m with
    | Some g => Some g
    | None => if bool_decide (mesh_ref k = mesh_ref mesh) then Some v else None
    end.
Proof.
  induction m as [|[k' v'] m IH]; cbn; [reflexivity|].
  destruct (bool_decide (mesh_ref k' = mesh_ref mesh)); [reflexivity|exact IH].
Qed.

Lemma instances_get_increment mesh mesh' m :
  instances_get mesh (instances_increment mesh' m)
  = if bool_decide (mesh_ref mesh' = mesh_ref mesh)
    then (λ g, mkGroup (count g + 1) (ids g)) <$> instances_get mesh m
    else instances_get mesh m.
Proof.
  induction m as [|[k v] m IH]; cbn.
  - by case_bool_decide.
  - destruct (decide (mesh_ref k = mesh_ref mesh')) as [Hk|Hk].
    + rewrite (bool_decide_eq_true_2 _ Hk). cbn.
      destruct (decide (mesh_ref mesh' = mesh_ref mesh)) as [Hm|Hm].
      * rewrite (bool_decide_eq_true_2 _ Hm).
        rewrite (bool_decide_eq_true_2 (mesh_ref k = mesh_ref mesh)) by congruence.
        reflexivity.
      * rewrite (bool_decide_eq_false_2 _ Hm).
        rewrite (bool_decide_eq_false_2 (mesh_ref k = mesh_ref mesh)) by congruence.
        reflexivity.
    + rewrite (bool_decide_eq_false_2 _ Hk). cbn. rewrite IH.
      destruct (decide (mesh_ref k = mesh_ref mesh)) as [Hkm|Hkm].
      * rewrite (bool_decide_eq_true_2 _ Hkm).
        rewrite (bool_decide_eq_false_2 (mesh_ref mesh' = mesh_ref mesh)) by congruence.
        reflexivity.
      * rewrite (bool_decide_eq_false_2 _ Hkm). reflexivity.
Qed.

Lemma fst_instances_increment mesh m :
  (instances_increment mesh m).*1 = m.*1.
Proof.
  induction m as [|[k v] m IH]; cbn; [reflexivity|].
  case_bool_decide; cbn; [reflexivity|]. f_equal. exact IH.
Qed.

Lemma instances_of_cons mesh e l :
  instances_of mesh (e :: l) = (if uses mesh e then 1 else 0) + instances_of mesh l.
Proof.
  unfold instances_of. rewrite filter_cons.
  destruct (uses mesh e).
  - rewrite decide_True by reflexivity. rewrite length_cons. lia.
  - rewrite decide_False by discriminate. lia.
Qed.

Lemma first_id_cons mesh e l :
  first_id mesh (e :: l) = if uses mesh e then [getId e.2] else first_id mesh l.
Proof.
  unfold first_id. rewrite filter_cons.
  destruct (uses mesh e).
  - by rewrite decide_True by reflexivity.
  - by rewrite decide_False by discriminate.
Qed.

Lemma instances_of_nonneg mesh l : 0 ≤ instances_of mesh l.
Proof. unfold instances_of. lia. Qed.

(** The order of the groups. *)
Lemma scan_entities_meshes l acc r :
  forEach scan_entity l acc = Normal r →
  (instances r).*1 = (instances acc).*1 ++ first_meshes (group_keys (instances acc)) l.
Proof.
  revert acc. induction l as [|[name e] l IH]; intros acc Hrun; cbn in Hrun.
  - injection Hrun as <-. cbn. by rewrite app_nil_r.
  - destruct (scan_entity acc (name, e)) as [acc'|err] eqn:Hstep; cbn in Hrun; [|discriminate].
    rewrite (IH _ Hrun). clear IH Hrun.
    unfold scan_entity in Hstep. destruct e as [id mesh wt|id]; cbn in Hstep |- *.
    + destruct (typed_set (transformArray acc) wt id) as [ta|]; cbn in Hstep; [|discriminate].
      destruct (instances_get mesh (instances acc)) as [g|] eqn:Hget;
        injection Hstep as <-; cbn.
      * rewrite fst_instances_increment, group_keys_increment.
        rewrite bool_decide_eq_true_2; [reflexivity|].
        destruct (decide (mesh_ref mesh ∈ group_keys (instances acc))) as [|Hn];
          [assumption|].
        apply instances_get_None in Hn. congruence.
      * rewrite (instances_set_new _ _ _ Hget).
        apply instances_get_None in Hget.
        rewrite (bool_decide_eq_false_2 _ Hget).
        unfold group_keys. rewrite !fmap_app. cbn. by rewrite <- app_assoc.
    + by injection Hstep as <-.
Qed.

(** The group of each mesh. *)
Lemma scan_entities_group l acc r mesh :
  forEach scan_entity l acc = Normal r →
  instances_get mesh (instances r)
  = match instances_get mesh (instances acc) with
    | Some g => Some (mkGroup (count g + instances_of mesh l) (ids g))
    | None => if bool_decide (instances_of mesh l = 0) then None
              else Some (group_of l mesh)
    end.
Proof.
  revert acc. induction l as [|[name e] l IH]; intros acc Hrun; cbn in Hrun.
  - injection Hrun as <-. unfold instances_of. cbn.
    destruct (instances_get mesh (instances acc)) as [[c i]|]; [|reflexivity].
    cbn. by rewrite Z.add_0_r.
  - destruct (scan_entity acc (name, e)) as [acc'|err] eqn:Hstep; cbn in Hrun; [|discriminate].
    rewrite (IH _ Hrun). clear IH Hrun.
    unfold group_of. rewrite instances_of_cons, first_id_cons.
    pose proof (instances_of_nonneg mesh l) as Hnn.
    unfold scan_entity in Hstep. destruct e as [id m wt|id]; cbn in Hstep.
    + destruct (typed_set (transformArray acc) wt id) as [ta|]; cbn in Hstep; [|discriminate].
      unfold uses. cbn [snd getId].
      destruct (instances_get m (instances acc)) as [g0|] eqn:Hget;
        injection Hstep as <-; cbn [instances].
      * rewrite instances_get_increment.
        destruct (decide (mesh_ref m = mesh_ref mesh)) as [Hm|Hm].
        -- rewrite (bool_decide_eq_true_2 _ Hm).
           rewrite <- (instances_get_ref m mesh _ Hm), Hget. cbn.
           do 2 f_equal. lia.
        -- rewrite (bool_decide_eq_false_2 _ Hm). cbn [Z.add].
           destruct (instances_get mesh (instances acc)); reflexivity.
      * rewrite (instances_set_new _ _ _ Hget), instances_get_snoc.
        destruct (decide (mesh_ref m = mesh_ref mesh)) as [Hm|Hm].
        -- rewrite (bool_decide_eq_true_2 _ Hm).
           rewrite <- (instances_get_ref m mesh _ Hm), Hget. cbn.
           rewrite bool_decide_eq_false_2 by lia. reflexivity.
        -- rewrite (bool_decide_eq_false_2 _ Hm). cbn [Z.add].
           destruct (instances_get mesh (instances acc)); reflexivity.
    + injection Hstep as <-. unfold uses. cbn.
      destruct (instances_get mesh (instances acc)); reflexivity.
Qed.

Lemma instances_get_elem m mesh g :
  NoDup (group_keys m) → (mesh, g) ∈ m → instances_get mesh m = Some g.
Proof.
  induction m as [|[k v] m IH]; intros Hnd Hin.
  - by apply elem_of_nil in Hin.
  - cbn in Hnd. apply NoDup_cons in Hnd as [Hk Hnd].
    apply elem_of_cons in Hin as [[= <- <-]|Hin]; cbn.
    + by rewrite bool_decide_eq_true_2.
    + rewrite bool_decide_eq_false_2; [by apply IH|].
      intros Heq. apply Hk. rewrite Heq.
      apply (list_elem_of_fmap_2 (λ g : TriangleMesh * InstanceGroup, mesh_ref g.1) m (mesh, g)).
      exact Hin.
Qed.

Lemma rebuild_from_keys {A B} (G : A → B) (m : list (A * B)) :
  Forall (λ p, p.2 = G p.1) m → m = (λ x, (x, G x)) <$> m.*1.
Proof.
  induction 1 as [|[a b] m Hp _ IH]; cbn; [reflexivity|].
  cbn in Hp. subst b. f_equal. exact IH.
Qed.

(** The whole map after the first loop. *)
Lemma scan_scene_instances scene scan :
  scan_scene scene = Normal scan →
  instances scan = (λ mesh, (mesh, group_of (entities scene) mesh)) <$> distinct_meshes scene.
Proof.
  intros Hscan. unfold scan_scene in Hscan.
  assert (Hok : scan_ok (mkScan 0 0
            (new_array (Z.of_nat (length (entities scene)) * 16)) [])).
  { split_and!; cbn; try reflexivity; [apply NoDup_nil_2|apply Forall_nil_2]. }
  destruct (scan_entities_spec _ _ _ Hscan Hok) as ((Hnd & _) & _).
  pose proof (scan_entities_meshes _ _ _ Hscan) as Hfst. cbn in Hfst.
  fold (distinct_meshes scene) in Hfst. rewrite <- Hfst.
  apply rebuild_from_keys. apply Forall_forall. intros [mesh g] Hin. cbn.
  pose proof (instances_get_elem _ _ _ Hnd Hin) as Hget.
  rewrite (scan_entities_group _ _ _ mesh Hscan) in Hget. cbn in Hget.
  case_bool_decide; [discriminate|]. by injection Hget as <-.
Qed.

(** ** The second loop, described by the groups *)

Lemma typed_set_throws target source offset e :
  typed_set target source offset = Throw e → e = RangeError.
Proof. unfold typed_set. case_bool_decide; [by intros [= <-]|discriminate]. Qed.

Lemma typed_set_at_end pre k source r :
  typed_set (pre ++ replicate k 0) source (Z.of_nat (length pre)) = Normal r →
  (length source ≤ k)%nat ∧ r = pre ++ source ++ replicate (k - length source) 0.
Proof.
  intros H. apply typed_set_Normal in H as (_ & Hfit & ->).
  rewrite length_app, length_replicate in Hfit.
  split; [lia|]. rewrite Nat2Z.id, take_app_length.
  rewrite drop_app_add, drop_replicate. reflexivity.
Qed.

Lemma fill_group_Normal acc mesh value acc' :
  fill_group acc (mesh, value) = Normal acc' →
  typed_set (vertexArray acc) (vertexBuffer mesh) (vertexOffset acc)
    = Normal (vertexArray acc')
  ∧ typed_set (indexArray acc) (to_uint32 <$> elementBuffer mesh) (indexOffset acc)
    = Normal (indexArray acc')
  ∧ typed_set (idArray acc) (to_uint32 <$> ids value) (objectOffset acc)
    = Normal (idArray acc')
  ∧ typed_set (drawTable acc)
      (to_uint32 <$> [Z.of_nat (length (vertexBuffer mesh)); count value;
                      indexOffset acc; 0; objectOffset acc]) 0
    = Normal (drawTable acc')
  ∧ vertexOffset acc' = vertexOffset acc + Z.of_nat (length (vertexBuffer mesh))
  ∧ indexOffset acc' = indexOffset acc + Z.of_nat (length (elementBuffer mesh))
  ∧ objectOffset acc' = objectOffset acc + count value.
Proof.
  unfold fill_group, uint32_set.
  destruct (typed_set (vertexArray acc) _ _); cbn; [|discriminate].
  destruct (typed_set (indexArray acc) _ _); cbn; [|discriminate].
  destruct (typed_set (idArray acc) _ _); cbn; [|discriminate].
  destruct (typed_set (drawTable acc) _ _); cbn; [|discriminate].
  intros [= <-]. cbn. split_and!; reflexivity.
Qed.

Lemma fill_group_throws acc entry e :
  fill_group acc entry = Throw e → e = RangeError.
Proof.
  destruct entry as [mesh value]. unfold fill_group, uint32_set.
  destruct (typed_set (vertexArray acc) _ _) eqn:H1; cbn;
    [|intros [= <-]; by eapply typed_set_throws].
  destruct (typed_set (indexArray acc) _ _) eqn:H2; cbn;
    [|intros [= <-]; by eapply typed_set_throws].
  destruct (typed_set (idArray acc) _ _) eqn:H3; cbn;
    [|intros [= <-]; by eapply typed_set_throws].
  destruct (typed_set (drawTable acc) _ _) eqn:H4; cbn;
    [discriminate|intros [= <-]; by eapply typed_set_throws].
Qed.

Lemma forEach_throws {A S} (f : S → A → Completion S) l acc e :
  (∀ acc x e, f acc x = Throw e → e = RangeError) →
  forEach f l acc = Throw e → e = RangeError.
Proof.
  intros Hf. revert acc. induction l as [|x l IH]; intros acc; cbn; [discriminate|].
  destruct (f acc x) as [acc'|e'] eqn:Hx; cbn.
  - apply IH.
  - intros [= <-]. by eapply Hf.
Qed.

(** An array the second loop fills by running offset: [arr] is the array,
    [off] the offset, [src] what a group writes and [adv] by how much the
    offset advances. *)
Lemma fill_running (arr : Fill → list Z) (off : Fill → Z)
    (src : TriangleMesh * InstanceGroup → list Z)
    (adv : TriangleMesh * InstanceGroup → nat)
    (P : TriangleMesh * InstanceGroup → Prop) m :
  (∀ acc g acc', P g → fill_group acc g = Normal acc' →
     typed_set (arr acc) (src g) (off acc) = Normal (arr acc')
     ∧ off acc' = off acc + Z.of_nat (adv g)
     ∧ (length (src g) ≤ adv g)%nat) →
  Forall P m →
  ∀ acc pre k r,
    arr acc = pre ++ replicate k 0 →
    off acc = Z.of_nat (length pre) →
    (sum_list (adv <$> m) ≤ k)%nat →
    forEach fill_group m acc = Normal r →
    arr r = pre ++ mjoin ((λ g, src g ++ replicate (adv g - length (src g)) 0) <$> m)
                ++ replicate (k - sum_list (adv <$> m)) 0.
Proof.
  intros Hstep HP. induction HP as [|g m Hg _ IH]; intros acc pre k r Harr Hoff Hsum Hrun.
  - cbn in Hrun. injection Hrun as <-. cbn. by rewrite Nat.sub_0_r.
  - cbn in Hrun, Hsum.
    destruct (fill_group acc g) as [acc1|] eqn:Hfill; cbn in Hrun; [|discriminate].
    destruct (Hstep _ _ _ Hg Hfill) as (Hset & Hoff1 & Hlen).
    rewrite Harr, Hoff in Hset. apply typed_set_at_end in Hset as [_ Harr1].
    replace (k - length (src g))%nat
      with ((adv g - length (src g)) + (k - adv g))%nat in Harr1 by lia.
    rewrite replicate_add in Harr1.
    specialize (IH acc1 (pre ++ src g ++ replicate (adv g - length (src g)) 0)
                   (k - adv g)%nat r).
    rewrite IH.
    + rewrite <- !app_assoc. f_equal. cbn. rewrite <- !app_assoc.
      do 4 f_equal. lia.
    + rewrite Harr1. by rewrite <- !app_assoc.
    + rewrite Hoff1, Hoff, !length_app, length_replicate. lia.
    + lia.
    + exact Hrun.
Qed.

(** The table: every group writes its tuple at row 1, so the tuple of the
    last group is what row 1 holds in the end. *)
Lemma fill_table m0 mesh value acc r :
  forEach fill_group (m0 ++ [(mesh, value)]) acc = Normal r →
  drawTable r
  = (to_uint32 <$> [Z.of_nat (length (vertexBuffer mesh)); count value;
                    indexOffset acc + index_total m0; 0;
                    objectOffset acc + count_total m0])
    ++ drop 5 (drawTable acc).
Proof.
  revert acc. induction m0 as [|[mesh0 value0] m0 IH]; intros acc Hrun.
  - cbn [forEach app] in Hrun.
    destruct (fill_group acc (mesh, value)) as [acc1|] eqn:Hfill; cbn in Hrun; [|discriminate].
    injection Hrun as <-.
    apply fill_group_Normal in Hfill as (_ & _ & _ & Ht & _).
    apply typed_set_Normal in Ht as (_ & _ & ->).
    unfold index_total, count_total. cbn. by rewrite !Z.add_0_r.
  - cbn [forEach app] in Hrun.
    destruct (fill_group acc (mesh0, value0)) as [acc1|] eqn:Hfill; cbn in Hrun; [|discriminate].
    rewrite (IH _ Hrun).
    apply fill_group_Normal in Hfill as (_ & _ & _ & Ht & _ & Hi & Ho).
    apply typed_set_Normal in Ht as (_ & _ & ->).
    rewrite Hi, Ho. unfold index_total, count_total. cbn.
    rewrite !Z.add_assoc. reflexivity.
Qed.

(** ** The batcher, described by the scene *)

Lemma vertex_total_sum m :
  vertex_total m = Z.of_nat (sum_list ((λ g, length (vertexBuffer g.1)) <$> m)).
Proof. unfold vertex_total. induction m as [|g m IH]; cbn; [reflexivity|]. rewrite IH. lia. Qed.

Lemma index_total_sum m :
  index_total m = Z.of_nat (sum_list ((λ g, length (elementBuffer g.1)) <$> m)).
Proof. unfold index_total. induction m as [|g m IH]; cbn; [reflexivity|]. rewrite IH. lia. Qed.

Lemma count_total_sum m :
  groups_ok m →
  count_total m = Z.of_nat (sum_list ((λ g, Z.to_nat (count g.2)) <$> m)).
Proof.
  unfold count_total. induction 1 as [|g m [_ Hc] _ IH]; cbn; [reflexivity|].
  rewrite IH. lia.
Qed.

Lemma scan_scene_throws scene e : scan_scene scene = Throw e → e = RangeError.
Proof. apply forEach_throws. apply scan_entity_throws. Qed.

Lemma scan_scene_ok scene scan :
  scan_scene scene = Normal scan →
  scan_ok scan
  ∧ length (transformArray scan) = (16 * length (entities scene))%nat
  ∧ count_total (instances scan) = mesh_instance_count scene.
Proof.
  intros Hscan. unfold scan_scene in Hscan.
  assert (Hok : scan_ok (mkScan 0 0
            (new_array (Z.of_nat (length (entities scene)) * 16)) [])).
  { split_and!; cbn; try reflexivity; [apply NoDup_nil_2|apply Forall_nil_2]. }
  destruct (scan_entities_spec _ _ _ Hscan Hok) as (Hok' & Hlen & Hcount & _).
  split_and!; [assumption| |].
  - rewrite Hlen. cbn. unfold new_array. rewrite length_replicate. lia.
  - rewrite Hcount. cbn. by destruct scene.
Qed.

(** [build_arrays] is the first loop followed by the second. *)
Lemma build_arrays_Normal scene batch :
  build_arrays scene = Normal batch →
  ∃ scan fill,
    scan_scene scene = Normal scan
    ∧ forEach fill_group (instances scan)
        (mkFill (new_array (vertexSize scan)) (new_array (indexSize scan))
                (new_array (Z.of_nat (length (entities scene))))
                (new_array (Z.of_nat (length (instances scan)) * 5)) 0 0 0)
      = Normal fill
    ∧ batch = mkBatch (vertexArray fill) (indexArray fill) (transformArray scan)
                      (idArray fill) (drawTable fill).
Proof.
  unfold build_arrays, scan_scene.
  destruct (forEach scan_entity _ _) as [scan|] eqn:Hscan; cbn; [|discriminate].
  destruct (forEach fill_group _ _) as [fill|] eqn:Hfill; cbn; [|discriminate].
  intros [= <-]. exists scan, fill. split_and!; [reflexivity|exact Hfill|reflexivity].
Qed.

Lemma build_arrays_throws scene e : build_arrays scene = Throw e → e = RangeError.
Proof.
  unfold build_arrays.
  destruct (forEach scan_entity _ _) as [scan|e1] eqn:Hscan; cbn.
  - destruct (forEach fill_group _ _) as [fill|e2] eqn:Hfill; cbn; [discriminate|].
    intros [= <-]. eapply forEach_throws; [|exact Hfill]. apply fill_group_throws.
  - intros [= <-]. eapply forEach_throws; [|exact Hscan]. apply scan_entity_throws.
Qed.

(** X11. The first loop of the batcher either raises [RangeError] or leaves
    one group per distinct mesh, in first-encounter order; the group of a
    mesh holds the number of its instances as count and, as ids, the id of
    its first instance only.  The two size counters are the total lengths of
    the vertex and index arrays of the distinct meshes, each mesh counted
    once, and the transform array has 16 floats per entity. *)
Theorem first_loop_groups scene :
  match scan_scene scene with
  | Normal scan =>
      instances scan
      = (λ mesh, (mesh, mkGroup (instances_of mesh (entities scene))
                                (first_id mesh (entities scene))))
          <$> distinct_meshes scene
      ∧ vertexSize scan
        = Z.of_nat (length (mjoin (vertexBuffer <$> distinct_meshes scene)))
      ∧ indexSize scan
        = Z.of_nat (length (mjoin (elementBuffer <$> distinct_meshes scene)))
      ∧ length (transformArray scan) = (16 * length (entities scene))%nat
  | Throw e => e = RangeError
  end.
Proof.
  destruct (scan_scene scene) as [scan|e] eqn:Hscan; [|by eapply scan_scene_throws].
  pose proof (scan_scene_instances _ _ Hscan) as Hinst.
  destruct (scan_scene_ok _ _ Hscan) as ((_ & Hv & Hi & _) & Hlen & _).
  split_and!; [exact Hinst| | |exact Hlen].
  - rewrite Hv, vertex_total_sum, Hinst, length_join, <- !list_fmap_compose.
    reflexivity.
  - rewrite Hi, index_total_sum, Hinst, length_join, <- !list_fmap_compose.
    reflexivity.
Qed.

(** X12. Shared geometry is copied once: when the batcher returns, the
    vertex array is the concatenation of the vertex arrays of the distinct
    meshes in first-encounter order, whatever the number of instances, and
    the index array the concatenation of their index arrays (as unsigned
    32-bit values).  The only exception it raises is [RangeError]. *)
Theorem geometry_copied_once scene :
  match build_arrays scene with
  | Normal batch =>
      batch_vertexArray batch = mjoin (vertexBuffer <$> distinct_meshes scene)
      ∧ batch_indexArray batch
        = mjoin ((λ mesh, to_uint32 <$> elementBuffer mesh) <$> distinct_meshes scene)
  | Throw e => e = RangeError
  end.
Proof.
  destruct (build_arrays scene) as [batch|e] eqn:Hb; [|by eapply build_arrays_throws].
  apply build_arrays_Normal in Hb as (scan & fill & Hscan & Hfill & ->). cbn.
  pose proof (scan_scene_instances _ _ Hscan) as Hinst.
  destruct (scan_scene_ok _ _ Hscan) as ((_ & Hv & Hi & Hg) & _ & _).
  match type of Hfill with forEach _ _ ?a = _ => set (acc0 := a) in Hfill end.
  split.
  - pose proof (fill_running vertexArray vertexOffset (λ g, vertexBuffer g.1)
                  (λ g, length (vertexBuffer g.1)) (λ _, True) (instances scan)) as HV.
    rewrite (HV ltac:(intros acc [mesh value] acc' _ Hf;
                      apply fill_group_Normal in Hf as (H1 & _ & _ & _ & H5 & _);
                      split_and!; [exact H1|exact H5|cbn; lia])
                ltac:(by apply Forall_true)
                acc0 [] (Z.to_nat (vertexSize scan)) fill);
      [|reflexivity|reflexivity|rewrite Hv, vertex_total_sum; lia|exact Hfill].
    rewrite Hv, vertex_total_sum, Nat2Z.id, Nat.sub_diag. cbn [replicate app].
    rewrite app_nil_r, Hinst, <- list_fmap_compose. f_equal.
    apply list_fmap_ext. intros i mesh _. cbn. by rewrite Nat.sub_diag, app_nil_r.
  - pose proof (fill_running indexArray indexOffset (λ g, to_uint32 <$> elementBuffer g.1)
                  (λ g, length (elementBuffer g.1)) (λ _, True) (instances scan)) as HI.
    rewrite (HI ltac:(intros acc [mesh value] acc' _ Hf;
                      apply fill_group_Normal in Hf as (_ & H2 & _ & _ & _ & H6 & _);
                      split_and!; [exact H2|exact H6|cbn; rewrite length_fmap; lia])
                ltac:(by apply Forall_true)
                acc0 [] (Z.to_nat (indexSize scan)) fill);
      [|reflexivity|reflexivity|rewrite Hi, index_total_sum; lia|exact Hfill].
    rewrite Hi, index_total_sum, Nat2Z.id, Nat.sub_diag. cbn [replicate app].
    rewrite app_nil_r, Hinst, <- list_fmap_compose. f_equal.
    apply list_fmap_ext. intros i mesh _. cbn.
    by rewrite length_fmap, Nat.sub_diag, app_nil_r.
Qed.

(** X13. The object-index array, when the batcher returns: one block per
    distinct mesh, in first-encounter order, as long as the mesh has
    instances; the first slot of a block holds the id of the first instance
    of the mesh (as an unsigned 32-bit value) and its other slots keep their
    initial zero; after the blocks the array is zero up to one slot per
    entity. *)
Theorem id_array_layout scene :
  match build_arrays scene with
  | Normal batch =>
      batch_idArray batch
      = mjoin ((λ mesh, id_slots (first_id mesh (entities scene))
                                 (instances_of mesh (entities scene)))
                 <$> distinct_meshes scene)
        ++ replicate (length (entities scene) - Z.to_nat (mesh_instance_count scene)) 0
  | Throw e => e = RangeError
  end.
Proof.
  destruct (build_arrays scene) as [batch|e] eqn:Hb; [|by eapply build_arrays_throws].
  apply build_arrays_Normal in Hb as (scan & fill & Hscan & Hfill & ->). cbn.
  pose proof (scan_scene_instances _ _ Hscan) as Hinst.
  destruct (scan_scene_ok _ _ Hscan) as ((_ & _ & _ & Hg) & _ & Hcount).
  match type of Hfill with forEach _ _ ?a = _ => set (acc0 := a) in Hfill end.
  pose proof (count_total_sum _ Hg) as Hsum.
  assert (Hle : mesh_instance_count scene ≤ Z.of_nat (length (entities scene))).
  { unfold mesh_instance_count.
    pose proof (length_filter (λ e : string * Entity, is_mesh_instance e.2 = true)
                  (entities scene)). lia. }
  pose proof (fill_running idArray objectOffset (λ g, to_uint32 <$> ids g.2)
                (λ g, Z.to_nat (count g.2))
                (λ g, length (ids g.2) = 1%nat ∧ 1 ≤ count g.2) (instances scan)) as HO.
  rewrite (HO ltac:(intros acc [mesh value] acc' [Hids Hc] Hf;
                    apply fill_group_Normal in Hf as (_ & _ & H3 & _ & _ & _ & H7);
                    cbn in *; split_and!;
                      [exact H3|rewrite H7; lia|rewrite length_fmap; lia])
              Hg acc0 [] (Z.to_nat (Z.of_nat (length (entities scene)))) fill);
    [|reflexivity|reflexivity|lia|exact Hfill].
  rewrite Nat2Z.id. cbn [app].
  replace (sum_list ((λ g, Z.to_nat (count g.2)) <$> instances scan))
    with (Z.to_nat (mesh_instance_count scene)) by lia.
  f_equal. rewrite Hinst, <- list_fmap_compose. f_equal.
  apply list_fmap_ext. intros i mesh _. unfold id_slots. cbn.
  by rewrite length_fmap.
Qed.

Lemma count_total_groups l ms :
  count_total ((λ mesh, (mesh, group_of l mesh)) <$> ms) = instances_of_all l ms.
Proof.
  unfold count_total, instances_of_all.
  induction ms as [|mesh ms IH]; cbn; [reflexivity|]. by rewrite IH.
Qed.

Lemma index_total_groups l ms :
  index_total ((λ mesh, (mesh, group_of l mesh)) <$> ms)
  = Z.of_nat (length (mjoin (elementBuffer <$> ms))).
Proof.
  rewrite index_total_sum, length_join, <- !list_fmap_compose. reflexivity.
Qed.

(** X14. The draw-parameter table, when the batcher returns on a scene whose
    last distinct mesh is [mesh]: row 1 holds the tuple of that mesh, with
    the length of its vertex array as first entry, the number of its
    instances, the number of indices of the meshes before it, 0, and the
    number of instances of the meshes before it; every other row is zero. *)
Theorem draw_table_holds_last_tuple scene meshes mesh :
  distinct_meshes scene = meshes ++ [mesh] →
  match build_arrays scene with
  | Normal batch =>
      batch_drawParameters batch
      = (to_uint32 <$> [ Z.of_nat (length (vertexBuffer mesh));
                         instances_of mesh (entities scene);
                         Z.of_nat (length (mjoin (elementBuffer <$> meshes)));
                         0;
                         instances_of_all (entities scene) meshes ])
        ++ replicate (5 * length meshes) 0
  | Throw e => e = RangeError
  end.
Proof.
  intros Hlast.
  destruct (build_arrays scene) as [batch|e] eqn:Hb; [|by eapply build_arrays_throws].
  apply build_arrays_Normal in Hb as (scan & fill & Hscan & Hfill & ->). cbn.
  pose proof (scan_scene_instances _ _ Hscan) as Hinst.
  rewrite Hlast, fmap_app in Hinst. cbn in Hinst.
  rewrite Hinst in Hfill.
  rewrite (fill_table _ _ _ _ _ Hfill). cbn [indexOffset objectOffset drawTable count group_of].
  rewrite index_total_groups, count_total_groups, !Z.add_0_l.
  match goal with
  | |- _ ++ drop 5 ?t = _ => replace (drop 5 t) with (replicate (5 * length meshes) 0)
  end; [reflexivity|].
  unfold new_array. rewrite drop_replicate. f_equal.
  rewrite length_app, length_fmap. cbn [length]. lia.
Qed.

Lemma draw_table_holds_last_tuple_witness :
  distinct_meshes scene_AAB = [mesh_A] ++ [mesh_B]
  ∧ match build_arrays scene_AAB with
    | Normal batch =>
        batch_drawParameters batch
        = (to_uint32 <$> [ Z.of_nat (length (vertexBuffer mesh_B));
                           instances_of mesh_B (entities scene_AAB);
                           Z.of_nat (length (mjoin (elementBuffer <$> [mesh_A])));
                           0;
                           instances_of_all (entities scene_AAB) [mesh_A] ])
          ++ replicate (5 * length [mesh_A]) 0
    | Throw e => e = RangeError
    end.
Proof.
  split; [reflexivity|].
  apply (draw_table_holds_last_tuple scene_AAB [mesh_A] mesh_B). reflexivity.
Defined.

(** ** One frame of the geometry pass *)

Lemma buffers_step_trans s1 s2 s3 :
  buffers_step s1 s2 → buffers_step s2 s3 → buffers_step s1 s3.
Proof.
  intros (T1 & M1 & S1 & D1) (T2 & M2 & S2 & D2).
  split_and!; try congruence. auto.
Qed.

Lemma renderer_createBuffer_sound s d label :
  registry_sound s →
  ∃ s', renderer_createBuffer d label s = Normal (length (gpuBuffers s), s')
    ∧ registry_sound s'
    ∧ buffers_step s s'
    ∧ drawParameters s' = drawParameters s
    ∧ sharedBuffers s' = <[label := length (gpuBuffers s)]> (sharedBuffers s)
    ∧ registered_buffer s' label
      = Some (mkBuffer (bd_size d) (bd_usage d) (Some label) false [])
    ∧ (∀ other, other ≠ label → registered_buffer s' other = registered_buffer s other)
    ∧ (∀ old, sharedBuffers s !! label = Some old → buffer_destroyed s' old).
Proof.
  intros [Hb Ht]. rewrite renderer_createBuffer_eq.
  eexists. split; [reflexivity|].
  set (new := mkBuffer (bd_size d) (bd_usage d) (Some label) false []).
  split_and!; cbn; try reflexivity.
  - split; cbn; [|assumption]. by apply (sound_map_create _ _ destroy_buffer).
  - split_and!; cbn; try reflexivity.
    intros h (b & Hlook & Hd). unfold buffer_destroyed. cbn.
    pose proof (lookup_lt_Some _ _ _ Hlook) as Hlt.
    destruct (sharedBuffers s !! label) as [o|]; cbn.
    + rewrite list_lookup_alter. case_decide.
      * subst o. rewrite lookup_app_l, Hlook by assumption. cbn. eauto.
      * rewrite lookup_app_l, Hlook by assumption. eauto.
    + rewrite lookup_app_l, Hlook by assumption. eauto.
  - unfold registered_buffer. cbn. rewrite lookup_insert_eq.
    by apply (lookup_created buf_label buf_destroyed).
  - intros other Hne. unfold registered_buffer. cbn.
    rewrite lookup_insert_ne by congruence.
    destruct (sharedBuffers s !! other) as [h'|] eqn:Ho; [|reflexivity].
    by apply (lookup_other_label buf_label buf_destroyed destroy_buffer _ _ _ label other h').
  - intros old Hold. destruct (Hb _ _ Hold) as (b & Hlook & _).
    pose proof (lookup_lt_Some _ _ _ Hlook) as Hlt.
    exists (destroy_buffer b). rewrite Hold. cbn.
    rewrite list_lookup_alter_eq, lookup_app_l, Hlook by assumption. by split.
Qed.

Lemma queue_writeBuffer_sound s label h b data :
  registry_sound s →
  sharedBuffers s !! label = Some h →
  registered_buffer s label = Some b →
  ∃ s', queue_writeBuffer h data s = Normal (tt, s')
    ∧ registry_sound s'
    ∧ buffers_step s s'
    ∧ drawParameters s' = drawParameters s
    ∧ sharedBuffers s' = sharedBuffers s
    ∧ registered_buffer s' label = Some (write_words data b)
    ∧ (∀ other, other ≠ label → registered_buffer s' other = registered_buffer s other).
Proof.
  intros [Hb Ht] Hh Hreg. unfold queue_writeBuffer, modify.
  eexists. split; [reflexivity|].
  unfold registered_buffer in Hreg. rewrite Hh in Hreg.
  split_and!; cbn; try reflexivity.
  - split; cbn; [|assumption].
    intros L h' HL. destruct (Hb _ _ HL) as (b' & Hlook & Hlab & Hlive).
    rewrite list_lookup_alter. case_decide.
    + subst h'. rewrite Hlook. cbn. eexists. split; [reflexivity|]. by split.
    + eauto.
  - split_and!; cbn; try reflexivity.
    intros h' (b' & Hlook & Hd). unfold buffer_destroyed. cbn.
    rewrite list_lookup_alter. case_decide.
    + subst h'. rewrite Hlook. cbn. eexists. split; [reflexivity|]. exact Hd.
    + eauto.
  - unfold registered_buffer. cbn. rewrite Hh.
    by rewrite list_lookup_alter_eq, Hreg.
  - intros other Hne. unfold registered_buffer. cbn.
    destruct (sharedBuffers s !! other) as [h'|] eqn:Ho; [|reflexivity].
    rewrite list_lookup_alter_ne; [reflexivity|].
    intros ->. apply Hne.
    by apply (sound_map_inj buf_label buf_destroyed (gpuBuffers s) (sharedBuffers s) other label h').
Qed.

Lemma write_words_fresh size usage label data :
  write_words data (mkBuffer size usage label false []) = mkBuffer size usage label false data.
Proof. unfold write_words. cbn. by rewrite drop_nil, app_nil_r. Qed.

Lemma createMeshBuffer_spec min viewport s batch :
  registry_sound s →
  build_arrays (scene viewport) = Normal batch →
  ∃ s', createMeshBuffer min viewport s = Normal (tt, s')
    ∧ registry_sound s'
    ∧ gpuTextures s' = gpuTextures s
    ∧ sharedTextures s' = sharedTextures s
    ∧ submitted s' = submitted s
    ∧ drawParameters s' = batch_drawParameters batch
    ∧ registered_buffer s' "vertex"
      = Some (mkBuffer (Z.max (byteLength (batch_vertexArray batch)) min)
                       (Z.lor COPY_DST VERTEX) (Some "vertex"%string) false
                       (batch_vertexArray batch))
    ∧ registered_buffer s' "index"
      = Some (mkBuffer (Z.max (byteLength (batch_indexArray batch)) min)
                       (Z.lor COPY_DST INDEX) (Some "index"%string) false
                       (batch_indexArray batch))
    ∧ registered_buffer s' "transform"
      = Some (mkBuffer (Z.max (byteLength (batch_transformArray batch)) min)
                       (Z.lor COPY_DST STORAGE) (Some "transform"%string) false
                       (batch_drawParameters batch))
    ∧ registered_buffer s' "object-index"
      = Some (mkBuffer (Z.max (byteLength (batch_idArray batch)) min)
                       (Z.lor COPY_DST STORAGE) (Some "object-index"%string) false
                       (batch_idArray batch))
    ∧ (∀ other, other ∉ batch_labels →
         registered_buffer s' other = registered_buffer s other
         ∧ sharedBuffers s' !! other = sharedBuffers s !! other)
    ∧ (∀ label old, label ∈ batch_labels →
         sharedBuffers s !! label = Some old → buffer_destroyed s' old).
Proof.
  intros Hs Hbatch. unfold createMeshBuffer.
  rewrite Hbatch. unfold lift. unfold bind at 1.
  destruct (renderer_createBuffer_sound s
              (mkBufferDescriptor (Z.max (byteLength (batch_vertexArray batch)) min)
                                  (Z.lor COPY_DST VERTEX) None) "vertex" Hs)
    as (s1 & E1 & Hs1 & St1 & DP1 & M1 & R1 & O1 & D1).
  rewrite (bind_Normal _ _ _ _ _ E1).
  destruct (renderer_createBuffer_sound s1
              (mkBufferDescriptor (Z.max (byteLength (batch_indexArray batch)) min)
                                  (Z.lor COPY_DST INDEX) None) "index" Hs1)
    as (s2 & E2 & Hs2 & St2 & DP2 & M2 & R2 & O2 & D2).
  rewrite (bind_Normal _ _ _ _ _ E2).
  destruct (renderer_createBuffer_sound s2
              (mkBufferDescriptor (Z.max (byteLength (batch_transformArray batch)) min)
                                  (Z.lor COPY_DST STORAGE) None) "transform" Hs2)
    as (s3 & E3 & Hs3 & St3 & DP3 & M3 & R3 & O3 & D3).
  rewrite (bind_Normal _ _ _ _ _ E3).
  destruct (renderer_createBuffer_sound s3
              (mkBufferDescriptor (Z.max (byteLength (batch_idArray batch)) min)
                                  (Z.lor COPY_DST STORAGE) None) "object-index" Hs3)
    as (s4 & E4 & Hs4 & St4 & DP4 & M4 & R4 & O4 & D4).
  rewrite (bind_Normal _ _ _ _ _ E4).
  cbn [bd_size bd_usage] in *.
  (* the handles of the four buffers in [s4] *)
  assert (Hv : sharedBuffers s4 !! "vertex"%string = Some (length (gpuBuffers s))).
  { rewrite M4, M3, M2, M1. rewrite !lookup_insert_ne by discriminate.
    by rewrite lookup_insert_eq. }
  assert (Hi : sharedBuffers s4 !! "index"%string = Some (length (gpuBuffers s1))).
  { rewrite M4, M3, M2. rewrite !lookup_insert_ne by discriminate.
    by rewrite lookup_insert_eq. }
  assert (Ht : sharedBuffers s4 !! "transform"%string = Some (length (gpuBuffers s2))).
  { rewrite M4, M3. rewrite !lookup_insert_ne by discriminate.
    by rewrite lookup_insert_eq. }
  assert (Ho : sharedBuffers s4 !! "object-index"%string = Some (length (gpuBuffers s3))).
  { rewrite M4. by rewrite lookup_insert_eq. }
  assert (Rv : registered_buffer s4 "vertex" = Some (mkBuffer
            (Z.max (byteLength (batch_vertexArray batch)) min)
            (Z.lor COPY_DST VERTEX) (Some "vertex"%string) false [])).
  { rewrite O4, O3, O2 by discriminate. exact R1. }
  assert (Ri : registered_buffer s4 "index" = Some (mkBuffer
            (Z.max (byteLength (batch_indexArray batch)) min)
            (Z.lor COPY_DST INDEX) (Some "index"%string) false [])).
  { rewrite O4, O3 by discriminate. exact R2. }
  assert (Rt : registered_buffer s4 "transform" = Some (mkBuffer
            (Z.max (byteLength (batch_transformArray batch)) min)
            (Z.lor COPY_DST STORAGE) (Some "transform"%string) false [])).
  { rewrite O4 by discriminate. exact R3. }
  destruct (queue_writeBuffer_sound s4 "vertex" _ _ (batch_vertexArray batch) Hs4 Hv Rv)
    as (s5 & E5 & Hs5 & St5 & DP5 & M5 & W5 & O5).
  rewrite (bind_Normal _ _ _ _ _ E5).
  rewrite <- M5 in Hi, Ht, Ho. rewrite <- O5 in Ri, Rt, R4 by discriminate.
  destruct (queue_writeBuffer_sound s5 "index" _ _ (batch_indexArray batch) Hs5 Hi Ri)
    as (s6 & E6 & Hs6 & St6 & DP6 & M6 & W6 & O6).
  rewrite (bind_Normal _ _ _ _ _ E6).
  rewrite <- M6 in Ht, Ho. rewrite <- O6 in W5, Rt, R4 by discriminate.
  destruct (queue_writeBuffer_sound s6 "transform" _ _ (batch_drawParameters batch) Hs6 Ht Rt)
    as (s7 & E7 & Hs7 & St7 & DP7 & M7 & W7 & O7).
  rewrite (bind_Normal _ _ _ _ _ E7).
  rewrite <- M7 in Ho. rewrite <- O7 in W5, W6, R4 by discriminate.
  destruct (queue_writeBuffer_sound s7 "object-index" _ _ (batch_idArray batch) Hs7 Ho R4)
    as (s8 & E8 & Hs8 & St8 & DP8 & M8 & W8 & O8).
  rewrite (bind_Normal _ _ _ _ _ E8).
  rewrite <- O8 in W5, W6, W7 by discriminate.
  rewrite write_words_fresh in W5, W6, W7, W8.
  pose proof (buffers_step_trans _ _ _ St1
               (buffers_step_trans _ _ _ St2
                 (buffers_step_trans _ _ _ St3
                   (buffers_step_trans _ _ _ St4
                     (buffers_step_trans _ _ _ St5
                       (buffers_step_trans _ _ _ St6
                         (buffers_step_trans _ _ _ St7 St8)))))))
    as (GT & ST & SB & Dmono).
  eexists. split; [reflexivity|].
  change (registered_buffer (with_drawParameters (batch_drawParameters batch) s8))
    with (registered_buffer s8).
  split_and!; try assumption; try reflexivity.
  - intros other Hother. unfold batch_labels in Hother.
    rewrite !not_elem_of_cons in Hother. destruct Hother as (? & ? & ? & ? & _).
    split.
    + rewrite O8, O7, O6, O5, O4, O3, O2, O1 by assumption. reflexivity.
    + cbn. rewrite M8, M7, M6, M5, M4, M3, M2, M1.
      by rewrite !lookup_insert_ne by congruence.
  - intros label old Hl Hold. unfold batch_labels in Hl.
    rewrite !elem_of_cons, elem_of_nil in Hl.
    assert (Hlate : ∀ h, buffer_destroyed s4 h → buffer_destroyed s8 h).
    { intros h Hh.
      apply (proj2 (proj2 (proj2 St8))), (proj2 (proj2 (proj2 St7))),
            (proj2 (proj2 (proj2 St6))), (proj2 (proj2 (proj2 St5))). exact Hh. }
    change (buffer_destroyed (with_drawParameters (batch_drawParameters batch) s8) old)
      with (buffer_destroyed s8 old).
    apply Hlate.
    destruct Hl as [->|[->|[->|[->|[]]]]].
    + apply (proj2 (proj2 (proj2 St4))), (proj2 (proj2 (proj2 St3))),
            (proj2 (proj2 (proj2 St2))). by apply D1.
    + apply (proj2 (proj2 (proj2 St4))), (proj2 (proj2 (proj2 St3))).
      apply D2. rewrite M1. by rewrite lookup_insert_ne by discriminate.
    + apply (proj2 (proj2 (proj2 St4))).
      apply D3. rewrite M2, M1. by rewrite !lookup_insert_ne by discriminate.
    + apply D4. rewrite M3, M2, M1. by rewrite !lookup_insert_ne by discriminate.
Qed.

Lemma scan_scene_group_count scene scan :
  scan_scene scene = Normal scan →
  length (instances scan) = distinct_mesh_count scene.
Proof.
  intros Hscan. unfold scan_scene in Hscan.
  assert (Hok : scan_ok (mkScan 0 0
            (new_array (Z.of_nat (length (entities scene)) * 16)) [])).
  { split_and!; cbn; try reflexivity; [apply NoDup_nil_2|apply Forall_nil_2]. }
  destruct (scan_entities_spec _ _ _ Hscan Hok) as ((Hnd & _) & _ & _ & Hkeys).
  unfold distinct_mesh_count.
  rewrite <- (length_fmap (λ g, mesh_ref g.1) (instances scan)).
  apply Permutation_length, NoDup_Permutation; [exact Hnd|apply NoDup_remove_dups|].
  intros ref. rewrite elem_of_remove_dups.
  fold (group_keys (instances scan)). rewrite Hkeys. cbn.
  destruct scene. set_solver.
Qed.

Lemma fill_groups_table_length m acc r :
  forEach fill_group m acc = Normal r → length (drawTable r) = length (drawTable acc).
Proof.
  apply (forEach_invariant (λ a, length (drawTable a) = length (drawTable acc)));
    [|reflexivity].
  intros a [mesh value] a' Ha Hf.
  apply fill_group_Normal in Hf as (_ & _ & _ & Ht & _).
  apply typed_set_length in Ht. congruence.
Qed.

(** Whenever the batcher returns, its table has one row per distinct
    mesh. *)
Lemma build_arrays_rows scene batch :
  build_arrays scene = Normal batch →
  length (table_rows (batch_drawParameters batch)) = distinct_mesh_count scene.
Proof.
  intros Hb. apply build_arrays_Normal in Hb as (scan & fill & Hscan & Hfill & ->).
  cbn. apply length_table_rows.
  rewrite (fill_groups_table_length _ _ _ Hfill). cbn.
  unfold new_array. rewrite length_replicate.
  rewrite (scan_scene_group_count _ _ Hscan). lia.
Qed.

(** X15. One run of [createMeshBuffer] on a well-formed registry.  When
    the array phase raises an exception, [createMeshBuffer] raises the same
    exception.  Otherwise it returns; the four labels "vertex",
    "index", "transform" and "object-index" hold four new live buffers, of
    size max(byte length of the array, minimum) and with the usage flags of
    the source; the vertex, index and id arrays have been uploaded to their
    buffers and the draw-parameter table to the transform buffer; the table
    is stored on the pass; the buffers these labels held before are
    destroyed; buffers under other labels and all textures are as before. *)
Theorem createMeshBuffer_frame min viewport s :
  registry_sound s →
  match build_arrays (scene viewport) with
  | Throw e => createMeshBuffer min viewport s = Throw e
  | Normal batch =>
      ∃ s', createMeshBuffer min viewport s = Normal (tt, s')
        ∧ registry_sound s'
        ∧ drawParameters s' = batch_drawParameters batch
        ∧ registered_buffer s' "vertex"
          = Some (mkBuffer (Z.max (byteLength (batch_vertexArray batch)) min)
                           (Z.lor COPY_DST VERTEX) (Some "vertex"%string) false
                           (batch_vertexArray batch))
        ∧ registered_buffer s' "index"
          = Some (mkBuffer (Z.max (byteLength (batch_indexArray batch)) min)
                           (Z.lor COPY_DST INDEX) (Some "index"%string) false
                           (batch_indexArray batch))
        ∧ registered_buffer s' "transform"
          = Some (mkBuffer (Z.max (byteLength (batch_transformArray batch)) min)
                           (Z.lor COPY_DST STORAGE) (Some "transform"%string) false
                           (batch_drawParameters batch))
        ∧ registered_buffer s' "object-index"
          = Some (mkBuffer (Z.max (byteLength (batch_idArray batch)) min)
                           (Z.lor COPY_DST STORAGE) (Some "object-index"%string) false
                           (batch_idArray batch))
        ∧ (∀ label old, label ∈ batch_labels →
             sharedBuffers s !! label = Some old → buffer_destroyed s' old)
        ∧ (∀ other, other ∉ batch_labels →
             registered_buffer s' other = registered_buffer s other)
        ∧ (∀ other, registered_texture s' other = registered_texture s other)
        ∧ submitted s' = submitted s
  end.
Proof.
  intros Hs. destruct (build_arrays (scene viewport)) as [batch|e] eqn:Hb.
  - destruct (createMeshBuffer_spec min viewport s batch Hs Hb)
      as (s' & E & Hs' & GT & ST & SB & DP & Rv & Ri & Rt & Ro & Hother & Hold).
    exists s'. split_and!; try assumption.
    + intros other Ho. by apply Hother.
    + intros other. unfold registered_texture. by rewrite GT, ST.
  - unfold createMeshBuffer, bind, lift. by rewrite Hb.
Qed.

Lemma createMeshBuffer_frame_witness :
  registry_sound (state_after frame_calls)
  ∧ match build_arrays (scene (mkViewport scene_AAB 4 4)) with
    | Throw e => createMeshBuffer 32 (mkViewport scene_AAB 4 4) (state_after frame_calls)
                 = Throw e
    | Normal batch =>
        ∃ s', createMeshBuffer 32 (mkViewport scene_AAB 4 4) (state_after frame_calls)
              = Normal (tt, s')
          ∧ registry_sound s'
          ∧ drawParameters s' = batch_drawParameters batch
          ∧ registered_buffer s' "vertex"
            = Some (mkBuffer (Z.max (byteLength (batch_vertexArray batch)) 32)
                             (Z.lor COPY_DST VERTEX) (Some "vertex"%string) false
                             (batch_vertexArray batch))
          ∧ registered_buffer s' "index"
            = Some (mkBuffer (Z.max (byteLength (batch_indexArray batch)) 32)
                             (Z.lor COPY_DST INDEX) (Some "index"%string) false
                             (batch_indexArray batch))
          ∧ registered_buffer s' "transform"
            = Some (mkBuffer (Z.max (byteLength (batch_transformArray batch)) 32)
                             (Z.lor COPY_DST STORAGE) (Some "transform"%string) false
                             (batch_drawParameters batch))
          ∧ registered_buffer s' "object-index"
            = Some (mkBuffer (Z.max (byteLength (batch_idArray batch)) 32)
                             (Z.lor COPY_DST STORAGE) (Some "object-index"%string) false
                             (batch_idArray batch))
          ∧ (∀ label old, label ∈ batch_labels →
               sharedBuffers (state_after frame_calls) !! label = Some old →
               buffer_destroyed s' old)
          ∧ (∀ other, other ∉ batch_labels →
               registered_buffer s' other
               = registered_buffer (state_after frame_calls) other)
          ∧ (∀ other, registered_texture s' other
                      = registered_texture (state_after frame_calls) other)
          ∧ submitted s' = submitted (state_after frame_calls)
    end.
Proof.
  split; [apply state_after_sound|].
  apply (createMeshBuffer_frame 32 (mkViewport scene_AAB 4 4) (state_after frame_calls)).
  apply state_after_sound.
Defined.

Lemma alter_three {A} (f : A → A) l a b c :
  alter f (length ((l ++ [a]) ++ [b]))
    (alter f (length (l ++ [a]))
       (alter f (length l) (((l ++ [a]) ++ [b]) ++ [c])))
  = l ++ [f a; f b; f c].
Proof.
  induction l as [|x l IH]; [reflexivity|].
  cbn. f_equal. exact IH.
Qed.

(** What [render] does after its look-ups: three transient multisampled
    textures are created, the draw calls are recorded and submitted, and the
    three textures are destroyed. *)
Lemma render_tail_eq d1 d2 d3 s :
  (let! r1 := new_textureDescriptor d1 in
   let! multisampledColorTexture := device_createTexture r1 in
   let! r2 := new_textureDescriptor d2 in
   let! multisampledDepthTexture := device_createTexture r2 in
   let! r3 := new_textureDescriptor d3 in
   let! multisampledNormalTexture := device_createTexture r3 in
   let! table := gets drawParameters in
   modify (λ s, with_submitted (submitted s ++ [draw_loop (length table) 0 table]) s) ;;;
   GPUTexture_destroy multisampledColorTexture ;;;
   GPUTexture_destroy multisampledDepthTexture ;;;
   GPUTexture_destroy multisampledNormalTexture) s
  = Normal (tt,
      mkState (bufferDescriptors s) (textureDescriptors s ++ [d1; d2; d3])
              (gpuBuffers s)
              (gpuTextures s ++ [mkTexture d1 true; mkTexture d2 true; mkTexture d3 true])
              (sharedBuffers s) (sharedTextures s) (drawParameters s)
              (submitted s ++ [table_rows (drawParameters s)])).
Proof.
  rewrite !new_texture_eq.
  unfold GPUTexture_destroy.
  unfold bind, gets, modify, with_submitted, with_gpuTextures.
  cbn [gpuTextures bufferDescriptors textureDescriptors gpuBuffers sharedBuffers
       sharedTextures drawParameters submitted].
  rewrite alter_three, <- !app_assoc. reflexivity.
Qed.

(** X16. One run of [render] on a well-formed registry that holds the four
    shared textures and the camera buffer.  When the array phase of the
    batcher raises an exception, [render] raises it.  Otherwise [render]
    returns: it submits exactly one command buffer, holding one
    [drawIndexed] call per row of the table, that is one per distinct mesh
    of the scene whatever the number of instances; the buffers are as
    [createMeshBuffer] left them; the three multisampled textures it creates
    for the frame are destroyed before it returns; and the registered
    textures are untouched. *)
Theorem render_frame min viewport s color depth object_index normal camera :
  registry_sound s →
  sharedTextures s !! "color"%string = Some color →
  sharedTextures s !! "depth"%string = Some depth →
  sharedTextures s !! "object-index"%string = Some object_index →
  sharedTextures s !! "normal"%string = Some normal →
  sharedBuffers s !! "camera"%string = Some camera →
  match build_arrays (scene viewport) with
  | Throw e => render min viewport s = Throw e
  | Normal batch =>
      ∃ s1 s', createMeshBuffer min viewport s = Normal (tt, s1)
        ∧ render min viewport s = Normal (tt, s')
        ∧ gpuBuffers s' = gpuBuffers s1
        ∧ sharedBuffers s' = sharedBuffers s1
        ∧ drawParameters s' = batch_drawParameters batch
        ∧ submitted s' = submitted s ++ [table_rows (batch_drawParameters batch)]
        ∧ length (table_rows (batch_drawParameters batch))
          = distinct_mesh_count (scene viewport)
        ∧ gpuTextures s'
          = gpuTextures s
            ++ [ mkTexture (multisampled viewport "rgba8unorm" "multisample-color") true;
                 mkTexture (multisampled viewport "depth24plus-stencil8" "multisample-depth") true;
                 mkTexture (multisampled viewport "rgba8unorm" "multisample-normal") true ]
        ∧ sharedTextures s' = sharedTextures s
        ∧ (∀ other, registered_texture s' other = registered_texture s other)
        ∧ registry_sound s'
  end.
Proof.
  intros Hs Hcolor Hdepth Hindex Hnormal Hcamera.
  destruct (build_arrays (scene viewport)) as [batch|e] eqn:Hb.
  2:{ unfold render, createMeshBuffer, bind, lift. by rewrite Hb. }
  destruct (createMeshBuffer_spec min viewport s batch Hs Hb)
    as (s1 & E & Hs1 & GT & ST & SB & DP & Rv & Ri & Rt & Ro & Hother & Hold).
  exists s1. unfold render. rewrite (bind_Normal _ _ _ _ _ E).
  rewrite <- ST in Hcolor, Hdepth, Hindex, Hnormal.
  rewrite (bind_Normal _ _ _ _ _ (getTexture_registered s1 _ _ Hcolor)).
  rewrite (bind_Normal _ _ _ _ _ (getTexture_registered s1 _ _ Hdepth)).
  rewrite (bind_Normal _ _ _ _ _ (getTexture_registered s1 _ _ Hindex)).
  rewrite (bind_Normal _ _ _ _ _ (getTexture_registered s1 _ _ Hnormal)).
  assert (Hreg : ∀ label b, registered_buffer s1 label = Some b →
                   ∃ h, sharedBuffers s1 !! label = Some h).
  { intros label b. unfold registered_buffer.
    destruct (sharedBuffers s1 !! label); [eauto|discriminate]. }
  destruct (Hreg _ _ Ro) as [ho Ho]. destruct (Hreg _ _ Rv) as [hv Hv].
  destruct (Hreg _ _ Ri) as [hi Hi]. destruct (Hreg _ _ Rt) as [ht Ht].
  assert (Hc : sharedBuffers s1 !! "camera"%string = Some camera).
  { rewrite (proj2 (Hother "camera"%string ltac:(unfold batch_labels; set_solver))).
    exact Hcamera. }
  rewrite (bind_Normal _ _ _ _ _ (getBuffer_registered s1 _ _ Ho)).
  rewrite (bind_Normal _ _ _ _ _ (getBuffer_registered s1 _ _ Hc)).
  rewrite (bind_Normal _ _ _ _ _ (getBuffer_registered s1 _ _ Hv)).
  rewrite (bind_Normal _ _ _ _ _ (getBuffer_registered s1 _ _ Hi)).
  rewrite (bind_Normal _ _ _ _ _ (getBuffer_registered s1 _ _ Ht)).
  rewrite render_tail_eq.
  eexists. split; [exact E|]. split; [reflexivity|]. cbn.
  destruct Hs as [_ HsT]. destruct Hs1 as [Hs1B _].
  split_and!; try reflexivity; try congruence.
  - by apply build_arrays_rows.
  - intros other. unfold registered_texture. cbn. rewrite ST, GT.
    destruct (sharedTextures s !! other) as [h|] eqn:Ho'; [|reflexivity].
    apply lookup_app_l.
    by apply (sound_map_lt (λ t, td_label (tex_descriptor t)) tex_destroyed
                _ (sharedTextures s) other).
  - split; cbn; [exact Hs1B|].
    rewrite ST, GT. intros L h HL. destruct (HsT _ _ HL) as (t & Hlook & Hrest).
    exists t. split; [|exact Hrest].
    rewrite lookup_app_l; [exact Hlook|]. by eapply lookup_lt_Some.
Qed.

Lemma render_frame_witness :
  registry_sound (state_after frame_calls)
  ∧ sharedTextures (state_after frame_calls) !! "color"%string = Some 0%nat
  ∧ sharedTextures (state_after frame_calls) !! "depth"%string = Some 1%nat
  ∧ sharedTextures (state_after frame_calls) !! "object-index"%string = Some 2%nat
  ∧ sharedTextures (state_after frame_calls) !! "normal"%string = Some 3%nat
  ∧ sharedBuffers (state_after frame_calls) !! "camera"%string = Some 0%nat
  ∧ match build_arrays (scene (mkViewport scene_AAB 4 4)) with
    | Throw e => render 32 (mkViewport scene_AAB 4 4) (state_after frame_calls) = Throw e
    | Normal batch =>
        ∃ s1 s', createMeshBuffer 32 (mkViewport scene_AAB 4 4) (state_after frame_calls)
                 = Normal (tt, s1)
          ∧ render 32 (mkViewport scene_AAB 4 4) (state_after frame_calls) = Normal (tt, s')
          ∧ gpuBuffers s' = gpuBuffers s1
          ∧ sharedBuffers s' = sharedBuffers s1
          ∧ drawParameters s' = batch_drawParameters batch
          ∧ submitted s' = submitted (state_after frame_calls)
                           ++ [table_rows (batch_drawParameters batch)]
          ∧ length (table_rows (batch_drawParameters batch))
            = distinct_mesh_count (scene (mkViewport scene_AAB 4 4))
          ∧ gpuTextures s'
            = gpuTextures (state_after frame_calls)
              ++ [ mkTexture (multisampled (mkViewport scene_AAB 4 4)
                                "rgba8unorm" "multisample-color") true;
                   mkTexture (multisampled (mkViewport scene_AAB 4 4)
                                "depth24plus-stencil8" "multisample-depth") true;
                   mkTexture (multisampled (mkViewport scene_AAB 4 4)
                                "rgba8unorm" "multisample-normal") true ]
          ∧ sharedTextures s' = sharedTextures (state_after frame_calls)
          ∧ (∀ other, registered_texture s' other
                      = registered_texture (state_after frame_calls) other)
          ∧ registry_sound s'
    end.
Proof.
  split; [apply state_after_sound|].
  do 5 (split; [reflexivity|]).
  apply (render_frame 32 (mkViewport scene_AAB 4 4) (state_after frame_calls) 0 1 2 3 0);
    first [reflexivity | apply state_after_sound].
Defined.

(** ** The shared textures of a frame *)

Lemma textures_step_trans s1 s2 s3 :
  textures_step s1 s2 → textures_step s2 s3 → textures_step s1 s3.
Proof.
  intros (B1 & M1 & P1 & S1 & D1) (B2 & M2 & P2 & S2 & D2).
  split_and!; try congruence. auto.
Qed.

Lemma renderer_createTexture_eq s d label :
  renderer_createTexture d label s =
    Normal (length (gpuTextures s),
      mkState (bufferDescriptors s)
              (textureDescriptors s ++ [set_td_label label d])
              (gpuBuffers s)
              (destroy_old destroy_texture (sharedTextures s !! label)
                 (gpuTextures s ++ [mkTexture (set_td_label label d) false]))
              (sharedBuffers s)
              (<[label := length (gpuTextures s)]> (sharedTextures s))
              (drawParameters s) (submitted s)).
Proof.
  unfold renderer_createTexture, new_textureDescriptor, bind. cbn.
  rewrite (createTexture_eq _ _ d) by (cbn; apply list_lookup_middle; reflexivity).
  cbn. do 3 f_equal.
  rewrite alter_app_r_alt by reflexivity. rewrite Nat.sub_diag. reflexivity.
Qed.

Lemma renderer_createTexture_sound s d label :
  registry_sound s →
  ∃ s', renderer_createTexture d label s = Normal (length (gpuTextures s), s')
    ∧ registry_sound s'
    ∧ textures_step s s'
    ∧ sharedTextures s' = <[label := length (gpuTextures s)]> (sharedTextures s)
    ∧ registered_texture s' label = Some (mkTexture (set_td_label label d) false)
    ∧ (∀ other, other ≠ label → registered_texture s' other = registered_texture s other)
    ∧ (∀ old, sharedTextures s !! label = Some old → texture_destroyed s' old).
Proof.
  intros [Hb Ht]. rewrite renderer_createTexture_eq.
  eexists. split; [reflexivity|].
  set (new := mkTexture (set_td_label label d) false).
  split_and!; cbn; try reflexivity.
  - split; cbn; [assumption|]. by apply (sound_map_create _ _ destroy_texture).
  - split_and!; cbn; try reflexivity.
    intros h (t & Hlook & Hd). unfold texture_destroyed. cbn.
    pose proof (lookup_lt_Some _ _ _ Hlook) as Hlt.
    destruct (sharedTextures s !! label) as [o|]; cbn.
    + rewrite list_lookup_alter. case_decide.
      * subst o. rewrite lookup_app_l, Hlook by assumption. cbn. eauto.
      * rewrite lookup_app_l, Hlook by assumption. eauto.
    + rewrite lookup_app_l, Hlook by assumption. eauto.
  - unfold registered_texture. cbn. rewrite lookup_insert_eq.
    by apply (lookup_created (λ t, td_label (tex_descriptor t)) tex_destroyed).
  - intros other Hne. unfold registered_texture. cbn.
    rewrite lookup_insert_ne by congruence.
    destruct (sharedTextures s !! other) as [h'|] eqn:Ho; [|reflexivity].
    by apply (lookup_other_label (λ t, td_label (tex_descriptor t)) tex_destroyed
                destroy_texture _ _ _ label other h').
  - intros old Hold. destruct (Ht _ _ Hold) as (t & Hlook & _).
    pose proof (lookup_lt_Some _ _ _ Hlook) as Hlt.
    exists (destroy_texture t). rewrite Hold. cbn.
    rewrite list_lookup_alter_eq, lookup_app_l, Hlook by assumption. by split.
Qed.

(** X17. The four [createTexture] calls that open a frame of
    [BasicRenderer.render], on a well-formed registry: they return; the
    labels "color", "depth", "object-index" and "normal" hold four new live
    textures of the size of the viewport, with the formats and usage flags
    of the source and their label written into the descriptor; the textures
    these labels held before, those of the previous frame, are destroyed;
    textures under other labels and all buffers are as before. *)
Theorem frame_textures_replaced viewport s :
  registry_sound s →
  ∃ s', BasicRenderer_render_textures viewport s = Normal (tt, s')
    ∧ registry_sound s'
    ∧ registered_texture s' "color"
      = Some (mkTexture (mkTextureDescriptor (width viewport) (height viewport)
                "rgba8unorm" 29 None (Some "color"%string)) false)
    ∧ registered_texture s' "depth"
      = Some (mkTexture (mkTextureDescriptor (width viewport) (height viewport)
                "depth24plus-stencil8" 20 None (Some "depth"%string)) false)
    ∧ registered_texture s' "object-index"
      = Some (mkTexture (mkTextureDescriptor (width viewport) (height viewport)
                "r32uint" 28 None (Some "object-index"%string)) false)
    ∧ registered_texture s' "normal"
      = Some (mkTexture (mkTextureDescriptor (width viewport) (height viewport)
                "rgba8unorm" 28 None (Some "normal"%string)) false)
    ∧ (∀ label old, label ∈ shared_texture_labels →
         sharedTextures s !! label = Some old → texture_destroyed s' old)
    ∧ (∀ other, other ∉ shared_texture_labels →
         registered_texture s' other = registered_texture s other)
    ∧ gpuBuffers s' = gpuBuffers s
    ∧ sharedBuffers s' = sharedBuffers s
    ∧ drawParameters s' = drawParameters s
    ∧ submitted s' = submitted s.
Proof.
  intros Hs. unfold BasicRenderer_render_textures.
  destruct (renderer_createTexture_sound s
              (mkTextureDescriptor (width viewport) (height viewport) "rgba8unorm"
                 (Z.lor (Z.lor (Z.lor RENDER_ATTACHMENT STORAGE_BINDING) TEXTURE_BINDING)
                        COPY_SRC) None None) "color" Hs)
    as (s1 & E1 & Hs1 & St1 & M1 & R1 & O1 & D1).
  rewrite (bind_Normal _ _ _ _ _ E1).
  destruct (renderer_createTexture_sound s1
              (mkTextureDescriptor (width viewport) (height viewport) "depth24plus-stencil8"
                 (Z.lor RENDER_ATTACHMENT TEXTURE_BINDING) None None) "depth" Hs1)
    as (s2 & E2 & Hs2 & St2 & M2 & R2 & O2 & D2).
  rewrite (bind_Normal _ _ _ _ _ E2).
  destruct (renderer_createTexture_sound s2
              (mkTextureDescriptor (width viewport) (height viewport) "r32uint"
                 (Z.lor (Z.lor RENDER_ATTACHMENT STORAGE_BINDING) TEXTURE_BINDING)
                 None None) "object-index" Hs2)
    as (s3 & E3 & Hs3 & St3 & M3 & R3 & O3 & D3).
  rewrite (bind_Normal _ _ _ _ _ E3).
  destruct (renderer_createTexture_sound s3
              (mkTextureDescriptor (width viewport) (height viewport) "rgba8unorm"
                 (Z.lor (Z.lor RENDER_ATTACHMENT STORAGE_BINDING) TEXTURE_BINDING)
                 None None) "normal" Hs3)
    as (s4 & E4 & Hs4 & St4 & M4 & R4 & O4 & D4).
  rewrite (bind_Normal _ _ _ _ _ E4).
  exists s4. split; [reflexivity|].
  pose proof (textures_step_trans _ _ _ St1
               (textures_step_trans _ _ _ St2
                 (textures_step_trans _ _ _ St3 St4))) as (GB & SB & DP & SU & _).
  split_and!; try assumption.
  - rewrite O4, O3, O2 by discriminate. exact R1.
  - rewrite O4, O3 by discriminate. exact R2.
  - rewrite O4 by discriminate. exact R3.
  - intros label old Hl Hold. unfold shared_texture_labels in Hl.
    rewrite !elem_of_cons, elem_of_nil in Hl.
    destruct Hl as [->|[->|[->|[->|[]]]]].
    + apply (proj2 (proj2 (proj2 (proj2 St4)))), (proj2 (proj2 (proj2 (proj2 St3)))),
            (proj2 (proj2 (proj2 (proj2 St2)))). by apply D1.
    + apply (proj2 (proj2 (proj2 (proj2 St4)))), (proj2 (proj2 (proj2 (proj2 St3)))).
      apply D2. rewrite M1. by rewrite lookup_insert_ne by discriminate.
    + apply (proj2 (proj2 (proj2 (proj2 St4)))).
      apply D3. rewrite M2, M1. by rewrite !lookup_insert_ne by discriminate.
    + apply D4. rewrite M3, M2, M1. by rewrite !lookup_insert_ne by discriminate.
  - intros other Hother. unfold shared_texture_labels in Hother.
    rewrite !not_elem_of_cons in Hother. destruct Hother as (? & ? & ? & ? & _).
    rewrite O4, O3, O2, O1 by assumption. reflexivity.
Qed.

Lemma frame_textures_replaced_witness :
  registry_sound (state_after frame_calls)
  ∧ ∃ s', BasicRenderer_render_textures (mkViewport scene_AAB 8 6) (state_after frame_calls)
          = Normal (tt, s')
    ∧ registry_sound s'
    ∧ registered_texture s' "color"
      = Some (mkTexture (mkTextureDescriptor 8 6 "rgba8unorm" 29 None
                           (Some "color"%string)) false)
    ∧ registered_texture s' "depth"
      = Some (mkTexture (mkTextureDescriptor 8 6 "depth24plus-stencil8" 20 None
                           (Some "depth"%string)) false)
    ∧ registered_texture s' "object-index"
      = Some (mkTexture (mkTextureDescriptor 8 6 "r32uint" 28 None
                           (Some "object-index"%string)) false)
    ∧ registered_texture s' "normal"
      = Some (mkTexture (mkTextureDescriptor 8 6 "rgba8unorm" 28 None
                           (Some "normal"%string)) false)
    ∧ (∀ label old, label ∈ shared_texture_labels →
         sharedTextures (state_after frame_calls) !! label = Some old →
         texture_destroyed s' old)
    ∧ (∀ other, other ∉ shared_texture_labels →
         registered_texture s' other = registered_texture (state_after frame_calls) other)
    ∧ gpuBuffers s' = gpuBuffers (state_after frame_calls)
    ∧ sharedBuffers s' = sharedBuffers (state_after frame_calls)
    ∧ drawParameters s' = drawParameters (state_after frame_calls)
    ∧ submitted s' = submitted (state_after frame_calls).
Proof.
  split; [apply state_after_sound|].
  apply (frame_textures_replaced (mkViewport scene_AAB 8 6) (state_after frame_calls)).
  apply state_after_sound.
Defined.

(** ** [WebGPU.init] *)

(** X18. [init] raises an exception in one case only: [navigator.gpu] is
    not defined.  A missing adapter, a missing device or a rejected request
    is caught and written to the console: [init] then still returns, with
    both registry maps empty and no device, so that [getDevice] gives
    nothing; and the device is requested only once an adapter was found. *)
Theorem init_reports_only_missing_gpu nav :
  match init nav with
  | Throw e =>
      nav_gpu nav = false ∧ e = Error "WebGPU not supported on this browser."
  | Normal i =>
      nav_gpu nav = true
      ∧ inst_sharedBuffers i = ∅ ∧ inst_sharedTextures i = ∅
      ∧ (getAdapter i = None → getDevice i = None)
      ∧ (inst_console i = [] ↔ ∃ device, getDevice i = Some device)
      ∧ (∀ device, getDevice i = Some device →
           nav_requestDevice nav = Normal (Some device)
           ∧ ∃ adapter, getAdapter i = Some adapter
                        ∧ nav_requestAdapter nav = Normal (Some adapter))
  end.
Proof.
  unfold init, init_try, getDevice, getAdapter.
  destruct nav as [gpu ra rd]. cbn.
  destruct gpu; cbn; [|by split].
  destruct ra as [[a|]|ea]; [destruct rd as [[d|]|ed]| |]; cbn;
    (split_and!; [reflexivity|reflexivity|reflexivity| | |]);
    try (intros; discriminate); try done.
  all: try (split; [intros; discriminate | intros [? ?]; discriminate]).
  - split; [eauto|reflexivity].
  - intros device [= <-]. eauto.
Qed.
